(** * vtzero: the encoder core (builder_impl.hpp)

    A shallow embedding of [vtzero::detail::string_table],
    [layer_builder_impl] and [layer_builder_existing], together with the
    protobuf wire format they write through protozero, the properties the
    specification states about them, and further properties of the code:
    searching and filling the tables, the size estimates, and reading a
    built layer back. *)

From Stdlib Require Import NArith Lia.
From Stdlib.Strings Require Import Byte.
From stdpp Require Import base option list gmap countable.

Local Open Scope N_scope.

(** ** Bytes and buffers *)

(** [std::string] and [data_view] are byte strings. *)
Abbreviation bytes := (list byte).

#[global] Instance byte_eq_decision : EqDecision byte := Byte.byte_eq_dec.
#[global] Instance byte_countable : Countable byte :=
  inj_countable Byte.to_N Byte.of_N Byte.of_to_N.

(** [char(n)]: the low eight bits of [n]. *)
Definition byte_of_N (n : N) : byte :=
  match Byte.of_N (N.land n 0xff) with
  | Some b => b
  | None => x00
  end.

(** ** The protobuf writer and reader (protozero)

    Modelled from the spec: the low-level protobuf writer and reader are
    external collaborators (protozero's [pbf_builder] and [pbf_message]);
    they are modelled by the wire format of section 6: a field is a varint
    key [(tag << 3) | wire_type] followed, for a length-delimited field, by
    a varint length and the payload. *)

Module pbf.

Definition wire_varint : N := 0.
Definition wire_fixed64 : N := 1.
Definition wire_length_delimited : N := 2.
Definition wire_fixed32 : N := 5.

(** [write_varint]: seven bits per byte, low group first, the high bit set
    on every byte but the last.  [fuel] bounds the loop; [write_varint]
    gives it the number of bits of the value, which is always enough. *)
Fixpoint write_varint_loop (fuel : nat) (value : N) : bytes :=
  match fuel with
  | O => [byte_of_N value]
  | S fuel' =>
      if 0x7f <? value
      then byte_of_N (N.lor (N.land value 0x7f) 0x80)
             :: write_varint_loop fuel' (N.shiftr value 7)
      else [byte_of_N value]
  end.

Definition write_varint (value : N) : bytes :=
  write_varint_loop (N.to_nat (N.size value)) value.

(** [decode_varint]: [None] stands for the reader's end-of-buffer
    exception.  (The reader also refuses varints longer than ten bytes,
    which the writer never emits for a 64-bit value.) *)
Fixpoint decode_varint (data : bytes) : option (N * bytes) :=
  match data with
  | [] => None
  | b :: rest =>
      let n := Byte.to_N b in
      if n <? 0x80 then Some (n, rest)
      else match decode_varint rest with
           | Some (v, rest') => Some (N.lor (N.land n 0x7f) (N.shiftl v 7), rest')
           | None => None
           end
  end.

Definition key (tag wire_type : N) : N := N.lor (N.shiftl tag 3) wire_type.

(** [pbf_builder::add_uint32 / add_uint64 / add_enum]. *)
Definition add_varint (tag value : N) : bytes :=
  write_varint (key tag wire_varint) ++ write_varint value.

(** [pbf_builder::add_string / add_bytes / add_message].  protozero takes
    the length as a 32-bit value and asserts that the size fits; the model
    writes the length as it is. *)
Definition add_bytes (tag : N) (value : bytes) : bytes :=
  write_varint (key tag wire_length_delimited)
    ++ write_varint (N.of_nat (length value)) ++ value.

(** [pbf_builder::add_bytes_vectored]: several byte ranges under one
    length prefix. *)
Definition add_bytes_vectored (tag : N) (values : list bytes) : bytes :=
  write_varint (key tag wire_length_delimited)
    ++ write_varint (N.of_nat (length (concat values))) ++ concat values.

(** [pbf_message::next()]: the tag and wire type of the next field, and
    the reader positioned after the key; [None] at the end of the buffer. *)
Definition next (data : bytes) : option (N * N * bytes) :=
  match decode_varint data with
  | Some (k, rest) => Some (N.shiftr k 3, N.land k 0x07, rest)
  | None => None
  end.

(** [pbf_message::get_view() / get_string() / get_bytes()]: the payload of
    a length-delimited field, and the reader positioned after it. *)
Definition get_view (data : bytes) : option (bytes * bytes) :=
  match decode_varint data with
  | Some (len, rest) =>
      if len <=? N.of_nat (length rest)
      then Some (take (N.to_nat len) rest, drop (N.to_nat len) rest)
      else None
  | None => None
  end.

(** [pbf_message::skip()]: passes over the value of the current field. *)
Definition skip (wire_type : N) (data : bytes) : option bytes :=
  if wire_type =? wire_varint then
    match decode_varint data with Some (_, rest) => Some rest | None => None end
  else if wire_type =? wire_fixed64 then
    if (8 <=? length data)%nat then Some (drop 8 data) else None
  else if wire_type =? wire_length_delimited then
    match get_view data with Some (_, rest) => Some rest | None => None end
  else if wire_type =? wire_fixed32 then
    if (4 <=? length data)%nat then Some (drop 4 data) else None
  else None.

(** [pbf_message::next(tag, type)] followed by [get_view()], repeated to
    the end of the message: the payloads of the length-delimited fields
    with the given tag, in order; other fields are skipped.  [None] stands
    for an exception of the reader. *)
Fixpoint views_loop (fuel : nat) (tag : N) (data : bytes) : option (list bytes) :=
  match fuel with
  | O => Some []
  | S fuel' =>
      match data with
      | [] => Some []
      | _ =>
          match next data with
          | None => None
          | Some (t, w, rest) =>
              if (t =? tag) && (w =? wire_length_delimited) then
                match get_view rest with
                | None => None
                | Some (v, rest') =>
                    match views_loop fuel' tag rest' with
                    | Some vs => Some (v :: vs)
                    | None => None
                    end
                end
              else
                match skip w rest with
                | None => None
                | Some rest' => views_loop fuel' tag rest'
                end
          end
      end
  end.

Definition views (tag : N) (data : bytes) : option (list bytes) :=
  views_loop (length data) tag data.

(** The first varint field with the given tag, if any. *)
Fixpoint find_varint_loop (fuel : nat) (tag : N) (data : bytes) : option N :=
  match fuel with
  | O => None
  | S fuel' =>
      match next data with
      | None => None
      | Some (t, w, rest) =>
          if (t =? tag) && (w =? wire_varint) then
            match decode_varint rest with Some (v, _) => Some v | None => None end
          else
            match skip w rest with
            | None => None
            | Some rest' => find_varint_loop fuel' tag rest'
            end
      end
  end.

Definition find_varint (tag : N) (data : bytes) : option N :=
  find_varint_loop (length data) tag data.

(** A packed field's payload read as varints. *)
Fixpoint packed_varints_loop (fuel : nat) (data : bytes) : option (list N) :=
  match fuel with
  | O => Some []
  | S fuel' =>
      match data with
      | [] => Some []
      | _ =>
          match decode_varint data with
          | None => None
          | Some (v, rest) =>
              match packed_varints_loop fuel' rest with
              | Some vs => Some (v :: vs)
              | None => None
              end
          end
      end
  end.

Definition packed_varints (data : bytes) : option (list N) :=
  packed_varints_loop (length data) data.

(** Little-endian fixed-width value of [n] bytes ([add_fixed]). *)
Fixpoint fixed (n : nat) (value : N) : bytes :=
  match n with
  | O => []
  | S n' => byte_of_N value :: fixed n' (N.shiftr value 8)
  end.

(** [pbf_builder::add_packed_double / add_packed_float]: the values as
    fixed-width little-endian words under one length prefix; nothing is
    written for an empty range. *)
Definition add_packed_fixed (width : nat) (tag : N) (values : list N) : bytes :=
  match values with
  | [] => []
  | _ => add_bytes tag (concat (map (fixed width) values))
  end.

(** [pbf_builder::add_packed_uint32 / add_packed_uint64]: the values as
    varints under one length prefix; nothing is written for an empty
    range. *)
Definition add_packed_varint (tag : N) (values : list N) : bytes :=
  match values with
  | [] => []
  | _ => add_bytes tag (concat (map write_varint values))
  end.

End pbf.

(** ** Machine integers *)

(** [uint32_t] and [std::size_t] (64 bits) arithmetic wraps around. *)
Definition to_uint32 (n : N) : N := N.land n 0xffffffff.
Definition to_size_t (n : N) : N := N.land n 0xffffffffffffffff.

(** ** Outcomes: a value, or a failed [vtzero_assert] *)

Inductive outcome (A : Type) : Type :=
| returns (a : A)
| assert_error.
Arguments returns {A} a.
Arguments assert_error {A}.

Definition bind {A B : Type} (m : outcome A) (k : A -> outcome B) : outcome B :=
  match m with
  | returns a => k a
  | assert_error => assert_error
  end.

Notation "x <-- m ;; k" := (bind m (fun x => k))
  (at level 100, m at next level, right associativity).

(** Modelled from the spec: [vtzero_assert] (types.hpp) signals a
    programming error as a fatal assertion. *)
Definition vtzero_assert (cond : bool) : outcome unit :=
  if cond then returns tt else assert_error.

(** ** Index values

    Modelled from the spec: [index_value] (types.hpp) is a 32-bit unsigned
    integer whose default-constructed value, the maximum of the type, is
    the invalid sentinel. *)
Module index_value.

Definition t : Type := N.

Definition invalid : t := 0xffffffff.

Definition valid (i : t) : bool := negb (i =? invalid).

End index_value.

(** ** Tags of the layer message

    Modelled from the spec: the enum [detail::pbf_layer] (types.hpp), with
    the tags of section 6; for the v3 tables, which the spec leaves to the
    draft, the draft's numbers. *)
Module pbf_layer.
Definition name : N := 1.
Definition features : N := 2.
Definition keys : N := 3.
Definition values : N := 4.
Definition extent : N := 5.
Definition string_values : N := 6.
Definition double_values : N := 7.
Definition float_values : N := 8.
Definition int_values : N := 9.
Definition version : N := 15.
End pbf_layer.

(** Modelled from the spec: [detail::pbf_tile] (types.hpp). *)
Module pbf_tile.
Definition layers : N := 3.
End pbf_tile.

(** ** [class string_table] *)
Module string_table.

Definition max_entries_flat : N := 20.

Record t : Type := mk {
  m_data : bytes;                        (* the encoded table *)
  m_index : gmap bytes index_value.t;    (* the index into the table *)
  m_num : N;                             (* uint32_t: number of entries *)
  m_pbf_type : N                         (* the table's tag *)
}.

(** [explicit string_table(detail::pbf_layer pbf_type)] *)
Definition new (pbf_type : N) : t :=
  {| m_data := []; m_index := ∅; m_num := 0; m_pbf_type := pbf_type |}.

Definition data (tbl : t) : bytes := m_data tbl.

(** The loop of [find_in_table]; [index] is a [uint32_t].  The loop ends
    when [next()] finds the end of the buffer.  A reader exception cannot
    arise on the bytes the table itself wrote; the model ends the loop
    there as well. *)
Fixpoint find_in_table_loop (fuel : nat) (text : bytes) (pbf_table : bytes)
    (index : N) : index_value.t :=
  match fuel with
  | O => index_value.invalid
  | S fuel' =>
      match pbf.next pbf_table with
      | None => index_value.invalid
      | Some (_, _, rest) =>
          match pbf.get_view rest with
          | None => index_value.invalid
          | Some (v, rest') =>
              if decide (v = text) then index
              else find_in_table_loop fuel' text rest' (to_uint32 (index + 1))
          end
      end
  end.

Definition find_in_table (text : bytes) (data : bytes) : index_value.t :=
  find_in_table_loop (length data) text data 0.

(** The loop of [populate_index]: [map[pbf_table.get_string()] = index++]. *)
Fixpoint populate_index_loop (fuel : nat) (pbf_table : bytes) (index : N)
    (map : gmap bytes index_value.t) : gmap bytes index_value.t :=
  match fuel with
  | O => map
  | S fuel' =>
      match pbf.next pbf_table with
      | None => map
      | Some (_, _, rest) =>
          match pbf.get_view rest with
          | None => map
          | Some (s, rest') =>
              populate_index_loop fuel' rest' (to_uint32 (index + 1))
                (<[s := index]> map)
          end
      end
  end.

Definition populate_index (data : bytes) (map : gmap bytes index_value.t)
    : gmap bytes index_value.t :=
  populate_index_loop (length data) data 0 map.

Definition add_without_dup_check (text : bytes) (tbl : t) : index_value.t * t :=
  (m_num tbl,
   {| m_data := m_data tbl ++ pbf.add_bytes (m_pbf_type tbl) text;
      m_index := m_index tbl;
      m_num := to_uint32 (m_num tbl + 1);
      m_pbf_type := m_pbf_type tbl |}).

(** [m_index[key]] of [std::unordered_map]: a missing key is inserted with
    a default-constructed (invalid) value. *)
Definition subscript (map : gmap bytes index_value.t) (key : bytes)
    : index_value.t * gmap bytes index_value.t :=
  match map !! key with
  | Some v => (v, map)
  | None => (index_value.invalid, <[key := index_value.invalid]> map)
  end.

Definition set_index (map : gmap bytes index_value.t) (tbl : t) : t :=
  {| m_data := m_data tbl; m_index := map; m_num := m_num tbl;
     m_pbf_type := m_pbf_type tbl |}.

Definition find (text : bytes) (tbl : t) : index_value.t * t :=
  if m_num tbl <? max_entries_flat then
    (find_in_table text (m_data tbl), tbl)
  else
    let map :=
      if decide (m_index tbl = ∅) then populate_index (m_data tbl) (m_index tbl)
      else m_index tbl in
    let '(v, map) := subscript map text in
    if negb (index_value.valid v) then
      let '(v, tbl) := add_without_dup_check text (set_index map tbl) in
      (v, set_index (<[text := v]> (m_index tbl)) tbl)
    else (v, set_index map tbl).

Definition add (text : bytes) (tbl : t) : index_value.t * t :=
  let '(index, tbl) := find text tbl in
  if index_value.valid index then (index, tbl)
  else add_without_dup_check text tbl.

(** The entries of the serialized table, as a reader of the layer message
    sees them. *)
Definition entries (tbl : t) : list bytes :=
  match pbf.views (m_pbf_type tbl) (m_data tbl) with
  | Some vs => vs
  | None => []
  end.

End string_table.

(** ** Floating-point values

    A [double] or [float] is held as its IEEE 754 bit pattern; [operator==]
    on them is IEEE equality: a NaN equals nothing, and the two zeros are
    equal. *)
Definition ieee_is_nan (ebits mbits : N) (x : N) : bool :=
  (N.land (N.shiftr x mbits) (N.ones ebits) =? N.ones ebits)
  && negb (N.land x (N.ones mbits) =? 0).

Definition ieee_is_zero (ebits mbits : N) (x : N) : bool :=
  N.land x (N.ones (ebits + mbits)) =? 0.

Definition ieee_eq (ebits mbits : N) (a b : N) : bool :=
  negb (ieee_is_nan ebits mbits a) && negb (ieee_is_nan ebits mbits b)
  && ((a =? b) || (ieee_is_zero ebits mbits a && ieee_is_zero ebits mbits b)).

Definition double_eq : N -> N -> bool := ieee_eq 11 52.
Definition float_eq : N -> N -> bool := ieee_eq 8 23.

(** [std::find(first, last, value)] and [std::distance(first, it)]: the
    position of the first element equal to [value], [None] for [last]. *)
Fixpoint std_find {A : Type} (eq : A -> A -> bool) (l : list A) (value : A)
    : option nat :=
  match l with
  | [] => None
  | x :: l' =>
      if eq x value then Some O
      else match std_find eq l' value with
           | Some n => Some (S n)
           | None => None
           end
  end.

(** ** [class layer_builder_impl] *)
Module layer_builder_impl.

Record t : Type := mk {
  m_data : bytes;                      (* encoded layer metadata and features *)
  m_keys_table : string_table.t;
  m_values_table : string_table.t;
  m_string_values_table : string_table.t;
  m_double_values : list N;            (* std::vector<double> *)
  m_float_values : list N;             (* std::vector<float> *)
  m_int_values : list N;               (* std::vector<uint64_t> *)
  m_num_features : N;                  (* std::size_t *)
  m_version : N                        (* uint32_t *)
}.

(** [layer_builder_impl(name, version, extent)]; [version] and [extent]
    are [uint32_t] values. *)
Definition new (name : bytes) (version extent : N) : t :=
  {| m_data := pbf.add_varint pbf_layer.version version
                 ++ pbf.add_bytes pbf_layer.name name
                 ++ pbf.add_varint pbf_layer.extent extent;
     m_keys_table := string_table.new pbf_layer.keys;
     m_values_table := string_table.new pbf_layer.values;
     m_string_values_table := string_table.new pbf_layer.string_values;
     m_double_values := [];
     m_float_values := [];
     m_int_values := [];
     m_num_features := 0;
     m_version := version |}.

Definition version (l : t) : N := m_version l.

Definition set_data (d : bytes) (l : t) : t :=
  mk d (m_keys_table l) (m_values_table l) (m_string_values_table l)
     (m_double_values l) (m_float_values l) (m_int_values l)
     (m_num_features l) (m_version l).

Definition set_keys_table (tbl : string_table.t) (l : t) : t :=
  mk (m_data l) tbl (m_values_table l) (m_string_values_table l)
     (m_double_values l) (m_float_values l) (m_int_values l)
     (m_num_features l) (m_version l).

Definition set_values_table (tbl : string_table.t) (l : t) : t :=
  mk (m_data l) (m_keys_table l) tbl (m_string_values_table l)
     (m_double_values l) (m_float_values l) (m_int_values l)
     (m_num_features l) (m_version l).

Definition set_string_values_table (tbl : string_table.t) (l : t) : t :=
  mk (m_data l) (m_keys_table l) (m_values_table l) tbl
     (m_double_values l) (m_float_values l) (m_int_values l)
     (m_num_features l) (m_version l).

Definition set_double_values (v : list N) (l : t) : t :=
  mk (m_data l) (m_keys_table l) (m_values_table l) (m_string_values_table l)
     v (m_float_values l) (m_int_values l) (m_num_features l) (m_version l).

Definition set_float_values (v : list N) (l : t) : t :=
  mk (m_data l) (m_keys_table l) (m_values_table l) (m_string_values_table l)
     (m_double_values l) v (m_int_values l) (m_num_features l) (m_version l).

Definition set_int_values (v : list N) (l : t) : t :=
  mk (m_data l) (m_keys_table l) (m_values_table l) (m_string_values_table l)
     (m_double_values l) (m_float_values l) v (m_num_features l) (m_version l).

Definition set_num_features (n : N) (l : t) : t :=
  mk (m_data l) (m_keys_table l) (m_values_table l) (m_string_values_table l)
     (m_double_values l) (m_float_values l) (m_int_values l) n (m_version l).

Definition add_key_without_dup_check (text : bytes) (l : t) : index_value.t * t :=
  let '(i, tbl) := string_table.add_without_dup_check text (m_keys_table l) in
  (i, set_keys_table tbl l).

Definition add_key (text : bytes) (l : t) : index_value.t * t :=
  let '(i, tbl) := string_table.add text (m_keys_table l) in
  (i, set_keys_table tbl l).

(** [value] is [value.data()], the encoded property value message, of a
    [property_value] or an [encoded_property_value] alike. *)
Definition add_value_without_dup_check (value : bytes) (l : t)
    : outcome (index_value.t * t) :=
  _ <-- vtzero_assert (m_version l <? 3) ;;
  let '(i, tbl) := string_table.add_without_dup_check value (m_values_table l) in
  returns (i, set_values_table tbl l).

Definition add_value (value : bytes) (l : t) : outcome (index_value.t * t) :=
  _ <-- vtzero_assert (m_version l <? 3) ;;
  let '(i, tbl) := string_table.add value (m_values_table l) in
  returns (i, set_values_table tbl l).

Definition add_string_value_without_dup_check (value : bytes) (l : t)
    : outcome (index_value.t * t) :=
  _ <-- vtzero_assert (m_version l =? 3) ;;
  let '(i, tbl) :=
    string_table.add_without_dup_check value (m_string_values_table l) in
  returns (i, set_string_values_table tbl l).

Definition add_string_value (value : bytes) (l : t)
    : outcome (index_value.t * t) :=
  _ <-- vtzero_assert (m_version l =? 3) ;;
  let '(i, tbl) := string_table.add value (m_string_values_table l) in
  returns (i, set_string_values_table tbl l).

(** [index_value{static_cast<uint32_t>(v.size() - 1)}] after [push_back]. *)
Definition last_index (v : list N) : index_value.t :=
  to_uint32 (N.of_nat (length v) - 1).

Definition add_double_value_without_dup_check (value : N) (l : t)
    : outcome (index_value.t * t) :=
  _ <-- vtzero_assert (m_version l =? 3) ;;
  let v := m_double_values l ++ [value] in
  returns (last_index v, set_double_values v l).

Definition add_double_value (value : N) (l : t) : outcome (index_value.t * t) :=
  _ <-- vtzero_assert (m_version l =? 3) ;;
  match std_find double_eq (m_double_values l) value with
  | Some n => returns (to_uint32 (N.of_nat n), l)
  | None => add_double_value_without_dup_check value l
  end.

Definition add_float_value_without_dup_check (value : N) (l : t)
    : outcome (index_value.t * t) :=
  _ <-- vtzero_assert (m_version l =? 3) ;;
  let v := m_float_values l ++ [value] in
  returns (last_index v, set_float_values v l).

Definition add_float_value (value : N) (l : t) : outcome (index_value.t * t) :=
  _ <-- vtzero_assert (m_version l =? 3) ;;
  match std_find float_eq (m_float_values l) value with
  | Some n => returns (to_uint32 (N.of_nat n), l)
  | None => add_float_value_without_dup_check value l
  end.

Definition add_int_value_without_dup_check (value : N) (l : t)
    : outcome (index_value.t * t) :=
  _ <-- vtzero_assert (m_version l =? 3) ;;
  let v := m_int_values l ++ [value] in
  returns (last_index v, set_int_values v l).

Definition add_int_value (value : N) (l : t) : outcome (index_value.t * t) :=
  _ <-- vtzero_assert (m_version l =? 3) ;;
  match std_find N.eqb (m_int_values l) value with
  | Some n => returns (to_uint32 (N.of_nat n), l)
  | None => add_int_value_without_dup_check value l
  end.

(** [message()]: the builder that appends to [m_data]. *)
Definition message_append (d : bytes) (l : t) : t :=
  set_data (m_data l ++ d) l.

Definition increment_feature_count (l : t) : t :=
  set_num_features (to_size_t (m_num_features l + 1)) l.

Definition estimated_size (l : t) : N :=
  to_size_t (N.of_nat (length (m_data l))
             + N.of_nat (length (string_table.data (m_keys_table l)))
             + N.of_nat (length (string_table.data (m_values_table l)))
             + N.of_nat (length (m_double_values l))
             + N.of_nat (length (m_float_values l))
             + N.of_nat (length (m_int_values l))
             + 14).

(** [build]: appends the layer to the tile message under construction. *)
Definition build (l : t) (pbf_tile_builder : bytes) : bytes :=
  if 0 <? m_num_features l then
    if m_version l <? 3 then
      pbf_tile_builder ++
        pbf.add_bytes_vectored pbf_tile.layers
          [m_data l;
           string_table.data (m_keys_table l);
           string_table.data (m_values_table l)]
    else
      let values_tables_data : bytes := [] in
      let values_tables_data :=
        if decide (m_double_values l = []) then values_tables_data
        else values_tables_data
               ++ pbf.add_packed_fixed 8 pbf_layer.double_values (m_double_values l) in
      let values_tables_data :=
        if decide (m_float_values l = []) then values_tables_data
        else values_tables_data
               ++ pbf.add_packed_fixed 4 pbf_layer.float_values (m_float_values l) in
      let values_tables_data :=
        if decide (m_int_values l = []) then values_tables_data
        else values_tables_data
               ++ pbf.add_packed_varint pbf_layer.int_values (m_int_values l) in
      pbf_tile_builder ++
        pbf.add_bytes_vectored pbf_tile.layers
          [m_data l;
           string_table.data (m_keys_table l);
           string_table.data (m_string_values_table l);
           values_tables_data]
  else pbf_tile_builder.

End layer_builder_impl.

(** ** [class layer_builder_existing] *)
Module layer_builder_existing.

Record t : Type := mk { m_data : bytes }.

Definition estimated_size (l : t) : N :=
  to_size_t (N.of_nat (length (m_data l)) + 8).

Definition build (l : t) (pbf_tile_builder : bytes) : bytes :=
  pbf_tile_builder ++ pbf.add_bytes pbf_tile.layers (m_data l).

End layer_builder_existing.

(** ** The tile builder

    Modelled from the spec: [tile_builder] (builder.hpp), section 4.1: the
    list of registered layers, fresh or existing (the two classes derived
    from [layer_builder_base]), serialized in insertion order by calling
    each layer's [build]. *)
Module tile_builder.

Inductive layer_builder_base : Type :=
| fresh (l : layer_builder_impl.t)
| existing (l : layer_builder_existing.t).

(** The virtual call [layer->build(pbf_tile_builder)]. *)
Definition build (l : layer_builder_base) (pbf_tile_builder : bytes) : bytes :=
  match l with
  | fresh i => layer_builder_impl.build i pbf_tile_builder
  | existing e => layer_builder_existing.build e pbf_tile_builder
  end.

Definition t : Type := list layer_builder_base.

Definition add_layer (name : bytes) (version extent : N) (tb : t) : t :=
  tb ++ [fresh (layer_builder_impl.new name version extent)].

Definition add_existing_layer (data : bytes) (tb : t) : t :=
  tb ++ [existing (layer_builder_existing.mk data)].

Definition serialize (tb : t) : bytes :=
  fold_left (fun data l => build l data) tb [].

End tile_builder.

(** ** Reading a tile back

    Modelled from the spec: the decoder ([vector_tile], [layer],
    [feature]) is an external collaborator; a tile is read as its
    [layers] fields, a layer as its [features] fields, a feature as its
    fields of section 6. *)
Module pbf_feature.
Definition id : N := 1.
Definition tags : N := 2.
Definition type : N := 3.
Definition geometry : N := 4.
(** The spec leaves the tag of [string_id] to the v3 draft. *)
Definition string_id : N := 10.
End pbf_feature.

Module vector_tile.

(** [for (auto layer : tile) ... layer.data()] *)
Definition layers (tile : bytes) : option (list bytes) :=
  pbf.views pbf_tile.layers tile.

(** A valid tile: one the decoder reads to its end, without an exception,
    into its layers.  The reader takes a varint of any length for a key or
    a length, and passes over fields other than [layers]. *)
Definition valid (tile : bytes) : Prop :=
  exists ls : list bytes, layers tile = Some ls.

(** A canonical tile: nothing but [layers] records, each with its key and
    its length as the writer emits them, in the fewest bytes.  Every tile
    the tile builder serializes from existing layers is canonical. *)
Definition canonical (tile : bytes) : Prop :=
  exists ls : list bytes, tile = concat (map (pbf.add_bytes pbf_tile.layers) ls).

Record feature : Type := mk_feature {
  integer_id : option N;
  string_id : option bytes;
  geometry_type : option N;
  geometry : list N;
  properties : list (bytes * bytes)
}.

(** The first field of a packed kind, or no value at all. *)
Definition first_packed (fields : list bytes) : option (list N) :=
  match fields with
  | [] => Some []
  | g :: _ => pbf.packed_varints g
  end.

(** The tags of a feature are pairs of an index into the keys and an index
    into the values of its layer; an index out of range, or a key index
    without a value index, is a format error. *)
Fixpoint read_tags (keys values : list bytes) (tags : list N)
    : option (list (bytes * bytes)) :=
  match tags with
  | [] => Some []
  | [_] => None
  | k :: v :: tags' =>
      match keys !! N.to_nat k, values !! N.to_nat v, read_tags keys values tags' with
      | Some key, Some value, Some ps => Some ((key, value) :: ps)
      | _, _, _ => None
      end
  end.

Definition read_feature (keys values : list bytes) (data : bytes) : option feature :=
  match pbf.views pbf_feature.string_id data, pbf.views pbf_feature.geometry data,
        pbf.views pbf_feature.tags data with
  | Some sids, Some geoms, Some tagss =>
      match first_packed geoms, first_packed tagss with
      | Some geom, Some tags =>
          match read_tags keys values tags with
          | Some ps =>
              Some (mk_feature (pbf.find_varint pbf_feature.id data) (head sids)
                               (pbf.find_varint pbf_feature.type data) geom ps)
          | None => None
          end
      | _, _ => None
      end
  | _, _, _ => None
  end.

Fixpoint read_all {A B : Type} (f : A -> option B) (l : list A) : option (list B) :=
  match l with
  | [] => Some []
  | x :: l' =>
      match f x, read_all f l' with
      | Some y, Some ys => Some (y :: ys)
      | _, _ => None
      end
  end.

(** The features of a layer, in the order of the layer message. *)
Definition layer_features (layer : bytes) : option (list feature) :=
  match pbf.views pbf_layer.keys layer, pbf.views pbf_layer.values layer,
        pbf.views pbf_layer.features layer with
  | Some keys, Some values, Some fs => read_all (read_feature keys values) fs
  | _, _, _ => None
  end.

(** The features of all layers of a tile. *)
Definition features (tile : bytes) : option (list feature) :=
  match layers tile with
  | Some ls =>
      match read_all layer_features ls with
      | Some fss => Some (concat fss)
      | None => None
      end
  | None => None
  end.

End vector_tile.

(** ** The feature builder (point features)

    Modelled from the spec: [feature_builder] (builder.hpp,
    feature_builder_impl.hpp), section 4.4: the state machine
    [INIT -> ID_SET? -> GEOM_SET -> ATTRS_SET? -> DONE], writing into the
    parent layer's buffer, with the buffer length and the feature count
    captured at construction.  The bytes written since construction become
    one [features] record of the layer at commit, and are cut off at
    rollback.  Properties are written as tags (key index, value index),
    the path of layers of version below 3. *)
Module feature_builder.

Inductive state : Type := INIT | ID_SET | GEOM_SET | ATTRS_SET | DONE.

#[global] Instance state_eq_decision : EqDecision state.
Proof. solve_decision. Defined.

Record t : Type := mk {
  m_state : state;
  m_mark : nat;          (* length of the layer buffer at construction *)
  m_count : N;           (* feature count at construction *)
  m_tags : list N        (* the tags collected so far *)
}.

Definition new (layer : layer_builder_impl.t) : t :=
  mk INIT (length (layer_builder_impl.m_data layer))
     (layer_builder_impl.m_num_features layer) [].

Definition POINT : N := 1.
Definition MoveTo : N := 1.

Definition command_integer (id count : N) : N :=
  to_uint32 (N.lor (N.land id 0x7) (N.shiftl count 3)).

(** Zig-zag encoding of a 32-bit signed integer: [(n << 1) ^ (n >> 31)]. *)
Definition encode_zigzag32 (n : Z) : N :=
  Z.to_N (Z.land (Z.lxor (Z.shiftl n 1) (Z.shiftr n 31)) 0xffffffff).

Definition set_integer_id (id : N) (fb : t) (layer : layer_builder_impl.t)
    : outcome (t * layer_builder_impl.t) :=
  _ <-- vtzero_assert (bool_decide (m_state fb = INIT)) ;;
  returns (mk ID_SET (m_mark fb) (m_count fb) (m_tags fb),
           layer_builder_impl.message_append
             (pbf.add_varint pbf_feature.id id) layer).

Definition set_string_id (id : bytes) (fb : t) (layer : layer_builder_impl.t)
    : outcome (t * layer_builder_impl.t) :=
  _ <-- vtzero_assert (bool_decide (m_state fb = INIT)) ;;
  _ <-- vtzero_assert (layer_builder_impl.version layer =? 3) ;;
  returns (mk ID_SET (m_mark fb) (m_count fb) (m_tags fb),
           layer_builder_impl.message_append
             (pbf.add_bytes pbf_feature.string_id id) layer).

Definition add_point (x y : Z) (fb : t) (layer : layer_builder_impl.t)
    : outcome (t * layer_builder_impl.t) :=
  _ <-- vtzero_assert (bool_decide (m_state fb = INIT)
                       || bool_decide (m_state fb = ID_SET)) ;;
  returns (mk GEOM_SET (m_mark fb) (m_count fb) (m_tags fb),
           layer_builder_impl.message_append
             (pbf.add_varint pbf_feature.type POINT
              ++ pbf.add_packed_varint pbf_feature.geometry
                   [command_integer MoveTo 1; encode_zigzag32 x; encode_zigzag32 y])
             layer).

Definition add_property (key value : bytes) (fb : t) (layer : layer_builder_impl.t)
    : outcome (t * layer_builder_impl.t) :=
  _ <-- vtzero_assert (bool_decide (m_state fb = GEOM_SET)
                       || bool_decide (m_state fb = ATTRS_SET)) ;;
  let '(ki, layer) := layer_builder_impl.add_key key layer in
  p <-- layer_builder_impl.add_value value layer ;;
  let '(vi, layer) := p in
  returns (mk ATTRS_SET (m_mark fb) (m_count fb) (m_tags fb ++ [ki; vi]), layer).

Definition commit (fb : t) (layer : layer_builder_impl.t)
    : outcome (t * layer_builder_impl.t) :=
  match m_state fb with
  | DONE => returns (fb, layer)
  | GEOM_SET | ATTRS_SET =>
      let written := drop (m_mark fb) (layer_builder_impl.m_data layer) in
      let trailing := pbf.add_packed_varint pbf_feature.tags (m_tags fb) in
      let data := take (m_mark fb) (layer_builder_impl.m_data layer)
                    ++ pbf.add_bytes pbf_layer.features (written ++ trailing) in
      returns (mk DONE (m_mark fb) (m_count fb) (m_tags fb),
               layer_builder_impl.increment_feature_count
                 (layer_builder_impl.set_data data layer))
  | INIT | ID_SET => assert_error
  end.

Definition rollback (fb : t) (layer : layer_builder_impl.t)
    : t * layer_builder_impl.t :=
  match m_state fb with
  | DONE => (fb, layer)
  | _ =>
      (mk DONE (m_mark fb) (m_count fb) (m_tags fb),
       layer_builder_impl.set_data
         (take (m_mark fb) (layer_builder_impl.m_data layer)) layer)
  end.

(** The calls that fill a feature in, and the three ways a builder ends:
    [commit()], [rollback()], or its destructor, which rolls back. *)
Inductive call : Type :=
| call_set_integer_id (id : N)
| call_set_string_id (id : bytes)
| call_add_point (x y : Z)
| call_add_property (key value : bytes).

Inductive ending : Type := end_commit | end_rollback | end_destroy.

#[global] Instance ending_eq_decision : EqDecision ending.
Proof. solve_decision. Defined.

Definition apply_call (c : call) (fb : t) (layer : layer_builder_impl.t)
    : outcome (t * layer_builder_impl.t) :=
  match c with
  | call_set_integer_id id => set_integer_id id fb layer
  | call_set_string_id id => set_string_id id fb layer
  | call_add_point x y => add_point x y fb layer
  | call_add_property k v => add_property k v fb layer
  end.

Fixpoint apply_calls (cs : list call) (fb : t) (layer : layer_builder_impl.t)
    : outcome (t * layer_builder_impl.t) :=
  match cs with
  | [] => returns (fb, layer)
  | c :: cs' =>
      p <-- apply_call c fb layer ;;
      apply_calls cs' (fst p) (snd p)
  end.

Definition finish (e : ending) (fb : t) (layer : layer_builder_impl.t)
    : outcome (t * layer_builder_impl.t) :=
  match e with
  | end_commit => commit fb layer
  | end_rollback | end_destroy => returns (rollback fb layer)
  end.

(** One feature builder from construction to its end. *)
Definition run (b : list call * ending) (layer : layer_builder_impl.t)
    : outcome layer_builder_impl.t :=
  p <-- apply_calls (fst b) (new layer) layer ;;
  q <-- finish (snd b) (fst p) (snd p) ;;
  returns (snd q).

Fixpoint run_all (bs : list (list call * ending)) (layer : layer_builder_impl.t)
    : outcome layer_builder_impl.t :=
  match bs with
  | [] => returns layer
  | b :: bs' => l <-- run b layer ;; run_all bs' l
  end.

(** What a reader is to find for a committed feature, from the calls the
    caller made. *)
Fixpoint described (cs : list call) : vector_tile.feature :=
  match cs with
  | [] => vector_tile.mk_feature None None None [] []
  | c :: cs' =>
      let f := described cs' in
      match c with
      | call_set_integer_id id =>
          vector_tile.mk_feature (Some id) (vector_tile.string_id f)
            (vector_tile.geometry_type f) (vector_tile.geometry f)
            (vector_tile.properties f)
      | call_set_string_id id =>
          vector_tile.mk_feature (vector_tile.integer_id f) (Some id)
            (vector_tile.geometry_type f) (vector_tile.geometry f)
            (vector_tile.properties f)
      | call_add_point x y =>
          vector_tile.mk_feature (vector_tile.integer_id f) (vector_tile.string_id f)
            (Some POINT)
            [command_integer MoveTo 1; encode_zigzag32 x; encode_zigzag32 y]
            (vector_tile.properties f)
      | call_add_property key value =>
          vector_tile.mk_feature (vector_tile.integer_id f) (vector_tile.string_id f)
            (vector_tile.geometry_type f) (vector_tile.geometry f)
            ((key, value) :: vector_tile.properties f)
      end
  end.

Definition committed (bs : list (list call * ending)) : list (list call) :=
  map fst (filter (fun b => snd b = end_commit) bs).

End feature_builder.

(** ** The reference table of the interning threshold property

    Follows the spec's words (section 8, property 4): an interning table
    in which the map from string to index is used from the start. *)
Module hashed_table.

Record t : Type := mk {
  data : bytes;
  index : gmap bytes index_value.t;
  num : N;
  pbf_type : N
}.

Definition new (pbf_type : N) : t := mk [] ∅ 0 pbf_type.

Definition add (text : bytes) (tbl : t) : index_value.t * t :=
  match index tbl !! text with
  | Some i => (i, tbl)
  | None =>
      (num tbl,
       mk (data tbl ++ pbf.add_bytes (pbf_type tbl) text)
          (<[text := num tbl]> (index tbl))
          (to_uint32 (num tbl + 1))
          (pbf_type tbl))
  end.

End hashed_table.

(** A sequence of [add] calls on the reference table, with the indices they
    return. *)
Fixpoint hashed_add_all (texts : list bytes) (tbl : hashed_table.t)
    : list index_value.t * hashed_table.t :=
  match texts with
  | [] => ([], tbl)
  | text :: texts' =>
      let '(i, tbl) := hashed_table.add text tbl in
      let '(ids, tbl) := hashed_add_all texts' tbl in
      (i :: ids, tbl)
  end.

(** ** Vocabulary of the statements *)

(** The bytes of a table whose entries are [es]: one length-delimited
    field per entry. *)
Definition table_bytes (tag : N) (es : list bytes) : bytes :=
  concat (map (pbf.add_bytes tag) es).

(** The position of the first entry equal to [text], counted from [index]
    as the loop of [find_in_table] counts. *)
Fixpoint scan (text : bytes) (es : list bytes) (index : N) : index_value.t :=
  match es with
  | [] => index_value.invalid
  | e :: es' =>
      if decide (e = text) then index
      else scan text es' (to_uint32 (index + 1))
  end.

(** The map [populate_index] builds from the entries [es]. *)
Fixpoint populate_list (es : list bytes) (index : N)
    (map : gmap bytes index_value.t) : gmap bytes index_value.t :=
  match es with
  | [] => map
  | s :: es' => populate_list es' (to_uint32 (index + 1)) (<[s := index]> map)
  end.

(** The state of a string table that holds the entries [es]: what every
    sequence of [add], [add_without_dup_check] and [find] maintains as long
    as the number of entries stays an index value. *)
Record table_inv (tbl : string_table.t) (es : list bytes) : Prop := {
  inv_data : string_table.m_data tbl = table_bytes (string_table.m_pbf_type tbl) es;
  inv_num : string_table.m_num tbl = N.of_nat (length es);
  inv_room : N.of_nat (length es) <= index_value.invalid;
  inv_index : forall s i, string_table.m_index tbl !! s = Some i ->
                es !! N.to_nat i = Some s;
  inv_flat : string_table.m_num tbl < string_table.max_entries_flat ->
               string_table.m_index tbl = ∅
}.

(** Calls on a string table, run in sequence from left to right, with the
    indices they return. *)
Inductive table_call : Type :=
| call_add (text : bytes)
| call_add_without_dup_check (text : bytes).

Definition call_text (c : table_call) : bytes :=
  match c with
  | call_add text => text
  | call_add_without_dup_check text => text
  end.

Definition table_apply (c : table_call) (tbl : string_table.t)
    : index_value.t * string_table.t :=
  match c with
  | call_add text => string_table.add text tbl
  | call_add_without_dup_check text => string_table.add_without_dup_check text tbl
  end.

Fixpoint table_run (cs : list table_call) (tbl : string_table.t)
    : list index_value.t * string_table.t :=
  match cs with
  | [] => ([], tbl)
  | c :: cs' =>
      let '(i, tbl) := table_apply c tbl in
      let '(ids, tbl) := table_run cs' tbl in
      (i :: ids, tbl)
  end.

(** Indices handed out consecutively from [n] on: each one is either an
    index already in use (below the count so far) or the next free one. *)
Fixpoint consecutive (n : N) (ids : list index_value.t) : Prop :=
  match ids with
  | [] => True
  | i :: ids' =>
      (i < n /\ consecutive n ids') \/ (i = n /\ consecutive (n + 1) ids')
  end.

(** The three numeric tables of a v3 layer. *)
Inductive numeric_table : Type := double_table | float_table | int_table.

Definition numeric_values (k : numeric_table) (l : layer_builder_impl.t) : list N :=
  match k with
  | double_table => layer_builder_impl.m_double_values l
  | float_table => layer_builder_impl.m_float_values l
  | int_table => layer_builder_impl.m_int_values l
  end.

(** The equality of the element type: [operator==] of [double], [float]
    and [uint64_t]. *)
Definition numeric_eq (k : numeric_table) : N -> N -> bool :=
  match k with
  | double_table => double_eq
  | float_table => float_eq
  | int_table => N.eqb
  end.

Inductive numeric_call : Type :=
| call_add_value (value : N)
| call_add_value_without_dup_check (value : N).

Definition numeric_call_value (c : numeric_call) : N :=
  match c with
  | call_add_value v => v
  | call_add_value_without_dup_check v => v
  end.

Definition numeric_apply (k : numeric_table) (c : numeric_call)
    (l : layer_builder_impl.t) : outcome (index_value.t * layer_builder_impl.t) :=
  match k, c with
  | double_table, call_add_value v => layer_builder_impl.add_double_value v l
  | double_table, call_add_value_without_dup_check v =>
      layer_builder_impl.add_double_value_without_dup_check v l
  | float_table, call_add_value v => layer_builder_impl.add_float_value v l
  | float_table, call_add_value_without_dup_check v =>
      layer_builder_impl.add_float_value_without_dup_check v l
  | int_table, call_add_value v => layer_builder_impl.add_int_value v l
  | int_table, call_add_value_without_dup_check v =>
      layer_builder_impl.add_int_value_without_dup_check v l
  end.

Fixpoint numeric_run (k : numeric_table) (cs : list numeric_call)
    (l : layer_builder_impl.t) : outcome (list index_value.t * layer_builder_impl.t) :=
  match cs with
  | [] => returns ([], l)
  | c :: cs' =>
      p <-- numeric_apply k c l ;;
      q <-- numeric_run k cs' (snd p) ;;
      returns (fst p :: fst q, snd q)
  end.

(** A table in a state that calls maintain, with room for [room] more
    entries before the count stops being an index value. *)
Definition table_ok (tbl : string_table.t) (room : N) : Prop :=
  table_inv tbl (string_table.entries tbl)
  /\ N.of_nat (length (string_table.entries tbl)) + room <= index_value.invalid.

(** Modelled from the spec: [encoded_property_value]
    (encoded_property_value.hpp) holds the encoded Value message of
    section 6, whose fields are numbered in the order listed there. *)
Module encoded_property_value.
Definition string_value : N := 1.
Definition float_value : N := 2.
Definition int_value : N := 4.

(** [encoded_property_value{"text"}] *)
Definition of_string (text : bytes) : bytes := pbf.add_bytes string_value text.


(** [encoded_property_value{int}]: the 64-bit two's complement as a varint. *)
Definition of_int (value : Z) : bytes :=
  pbf.add_varint int_value (Z.to_N (value mod 2 ^ 64)).
End encoded_property_value.

(** ** Sample data for the worked examples *)

(** [n] different one-byte texts. *)
Definition sample_texts (n : nat) : list bytes :=
  map (fun i => [byte_of_N (N.of_nat i)]) (seq 0 n).

(** The keys table after [add] of [n] different texts. *)
Definition sample_table (n : nat) : string_table.t :=
  snd (table_run (map call_add (sample_texts n)) (string_table.new pbf_layer.keys)).

Definition sample_text : bytes := [x6b; x65; x79].

(** Bit patterns of some doubles: a quiet NaN, [+0.0] and [-0.0], [19.0]. *)
Definition double_nan : N := 0x7ff8000000000000.
Definition double_zero : N := 0.
Definition double_minus_zero : N := 0x8000000000000000.
Definition double_19 : N := 0x4033000000000000.

(** The indices a run returned, if it returned. *)
Definition returned_indices {A : Type} (r : outcome (list index_value.t * A))
    : option (list index_value.t) :=
  match r with
  | returns (ids, _) => Some ids
  | assert_error => None
  end.

(** The values on which [operator==] is not equality of bit patterns. *)
Definition numeric_is_nan (k : numeric_table) (x : N) : bool :=
  match k with
  | double_table => ieee_is_nan 11 52 x
  | float_table => ieee_is_nan 8 23 x
  | int_table => false
  end.

Definition numeric_is_zero (k : numeric_table) (x : N) : bool :=
  match k with
  | double_table => ieee_is_zero 11 52 x
  | float_table => ieee_is_zero 8 23 x
  | int_table => false
  end.

(** The relation between the source's table and the reference table after
    the same calls: same bytes, same count, the reference map is the map
    of the entries, and the source's map is either not yet built or that
    same map. *)
Record threshold_sim (tbl : string_table.t) (h : hashed_table.t)
    (es : list bytes) : Prop := {
  sim_inv : table_inv tbl es;
  sim_nodup : NoDup es;
  sim_data : hashed_table.data h = string_table.m_data tbl;
  sim_num : hashed_table.num h = string_table.m_num tbl;
  sim_type : hashed_table.pbf_type h = string_table.m_pbf_type tbl;
  sim_index : hashed_table.index h = populate_list es 0 ∅;
  sim_lazy : string_table.m_index tbl = ∅
             \/ string_table.m_index tbl = populate_list es 0 ∅
}.

(** A layer on which one feature was started, filled in, and rolled back. *)
Definition sample_rolled_back_layer : layer_builder_impl.t :=
  match feature_builder.run
          ([feature_builder.call_set_integer_id 2;
            feature_builder.call_add_point 20 20;
            feature_builder.call_add_property sample_text
              (encoded_property_value.of_string sample_text)],
           feature_builder.end_rollback)
          (layer_builder_impl.new sample_text 2 4096) with
  | returns l => l
  | assert_error => layer_builder_impl.new sample_text 2 4096
  end.

(** The builds of the test case "Rollback feature": feature 1 committed,
    features 2 to 7 rolled back (two of them by the destructor), feature 8
    committed. *)
Definition sample_builds : list (list feature_builder.call * feature_builder.ending) :=
  [ ([feature_builder.call_set_integer_id 1; feature_builder.call_add_point 10 10],
     feature_builder.end_commit);
    ([feature_builder.call_set_integer_id 2], feature_builder.end_rollback);
    ([feature_builder.call_set_integer_id 3], feature_builder.end_rollback);
    ([feature_builder.call_set_integer_id 4; feature_builder.call_add_point 20 20],
     feature_builder.end_rollback);
    ([feature_builder.call_set_integer_id 5; feature_builder.call_add_point 20 20;
      feature_builder.call_add_property [x66; x6f; x6f]
        (encoded_property_value.of_string [x62; x61; x72])],
     feature_builder.end_rollback);
    ([feature_builder.call_set_integer_id 6; feature_builder.call_add_point 10 10],
     feature_builder.end_destroy);
    ([feature_builder.call_set_integer_id 7; feature_builder.call_add_point 10 10;
      feature_builder.call_add_property [x66; x6f; x6f]
        (encoded_property_value.of_string [x62; x61; x72])],
     feature_builder.end_destroy);
    ([feature_builder.call_set_integer_id 8; feature_builder.call_add_point 30 30],
     feature_builder.end_commit) ].

(** The same builds, followed by a committed feature with two properties;
    the key of the first one is in the keys table already, left there by
    the builders that were rolled back. *)
Definition sample_builds_with_properties
    : list (list feature_builder.call * feature_builder.ending) :=
  sample_builds
  ++ [ ([feature_builder.call_set_integer_id 9; feature_builder.call_add_point 40 40;
         feature_builder.call_add_property [x66; x6f; x6f]
           (encoded_property_value.of_string [x62; x61; x72]);
         feature_builder.call_add_property sample_text
           (encoded_property_value.of_string [x62; x61; x72])],
        feature_builder.end_commit) ].

(** The bytes a call of the feature builder writes into the layer buffer,
    and the trailing field [commit] adds for the collected tags. *)
Definition call_bytes (c : feature_builder.call) : bytes :=
  match c with
  | feature_builder.call_set_integer_id id => pbf.add_varint pbf_feature.id id
  | feature_builder.call_set_string_id id => pbf.add_bytes pbf_feature.string_id id
  | feature_builder.call_add_point x y =>
      pbf.add_varint pbf_feature.type feature_builder.POINT
      ++ pbf.add_packed_varint pbf_feature.geometry
           [feature_builder.command_integer feature_builder.MoveTo 1;
            feature_builder.encode_zigzag32 x; feature_builder.encode_zigzag32 y]
  | feature_builder.call_add_property _ _ => []
  end.

Definition tags_bytes (tags : list N) : bytes :=
  pbf.add_packed_varint pbf_feature.tags tags.

(** The state the machine of section 4.4 reaches by a call, [None] where
    the call is a programming error. *)
Definition next_state (s : feature_builder.state) (c : feature_builder.call)
    : option feature_builder.state :=
  match c, s with
  | feature_builder.call_set_integer_id _, feature_builder.INIT => Some feature_builder.ID_SET
  | feature_builder.call_set_string_id _, feature_builder.INIT => Some feature_builder.ID_SET
  | feature_builder.call_add_point _ _, (feature_builder.INIT | feature_builder.ID_SET) =>
      Some feature_builder.GEOM_SET
  | feature_builder.call_add_property _ _,
    (feature_builder.GEOM_SET | feature_builder.ATTRS_SET) => Some feature_builder.ATTRS_SET
  | _, _ => None
  end.

(** A table whose bytes are a sequence of fields with its tag. *)
Definition table_wf (tbl : string_table.t) (tag : N) : Prop :=
  string_table.m_pbf_type tbl = tag
  /\ exists es, string_table.m_data tbl = table_bytes tag es.

(** The tables of a layer as the feature builders keep them: the string
    tables are well formed, and the numeric tables are unused. *)
Record tables_wf (l : layer_builder_impl.t) : Prop := {
  wf_keys : table_wf (layer_builder_impl.m_keys_table l) pbf_layer.keys;
  wf_values : table_wf (layer_builder_impl.m_values_table l) pbf_layer.values;
  wf_string_values :
    table_wf (layer_builder_impl.m_string_values_table l) pbf_layer.string_values;
  wf_double : layer_builder_impl.m_double_values l = [];
  wf_float : layer_builder_impl.m_float_values l = [];
  wf_int : layer_builder_impl.m_int_values l = []
}.

(** A layer between two feature builders: the buffer is the header
    followed by one [features] record per body in [bodies]. *)
Definition layer_wf (l : layer_builder_impl.t) (header : bytes) (bodies : list bytes)
    : Prop :=
  layer_builder_impl.m_data l = header ++ table_bytes pbf_layer.features bodies
  /\ tables_wf l.

(** The state the machine reaches by a sequence of calls. *)
Fixpoint run_state (s : feature_builder.state) (cs : list feature_builder.call)
    : option feature_builder.state :=
  match cs with
  | [] => Some s
  | c :: cs' =>
      match next_state s c with
      | Some s' => run_state s' cs'
      | None => None
      end
  end.

(** The header a layer is constructed with. *)
Definition layer_header (name : bytes) (version extent : N) : bytes :=
  pbf.add_varint pbf_layer.version version
  ++ pbf.add_bytes pbf_layer.name name
  ++ pbf.add_varint pbf_layer.extent extent.

(** The body of the [features] record of a committed builder whose calls
    were [cs], in a layer whose tables hold [keys] and [values]: the bytes
    of the calls, then the tags field, whose indices lead to the properties
    that were added. *)
Definition body_of (keys values : list bytes) (cs : list feature_builder.call)
    (body : bytes) : Prop :=
  exists tags,
    body = concat (map call_bytes cs) ++ tags_bytes tags
    /\ (run_state feature_builder.INIT cs = Some feature_builder.GEOM_SET
        \/ run_state feature_builder.INIT cs = Some feature_builder.ATTRS_SET)
    /\ vector_tile.read_tags keys values tags
       = Some (vector_tile.properties (feature_builder.described cs)).

(** What [find] does, by cases. *)
Inductive find_result (text : bytes) (tbl : string_table.t) (es : list bytes)
    (i : index_value.t) (tbl' : string_table.t) : Prop :=
| find_absent :
    string_table.m_num tbl < string_table.max_entries_flat ->
    text ∉ es -> i = index_value.invalid -> tbl' = tbl ->
    find_result text tbl es i tbl'
| find_found :
    index_value.valid i = true ->
    es !! N.to_nat i = Some text ->
    table_inv tbl' es ->
    string_table.m_data tbl' = string_table.m_data tbl ->
    string_table.m_pbf_type tbl' = string_table.m_pbf_type tbl ->
    (string_table.m_num tbl < string_table.max_entries_flat ->
       tbl' = tbl /\ text ∉ take (N.to_nat i) es) ->
    (string_table.max_entries_flat <= string_table.m_num tbl ->
       string_table.m_index tbl' !! text = Some i) ->
    find_result text tbl es i tbl'
| find_appended :
    string_table.max_entries_flat <= string_table.m_num tbl ->
    i = N.of_nat (length es) ->
    table_inv tbl' (es ++ [text]) ->
    string_table.m_pbf_type tbl' = string_table.m_pbf_type tbl ->
    string_table.m_index tbl' !! text = Some i ->
    (string_table.m_index tbl = ∅ -> text ∉ es) ->
    find_result text tbl es i tbl'.

(** What [add] does, by cases. *)
Inductive add_result (text : bytes) (tbl : string_table.t) (es : list bytes)
    (i : index_value.t) (tbl' : string_table.t) : Prop :=
| add_existing :
    index_value.valid i = true ->
    es !! N.to_nat i = Some text ->
    table_inv tbl' es ->
    string_table.m_pbf_type tbl' = string_table.m_pbf_type tbl ->
    add_result text tbl es i tbl'
| add_new :
    i = N.of_nat (length es) ->
    table_inv tbl' (es ++ [text]) ->
    string_table.m_pbf_type tbl' = string_table.m_pbf_type tbl ->
    add_result text tbl es i tbl'.

(** One call on a numeric table of a v3 layer, by cases. *)
Inductive numeric_result (k : numeric_table) (c : numeric_call)
    (l : layer_builder_impl.t) (i : index_value.t) (l' : layer_builder_impl.t) : Prop :=
| numeric_existing (n : nat) (u : N) :
    c = call_add_value (numeric_call_value c) ->
    std_find (numeric_eq k) (numeric_values k l) (numeric_call_value c) = Some n ->
    i = N.of_nat n ->
    numeric_values k l !! n = Some u ->
    numeric_eq k u (numeric_call_value c) = true ->
    l' = l ->
    numeric_result k c l i l'
| numeric_new :
    (c = call_add_value (numeric_call_value c) ->
       std_find (numeric_eq k) (numeric_values k l) (numeric_call_value c) = None) ->
    i = N.of_nat (length (numeric_values k l)) ->
    numeric_values k l' = numeric_values k l ++ [numeric_call_value c] ->
    layer_builder_impl.m_version l' = layer_builder_impl.m_version l ->
    numeric_result k c l i l'.

(** ** Vocabulary of the further properties *)

(** A table of [n] entries, all added without a check for duplicates,
    whose first and last entries are both [sample_text]. *)
Definition sample_table_with_duplicates (n : nat) : string_table.t :=
  snd (table_run
         (map call_add_without_dup_check ([sample_text] ++ sample_texts n ++ [sample_text]))
         (string_table.new pbf_layer.keys)).

(** No two entries of a numeric table compare equal. *)
Definition no_equal_entries (k : numeric_table) (v : list N) : Prop :=
  forall (i j : nat) (a b : N),
    (i < j)%nat -> v !! i = Some a -> v !! j = Some b -> numeric_eq k a b = false.

(** A layer of version 3 with one feature counted, two string values and
    the doubles 19.0, +0.0 and a NaN. *)
Definition sample_v3_layer : layer_builder_impl.t :=
  let l := layer_builder_impl.increment_feature_count
             (layer_builder_impl.new sample_text 3 4096) in
  let l := match layer_builder_impl.add_string_value sample_text l with
           | returns (_, l') => l'
           | assert_error => l
           end in
  let l := match layer_builder_impl.add_string_value [x62; x61; x72] l with
           | returns (_, l') => l'
           | assert_error => l
           end in
  match numeric_run double_table
          (map call_add_value [double_19; double_zero; double_nan]) l with
  | returns (_, l') => l'
  | assert_error => l
  end.

(** An existing layer of 300 bytes. *)
Definition sample_existing_layer : layer_builder_existing.t :=
  layer_builder_existing.mk (repeat x61 300).

(** ** Messages as sequences of fields

    What [pbf_builder] leaves in a buffer is a sequence of fields; the
    layer builder and the feature builders write varint fields and
    length-delimited fields. *)
Inductive pbf_field : Type :=
| varint_field (tag value : N)
| bytes_field (tag : N) (payload : bytes).

Definition field_bytes (f : pbf_field) : bytes :=
  match f with
  | varint_field tag value => pbf.add_varint tag value
  | bytes_field tag payload => pbf.add_bytes tag payload
  end.

Definition message_bytes (fs : list pbf_field) : bytes :=
  concat (map field_bytes fs).

(** The payloads of the length-delimited fields with a tag, in order. *)
Fixpoint payloads (tag : N) (fs : list pbf_field) : list bytes :=
  match fs with
  | [] => []
  | varint_field _ _ :: fs' => payloads tag fs'
  | bytes_field t payload :: fs' =>
      if t =? tag then payload :: payloads tag fs' else payloads tag fs'
  end.

(** The value of the first varint field with a tag. *)
Fixpoint first_varint (tag : N) (fs : list pbf_field) : option N :=
  match fs with
  | [] => None
  | varint_field t value :: fs' =>
      if t =? tag then Some value else first_varint tag fs'
  | bytes_field _ _ :: fs' => first_varint tag fs'
  end.

(** Modelled from the spec: the reader of packed fixed-width values
    ([pbf_message::get_packed_double / get_packed_float]), the inverse of
    [pbf.add_packed_fixed]: little-endian words of [width] bytes. *)
Fixpoint get_fixed (width : nat) (data : bytes) : option (N * bytes) :=
  match width with
  | O => Some (0, data)
  | S width' =>
      match data with
      | [] => None
      | b :: rest =>
          match get_fixed width' rest with
          | Some (v, rest') => Some (Byte.to_N b + 256 * v, rest')
          | None => None
          end
      end
  end.

Fixpoint packed_fixed_loop (fuel width : nat) (data : bytes) : option (list N) :=
  match fuel with
  | O => Some []
  | S fuel' =>
      match data with
      | [] => Some []
      | _ =>
          match get_fixed width data with
          | None => None
          | Some (v, rest) =>
              match packed_fixed_loop fuel' width rest with
              | Some vs => Some (v :: vs)
              | None => None
              end
          end
      end
  end.

Definition packed_fixed (width : nat) (data : bytes) : option (list N) :=
  packed_fixed_loop (length data) width data.

(** The tag of a numeric table in the layer message, the reader of its
    packed field, and the range of its element type. *)
Definition numeric_tag (k : numeric_table) : N :=
  match k with
  | double_table => pbf_layer.double_values
  | float_table => pbf_layer.float_values
  | int_table => pbf_layer.int_values
  end.

Definition numeric_unpack (k : numeric_table) (payload : bytes) : option (list N) :=
  match k with
  | double_table => packed_fixed 8 payload
  | float_table => packed_fixed 4 payload
  | int_table => pbf.packed_varints payload
  end.

Definition numeric_bound (k : numeric_table) : N :=
  match k with
  | double_table => 2 ^ 64
  | float_table => 2 ^ 32
  | int_table => 2 ^ 64
  end.

(** The packed field [build] writes for a numeric table: none for an
    empty table. *)
Definition numeric_payload (k : numeric_table) (values : list N) : bytes :=
  match k with
  | double_table => concat (map (pbf.fixed 8) values)
  | float_table => concat (map (pbf.fixed 4) values)
  | int_table => concat (map pbf.write_varint values)
  end.

Definition numeric_fields (k : numeric_table) (values : list N) : list pbf_field :=
  match values with
  | [] => []
  | _ => [bytes_field (numeric_tag k) (numeric_payload k values)]
  end.

(** The fields the constructor of a layer writes. *)
Definition header_fields (name : bytes) (version extent : N) : list pbf_field :=
  [varint_field pbf_layer.version version;
   bytes_field pbf_layer.name name;
   varint_field pbf_layer.extent extent].

(** A layer of version 2 with one feature counted, two keys and a value. *)
Definition sample_v2_layer : layer_builder_impl.t :=
  let l := layer_builder_impl.increment_feature_count
             (layer_builder_impl.new sample_text 2 4096) in
  let l := snd (layer_builder_impl.add_key sample_text l) in
  let l := snd (layer_builder_impl.add_key [x66; x6f; x6f] l) in
  match layer_builder_impl.add_value
          (encoded_property_value.of_string [x62; x61; x72]) l with
  | returns (_, l') => l'
  | assert_error => l
  end.

(** ** Tiles read and written again *)

(** Reading a tile into its layers [ls], adding each one's bytes, in
    order, with [add_existing_layer] to an empty tile builder, and
    serializing. *)
Definition reencode (ls : list bytes) : bytes :=
  tile_builder.serialize
    (fold_left (fun tb d => tile_builder.add_existing_layer d tb) ls []).

(** A layer of version 2 with one committed point feature, and its tile. *)
Definition sample_committed_layer : layer_builder_impl.t :=
  match feature_builder.run
          ([feature_builder.call_set_integer_id 1;
            feature_builder.call_add_point 10 10],
           feature_builder.end_commit)
          (layer_builder_impl.new sample_text 2 4096) with
  | returns l => l
  | assert_error => layer_builder_impl.new sample_text 2 4096
  end.

Definition sample_tile : bytes :=
  tile_builder.serialize [tile_builder.fresh sample_committed_layer].

(** The same tile with the length of its layer record in two bytes where
    one is enough: the low seven bits with the continuation bit, then a
    zero byte. *)
Definition sample_tile_long_length : bytes :=
  match sample_tile with
  | key :: len :: layer =>
      key :: byte_of_N (N.lor (Byte.to_N len) 0x80) :: x00 :: layer
  | _ => []
  end.

(** The same tile after a field that is no layer (tag 1, the varint 1). *)
Definition sample_tile_other_field : bytes :=
  pbf.add_varint 1 1 ++ sample_tile.

(** ** Lemmas on the wire format *)

Lemma byte_of_N_to_N (n : N) : n < 256 -> Byte.to_N (byte_of_N n) = n.
Proof.
  intros Hn. unfold byte_of_N.
  assert (Hl : N.land n 0xff = n).
  { change 0xff with (N.ones 8). rewrite N.land_ones. apply N.mod_small. exact Hn. }
  rewrite Hl. destruct (Byte.of_N n) as [b|] eqn:E.
  - apply Byte.to_of_N. exact E.
  - apply Byte.of_N_None_iff in E. lia.
Qed.

Lemma land_7f (v : N) : N.land v 0x7f = v mod 128.
Proof. change 0x7f with (N.ones 7). rewrite N.land_ones. reflexivity. Qed.

Lemma testbit_small (a k n : N) : a < 2 ^ n -> n <= k -> N.testbit a k = false.
Proof.
  intros Ha Hk. destruct (N.eq_dec a 0) as [->|Hz]; [apply N.bits_0|].
  apply N.bits_above_log2. apply N.lt_le_trans with n; trivial.
  apply N.log2_lt_pow2; lia.
Qed.

Lemma lor_80 (a : N) : a < 128 -> N.lor a 0x80 = a + 128.
Proof.
  intros Ha. rewrite <- N.lxor_lor, <- N.add_nocarry_lxor; trivial.
  all: apply N.bits_inj_0; intros k; rewrite N.land_spec;
    destruct (N.lt_ge_cases k 7) as [Hk|Hk].
  1,3: replace (N.testbit 0x80 k) with false; [apply andb_false_r|];
    symmetry; change 0x80 with (2 ^ 7); rewrite N.pow2_bits_false; trivial; lia.
  all: rewrite (testbit_small a k 7) by trivial; reflexivity.
Qed.

Lemma lor_shiftl_low (a v n : N) :
  a < 2 ^ n -> N.lor a (N.shiftl v n) = a + v * 2 ^ n.
Proof.
  intros Ha. rewrite N.shiftl_mul_pow2.
  rewrite <- N.lxor_lor, <- N.add_nocarry_lxor; trivial.
  all: apply N.bits_inj_0; intros k; rewrite N.land_spec;
    destruct (N.lt_ge_cases k n) as [Hk|Hk].
  1,3: rewrite N.mul_pow2_bits_low by trivial; apply andb_false_r.
  all: rewrite (testbit_small a k n) by trivial; reflexivity.
Qed.

Lemma lor_shiftl_7 (a v : N) : a < 128 -> N.lor a (N.shiftl v 7) = a + v * 128.
Proof. intros Ha. apply (lor_shiftl_low a v 7). exact Ha. Qed.

Lemma decode_write_varint_loop (fuel : nat) (v : N) (rest : bytes) :
  v < 2 ^ N.of_nat fuel ->
  pbf.decode_varint (pbf.write_varint_loop fuel v ++ rest) = Some (v, rest).
Proof.
  revert v. induction fuel as [|fuel IH]; intros v Hv.
  - simpl in *. assert (v = 0) as -> by lia. reflexivity.
  - cbn [pbf.write_varint_loop]. destruct (N.ltb_spec 0x7f v) as [Hbig|Hsmall].
    + cbn [app pbf.decode_varint].
      rewrite land_7f, N.shiftr_div_pow2. change (2 ^ 7) with 128.
      assert (Hdm : v = 128 * (v / 128) + v mod 128) by apply N.div_mod'.
      assert (Hm : v mod 128 < 128) by (apply N.mod_lt; discriminate).
      rewrite Nat2N.inj_succ, N.pow_succ_r' in Hv.
      revert Hdm Hm. generalize (v mod 128) (v / 128). intros m q Hdm Hm.
      rewrite lor_80 by exact Hm.
      rewrite byte_of_N_to_N by lia.
      destruct (N.ltb_spec (m + 128) 0x80) as [Hc|_]; [lia|].
      rewrite IH by lia.
      f_equal. f_equal. rewrite land_7f.
      replace ((m + 128) mod 128) with m.
      2:{ rewrite <- (N.mul_1_l 128) at 1. rewrite N.Div0.mod_add.
          symmetry. apply N.mod_small. exact Hm. }
      rewrite lor_shiftl_7 by exact Hm. lia.
    + cbn [app pbf.decode_varint].
      rewrite byte_of_N_to_N by lia.
      destruct (N.ltb_spec v 0x80) as [_|Hc]; [reflexivity|lia].
Qed.

Lemma decode_write_varint (v : N) (rest : bytes) :
  pbf.decode_varint (pbf.write_varint v ++ rest) = Some (v, rest).
Proof.
  apply decode_write_varint_loop. rewrite N2Nat.id.
  destruct v as [|p]; [reflexivity|]. apply N.size_gt.
Qed.

Lemma decode_varint_shorter (data rest : bytes) (v : N) :
  pbf.decode_varint data = Some (v, rest) -> (length rest < length data)%nat.
Proof.
  revert v rest. induction data as [|b data IH]; intros v rest; [discriminate|].
  cbn [pbf.decode_varint]. destruct (Byte.to_N b <? 0x80).
  - intros [= _ <-]. simpl. lia.
  - destruct (pbf.decode_varint data) as [[v' rest']|] eqn:E; [|discriminate].
    intros [= _ <-]. specialize (IH _ _ eq_refl). simpl. lia.
Qed.

Lemma key_tag (tag w : N) : w < 8 -> N.shiftr (pbf.key tag w) 3 = tag.
Proof.
  intros Hw. unfold pbf.key. rewrite N.lor_comm, (lor_shiftl_low w tag 3) by exact Hw.
  rewrite N.shiftr_div_pow2. change (2 ^ 3) with 8.
  rewrite N.div_add by discriminate. rewrite N.div_small by exact Hw. reflexivity.
Qed.

Lemma key_wire_type (tag w : N) : w < 8 -> N.land (pbf.key tag w) 0x07 = w.
Proof.
  intros Hw. unfold pbf.key. rewrite N.lor_comm, (lor_shiftl_low w tag 3) by exact Hw.
  change 0x07 with (N.ones 3). rewrite N.land_ones. change (2 ^ 3) with 8.
  rewrite N.Div0.mod_add. apply N.mod_small. exact Hw.
Qed.

Lemma next_key (tag w : N) (rest : bytes) :
  w < 8 -> pbf.next (pbf.write_varint (pbf.key tag w) ++ rest) = Some (tag, w, rest).
Proof.
  intros Hw. unfold pbf.next. rewrite decode_write_varint.
  rewrite key_tag, key_wire_type by exact Hw. reflexivity.
Qed.

Lemma get_view_written (v rest : bytes) :
  pbf.get_view (pbf.write_varint (N.of_nat (length v)) ++ v ++ rest) = Some (v, rest).
Proof.
  unfold pbf.get_view. rewrite decode_write_varint.
  destruct (N.leb_spec (N.of_nat (length v)) (N.of_nat (length (v ++ rest)))) as [_|H].
  - rewrite Nat2N.id, take_app_length, drop_app_length. reflexivity.
  - rewrite length_app in H. lia.
Qed.

(** Reading a length-delimited field that was just written. *)
Lemma next_add_bytes (tag : N) (v rest : bytes) :
  pbf.next (pbf.add_bytes tag v ++ rest)
  = Some (tag, pbf.wire_length_delimited,
          pbf.write_varint (N.of_nat (length v)) ++ v ++ rest).
Proof.
  unfold pbf.add_bytes. rewrite <- !app_assoc. apply next_key. reflexivity.
Qed.

Lemma next_add_varint (tag value : N) (rest : bytes) :
  pbf.next (pbf.add_varint tag value ++ rest)
  = Some (tag, pbf.wire_varint, pbf.write_varint value ++ rest).
Proof.
  unfold pbf.add_varint. rewrite <- !app_assoc. apply next_key. reflexivity.
Qed.

Lemma write_varint_nonempty (v : N) : pbf.write_varint v <> [].
Proof.
  unfold pbf.write_varint. destruct (N.to_nat (N.size v)); cbn [pbf.write_varint_loop].
  - discriminate.
  - destruct (0x7f <? v); discriminate.
Qed.

Lemma add_bytes_nonempty (tag : N) (v : bytes) : pbf.add_bytes tag v <> [].
Proof.
  unfold pbf.add_bytes. pose proof (write_varint_nonempty (pbf.key tag pbf.wire_length_delimited)).
  destruct (pbf.write_varint (pbf.key tag pbf.wire_length_delimited)); [congruence|discriminate].
Qed.

(** *** The readers make progress, so fuel equal to the length is enough *)

Lemma next_shorter (data rest : bytes) (t w : N) :
  pbf.next data = Some (t, w, rest) -> (length rest < length data)%nat.
Proof.
  unfold pbf.next. destruct (pbf.decode_varint data) as [[k r]|] eqn:E; [|discriminate].
  intros [= _ _ <-]. eapply decode_varint_shorter. exact E.
Qed.

Lemma get_view_shorter (data rest v : bytes) :
  pbf.get_view data = Some (v, rest) -> (length rest < length data)%nat.
Proof.
  unfold pbf.get_view. destruct (pbf.decode_varint data) as [[k r]|] eqn:E; [|discriminate].
  apply decode_varint_shorter in E. destruct (k <=? N.of_nat (length r)); [|discriminate].
  intros [= _ <-]. rewrite length_drop. lia.
Qed.

Lemma skip_shorter (w : N) (data rest : bytes) :
  pbf.skip w data = Some rest -> (length rest <= length data)%nat.
Proof.
  unfold pbf.skip.
  destruct (w =? pbf.wire_varint).
  { destruct (pbf.decode_varint data) as [[k r]|] eqn:E; [|discriminate].
    intros [= <-]. apply decode_varint_shorter in E. lia. }
  destruct (w =? pbf.wire_fixed64).
  { destruct (8 <=? length data)%nat; [|discriminate].
    intros [= <-]. rewrite length_drop. lia. }
  destruct (w =? pbf.wire_length_delimited).
  { destruct (pbf.get_view data) as [[v r]|] eqn:E; [|discriminate].
    intros [= <-]. apply get_view_shorter in E. lia. }
  destruct (w =? pbf.wire_fixed32); [|discriminate].
  destruct (4 <=? length data)%nat; [|discriminate].
  intros [= <-]. rewrite length_drop. lia.
Qed.

Lemma skip_length_delimited (data : bytes) :
  pbf.skip pbf.wire_length_delimited data
  = match pbf.get_view data with Some (_, rest) => Some rest | None => None end.
Proof. reflexivity. Qed.

Lemma skip_varint (data : bytes) :
  pbf.skip pbf.wire_varint data
  = match pbf.decode_varint data with Some (_, rest) => Some rest | None => None end.
Proof. reflexivity. Qed.

Lemma views_loop_fuel (tag : N) (f1 f2 : nat) (data : bytes) :
  (length data <= f1)%nat -> (length data <= f2)%nat ->
  pbf.views_loop f1 tag data = pbf.views_loop f2 tag data.
Proof.
  revert f2 data. induction f1 as [|f1 IH]; intros f2 data H1 H2.
  - destruct data; [|simpl in H1; lia]. destruct f2; reflexivity.
  - destruct f2 as [|f2].
    { destruct data; [reflexivity|simpl in H2; lia]. }
    cbn [pbf.views_loop]. destruct data as [|b data]; [reflexivity|].
    destruct (pbf.next (b :: data)) as [[[t w] rest]|] eqn:En; [|reflexivity].
    apply next_shorter in En.
    destruct ((t =? tag) && (w =? pbf.wire_length_delimited)).
    + destruct (pbf.get_view rest) as [[v rest']|] eqn:Eg; [|reflexivity].
      apply get_view_shorter in Eg. rewrite (IH f2 rest') by lia. reflexivity.
    + destruct (pbf.skip w rest) as [rest'|] eqn:Es; [|reflexivity].
      apply skip_shorter in Es. apply IH; lia.
Qed.

Lemma views_nil (tag : N) : pbf.views tag [] = Some [].
Proof. reflexivity. Qed.

Lemma views_add_bytes (tag t : N) (v rest : bytes) :
  pbf.views tag (pbf.add_bytes t v ++ rest)
  = match pbf.views tag rest with
    | Some vs => Some (if t =? tag then v :: vs else vs)
    | None => None
    end.
Proof.
  unfold pbf.views.
  destruct (pbf.add_bytes t v ++ rest) as [|b d] eqn:Ed.
  { apply app_eq_nil in Ed as [Ed _]. destruct (add_bytes_nonempty _ _ Ed). }
  cbn [length pbf.views_loop]. rewrite <- Ed, next_add_bytes.
  assert (Hlen : (length rest <= length d)%nat).
  { apply (f_equal length) in Ed. rewrite length_app in Ed. simpl in Ed. 
    pose proof (add_bytes_nonempty t v) as Hne.
    destruct (pbf.add_bytes t v); [congruence|simpl in Ed; lia]. }
  rewrite N.eqb_refl, andb_true_r. destruct (t =? tag).
  - rewrite get_view_written.
    rewrite (views_loop_fuel tag (length d) (length rest)) by lia. reflexivity.
  - rewrite skip_length_delimited, get_view_written.
    rewrite (views_loop_fuel tag (length d) (length rest)) by lia.
    destruct (pbf.views_loop (length rest) tag rest); reflexivity.
Qed.

Lemma views_add_varint (tag t x : N) (rest : bytes) :
  pbf.views tag (pbf.add_varint t x ++ rest) = pbf.views tag rest.
Proof.
  unfold pbf.views.
  destruct (pbf.add_varint t x ++ rest) as [|b d] eqn:Ed.
  { apply app_eq_nil in Ed as [Ed _]. unfold pbf.add_varint in Ed.
    apply app_eq_nil in Ed as [Ed _]. destruct (write_varint_nonempty _ Ed). }
  cbn [length pbf.views_loop]. rewrite <- Ed, next_add_varint.
  assert (Hlen : (length rest <= length d)%nat).
  { apply (f_equal length) in Ed. rewrite length_app in Ed. simpl in Ed.
    unfold pbf.add_varint in Ed. rewrite length_app in Ed.
    pose proof (write_varint_nonempty (pbf.key t pbf.wire_varint)) as Hne.
    destruct (pbf.write_varint (pbf.key t pbf.wire_varint)); [congruence|simpl in Ed; lia]. }
  change (pbf.wire_varint =? pbf.wire_length_delimited) with false.
  rewrite andb_false_r, skip_varint, decode_write_varint.
  apply views_loop_fuel; lia.
Qed.

(** ** The string table *)

Lemma to_uint32_small (n : N) : n <= index_value.invalid -> to_uint32 n = n.
Proof.
  intros Hn. unfold to_uint32. change 0xffffffff with (N.ones 32).
  rewrite N.land_ones. apply N.mod_small.
  unfold index_value.invalid in Hn. change (2 ^ 32) with 4294967296. lia.
Qed.

Lemma table_bytes_app (tag : N) (es es' : list bytes) :
  table_bytes tag (es ++ es') = table_bytes tag es ++ table_bytes tag es'.
Proof. unfold table_bytes. rewrite map_app, concat_app. reflexivity. Qed.

Lemma table_bytes_snoc (tag : N) (es : list bytes) (text : bytes) :
  table_bytes tag (es ++ [text]) = table_bytes tag es ++ pbf.add_bytes tag text.
Proof. rewrite table_bytes_app. unfold table_bytes. simpl. rewrite app_nil_r. reflexivity. Qed.

Lemma length_table_bytes (tag : N) (es : list bytes) :
  (length es <= length (table_bytes tag es))%nat.
Proof.
  induction es as [|e es IH]; [simpl; lia|].
  unfold table_bytes in *. cbn [map concat]. rewrite length_app.
  pose proof (add_bytes_nonempty tag e).
  destruct (pbf.add_bytes tag e); [congruence|simpl; lia].
Qed.

Lemma views_table_bytes (tag : N) (es : list bytes) :
  pbf.views tag (table_bytes tag es) = Some es.
Proof.
  induction es as [|e es IH]; [reflexivity|].
  unfold table_bytes in *. cbn [map concat].
  rewrite views_add_bytes, IH, N.eqb_refl. reflexivity.
Qed.

Lemma find_in_table_loop_bytes (tag : N) (text : bytes) (es : list bytes)
    (fuel : nat) (index : N) :
  (length es <= fuel)%nat ->
  string_table.find_in_table_loop fuel text (table_bytes tag es) index
  = scan text es index.
Proof.
  revert fuel index. induction es as [|e es IH]; intros fuel index Hf.
  - destruct fuel; reflexivity.
  - destruct fuel as [|fuel]; [simpl in Hf; lia|].
    unfold table_bytes. cbn [map concat string_table.find_in_table_loop].
    rewrite next_add_bytes, get_view_written. cbn [scan].
    destruct (decide (e = text)); [reflexivity|].
    apply IH. simpl in Hf. lia.
Qed.

Lemma find_in_table_bytes (tag : N) (text : bytes) (es : list bytes) :
  string_table.find_in_table text (table_bytes tag es) = scan text es 0.
Proof. apply find_in_table_loop_bytes, length_table_bytes. Qed.

Lemma populate_index_loop_bytes (tag : N) (es : list bytes) (fuel : nat)
    (index : N) (m : gmap bytes index_value.t) :
  (length es <= fuel)%nat ->
  string_table.populate_index_loop fuel (table_bytes tag es) index m
  = populate_list es index m.
Proof.
  revert fuel index m. induction es as [|e es IH]; intros fuel index m Hf.
  - destruct fuel; reflexivity.
  - destruct fuel as [|fuel]; [simpl in Hf; lia|].
    unfold table_bytes. cbn [map concat string_table.populate_index_loop].
    rewrite next_add_bytes, get_view_written. cbn [populate_list].
    apply IH. simpl in Hf. lia.
Qed.

Lemma populate_index_bytes (tag : N) (es : list bytes) (m : gmap bytes index_value.t) :
  string_table.populate_index (table_bytes tag es) m = populate_list es 0 m.
Proof. apply populate_index_loop_bytes, length_table_bytes. Qed.

(** [scan] finds the first occurrence, and nothing else. *)
Lemma scan_spec (text : bytes) (es : list bytes) (index : N) :
  index + N.of_nat (length es) <= index_value.invalid ->
  (scan text es index = index_value.invalid /\ text ∉ es)
  \/ (exists k : nat,
        scan text es index = index + N.of_nat k
        /\ es !! k = Some text
        /\ text ∉ take k es).
Proof.
  revert index. induction es as [|e es IH]; intros index Hb.
  - left. split; [reflexivity|]. apply not_elem_of_nil.
  - cbn [scan]. destruct (decide (e = text)) as [->|Hne].
    + right. exists O. rewrite N.add_0_r. repeat split. simpl. apply not_elem_of_nil.
    + cbn [length] in Hb. rewrite to_uint32_small by lia.
      destruct (IH (index + 1)) as [[Hs Hn]|(k & Hs & Hk & Hn)]; [lia| |].
      * left. split; [exact Hs|]. rewrite not_elem_of_cons. split; congruence.
      * right. exists (S k). split; [rewrite Hs; lia|]. split; [exact Hk|].
        cbn [take]. rewrite not_elem_of_cons. split; congruence.
Qed.

Lemma populate_list_snoc (es : list bytes) (s : bytes) (index : N)
    (map : gmap bytes index_value.t) :
  index + N.of_nat (length es) <= index_value.invalid ->
  populate_list (es ++ [s]) index map
  = <[s := index + N.of_nat (length es)]> (populate_list es index map).
Proof.
  revert index map. induction es as [|e es IH]; intros index map Hb.
  - simpl. rewrite N.add_0_r. reflexivity.
  - cbn [app populate_list length] in *. rewrite to_uint32_small by lia.
    rewrite IH by lia. f_equal. lia.
Qed.

Lemma populate_list_lookup (es : list bytes) (index : N)
    (map : gmap bytes index_value.t) (s : bytes) (i : index_value.t) :
  index + N.of_nat (length es) <= index_value.invalid ->
  populate_list es index map !! s = Some i ->
  (exists k : nat, i = index + N.of_nat k /\ es !! k = Some s)
  \/ (map !! s = Some i /\ s ∉ es).
Proof.
  revert index map. induction es as [|e es IH]; intros index map Hb Hl.
  - right. split; [exact Hl|]. apply not_elem_of_nil.
  - cbn [populate_list length] in *. rewrite to_uint32_small in Hl by lia.
    apply IH in Hl; [|lia]. destruct Hl as [(k & -> & Hk)|[Hl Hn]].
    + left. exists (S k). split; [lia|exact Hk].
    + destruct (decide (e = s)) as [->|Hne].
      * rewrite lookup_insert_eq in Hl. injection Hl as <-.
        left. exists O. split; [lia|reflexivity].
      * rewrite lookup_insert_ne in Hl by exact Hne.
        right. split; [exact Hl|]. rewrite not_elem_of_cons. split; congruence.
Qed.

Lemma populate_list_notin (es : list bytes) (index : N)
    (m : gmap bytes index_value.t) (s : bytes) :
  s ∉ es -> populate_list es index m !! s = m !! s.
Proof.
  revert index m. induction es as [|e es IH]; intros index m Hn; [reflexivity|].
  apply not_elem_of_cons in Hn as [Hne Hn]. cbn [populate_list].
  rewrite IH by exact Hn. apply lookup_insert_ne. congruence.
Qed.

Lemma populate_list_complete (es : list bytes) (index : N)
    (m : gmap bytes index_value.t) (s : bytes) :
  s ∈ es -> is_Some (populate_list es index m !! s).
Proof.
  revert index m. induction es as [|e es IH]; intros index m Hin.
  - apply elem_of_nil in Hin. destruct Hin.
  - cbn [populate_list]. destruct (decide (s ∈ es)) as [Hs|Hs]; [apply IH, Hs|].
    apply elem_of_cons in Hin as [->|Hin]; [|contradiction].
    rewrite populate_list_notin by exact Hs. rewrite lookup_insert_eq. eauto.
Qed.

Lemma index_valid_lt (i : index_value.t) :
  i < index_value.invalid -> index_value.valid i = true.
Proof.
  intros Hi. unfold index_value.valid. destruct (N.eqb_spec i index_value.invalid); [lia|reflexivity].
Qed.

Lemma index_valid_invalid : index_value.valid index_value.invalid = false.
Proof. reflexivity. Qed.

Lemma lookup_index_lt (es : list bytes) (i : N) (s : bytes) :
  es !! N.to_nat i = Some s -> i < N.of_nat (length es).
Proof. intros H. apply lookup_lt_Some in H. lia. Qed.

Lemma table_inv_new (tag : N) : table_inv (string_table.new tag) [].
Proof.
  split; try reflexivity.
  - simpl. unfold index_value.invalid. lia.
  - intros s i. simpl. rewrite lookup_empty. discriminate.
Qed.

Lemma table_inv_entries (tbl : string_table.t) (es : list bytes) :
  table_inv tbl es -> string_table.entries tbl = es.
Proof.
  intros [Hd _ _ _ _]. unfold string_table.entries.
  rewrite Hd, views_table_bytes. reflexivity.
Qed.

Lemma add_without_dup_check_inv (text : bytes) (tbl : string_table.t) (es : list bytes) :
  table_inv tbl es -> N.of_nat (length es) < index_value.invalid ->
  fst (string_table.add_without_dup_check text tbl) = N.of_nat (length es)
  /\ table_inv (snd (string_table.add_without_dup_check text tbl)) (es ++ [text]).
Proof.
  intros [Hd Hn Hr Hi Hf] Hroom. split; [exact Hn|].
  assert (Hn' : to_uint32 (string_table.m_num tbl + 1) = N.of_nat (length (es ++ [text]))).
  { rewrite to_uint32_small by lia. rewrite length_app. simpl. lia. }
  split; cbn [snd string_table.add_without_dup_check string_table.m_data
              string_table.m_num string_table.m_index string_table.m_pbf_type].
  - rewrite Hd, table_bytes_snoc. reflexivity.
  - exact Hn'.
  - rewrite length_app. simpl. lia.
  - intros s i Hs. apply lookup_app_l_Some. apply Hi. exact Hs.
  - intros Hlt. apply Hf. rewrite Hn' in Hlt. rewrite Hn.
    rewrite length_app in Hlt. simpl in Hlt. lia.
Qed.

Lemma find_spec (text : bytes) (tbl : string_table.t) (es : list bytes) :
  table_inv tbl es -> N.of_nat (length es) < index_value.invalid ->
  find_result text tbl es (fst (string_table.find text tbl))
    (snd (string_table.find text tbl)).
Proof.
  intros Hinv Hroom. pose proof Hinv as [Hd Hn Hr Hi Hf].
  unfold string_table.find.
  destruct (N.ltb_spec (string_table.m_num tbl) string_table.max_entries_flat) as [Hlt|Hge].
  - cbn [fst snd]. rewrite Hd, find_in_table_bytes.
    destruct (scan_spec text es 0) as [[Hs Hn']|(k & Hs & Hk & Hn')]; [lia| |].
    + apply find_absent; trivial.
    + rewrite Hs, N.add_0_l. pose proof (lookup_lt_Some _ _ _ Hk) as Hk'.
      apply find_found; trivial.
      * apply index_valid_lt. lia.
      * rewrite Nat2N.id. exact Hk.
      * intros _. rewrite Nat2N.id. split; trivial.
      * intros Hge. lia.
  - set (map0 := if decide (string_table.m_index tbl = ∅)
                 then string_table.populate_index (string_table.m_data tbl)
                        (string_table.m_index tbl)
                 else string_table.m_index tbl).
    assert (Hmap0 : forall s i, map0 !! s = Some i -> es !! N.to_nat i = Some s).
    { intros s i. unfold map0. destruct (decide (string_table.m_index tbl = ∅)) as [He|_].
      - rewrite He, Hd, populate_index_bytes. intros Hl.
        apply populate_list_lookup in Hl; [|lia].
        destruct Hl as [(k & -> & Hk)|[Hl _]].
        + rewrite N.add_0_l, Nat2N.id. exact Hk.
        + rewrite lookup_empty in Hl. discriminate.
      - apply Hi. }
    unfold string_table.subscript. destruct (map0 !! text) as [v|] eqn:El.
    + pose proof (Hmap0 _ _ El) as Hv. pose proof (lookup_index_lt _ _ _ Hv) as Hv'.
      rewrite index_valid_lt by lia. cbn [negb fst snd].
      apply find_found; trivial.
      * apply index_valid_lt. lia.
      * split; trivial. intros Hlt. cbn in Hlt. lia.
      * intros Hlt. lia.
    + rewrite index_valid_invalid. cbn [negb].
      cbn [string_table.add_without_dup_check string_table.set_index
           string_table.m_data string_table.m_index string_table.m_num
           string_table.m_pbf_type fst snd].
      rewrite insert_insert_eq.
      assert (Hn' : to_uint32 (string_table.m_num tbl + 1)
                    = N.of_nat (length (es ++ [text]))).
      { rewrite to_uint32_small by lia. rewrite length_app. simpl. lia. }
      apply find_appended; trivial.
      3:{ intros He Hin. unfold map0 in El. rewrite decide_True in El by exact He.
          rewrite He, Hd, populate_index_bytes in El.
          destruct (populate_list_complete es 0 ∅ text Hin) as [x Hx]. congruence. }
      * split; cbn [string_table.m_data string_table.m_index string_table.m_num
                    string_table.m_pbf_type string_table.set_index].
        -- rewrite Hd, table_bytes_snoc. reflexivity.
        -- exact Hn'.
        -- rewrite length_app. simpl. lia.
        -- intros s i. destruct (decide (text = s)) as [<-|Hne].
           ++ rewrite lookup_insert_eq. intros [= <-]. rewrite Hn, Nat2N.id.
              apply list_lookup_middle. reflexivity.
           ++ rewrite lookup_insert_ne by exact Hne. intros Hl.
              apply lookup_app_l_Some. apply Hmap0. exact Hl.
        -- intros Hlt. rewrite Hn' in Hlt. rewrite length_app in Hlt. simpl in Hlt. lia.
      * cbn [string_table.m_index string_table.set_index]. apply lookup_insert_eq.
Qed.

(** A lookup that hits the index returns what the index holds. *)
Lemma find_hit (text : bytes) (tbl : string_table.t) (i : index_value.t) :
  string_table.max_entries_flat <= string_table.m_num tbl ->
  string_table.m_index tbl !! text = Some i ->
  index_value.valid i = true ->
  string_table.find text tbl = (i, string_table.set_index (string_table.m_index tbl) tbl).
Proof.
  intros Hge Hl Hv. unfold string_table.find.
  destruct (N.ltb_spec (string_table.m_num tbl) string_table.max_entries_flat) as [Hlt|_]; [lia|].
  destruct (decide (string_table.m_index tbl = ∅)) as [He|_].
  { rewrite He, lookup_empty in Hl. discriminate. }
  unfold string_table.subscript. rewrite Hl, Hv. reflexivity.
Qed.

Lemma add_unfold (text : bytes) (tbl : string_table.t) :
  string_table.add text tbl
  = if index_value.valid (fst (string_table.find text tbl))
    then string_table.find text tbl
    else string_table.add_without_dup_check text (snd (string_table.find text tbl)).
Proof.
  unfold string_table.add. destruct (string_table.find text tbl) as [i t1].
  cbn [fst snd]. destruct (index_value.valid i); reflexivity.
Qed.

Lemma add_spec (text : bytes) (tbl : string_table.t) (es : list bytes) :
  table_inv tbl es -> N.of_nat (length es) < index_value.invalid ->
  add_result text tbl es (fst (string_table.add text tbl))
    (snd (string_table.add text tbl)).
Proof.
  intros Hinv Hroom. rewrite add_unfold.
  destruct (find_spec text tbl es Hinv Hroom)
    as [Hlt Hn Hi Ht|Hv Hl Hinv' Hd Hp _ _|Hge Hi Hinv' Hp _ _].
  - rewrite Hi, index_valid_invalid, Ht.
    destruct (add_without_dup_check_inv text tbl es Hinv Hroom) as [Hi' Hinv'].
    apply add_new; trivial.
  - rewrite Hv. apply add_existing; trivial.
  - assert (Hv : index_value.valid (fst (string_table.find text tbl)) = true)
      by (rewrite Hi; apply index_valid_lt, Hroom).
    rewrite Hv. apply add_new; trivial.
Qed.

(** [add] in the form used for sequences of calls: the index is the
    position of the text, and the entries grow at the end only. *)
Lemma add_spec_position (text : bytes) (tbl : string_table.t) (es : list bytes) :
  table_inv tbl es -> N.of_nat (length es) < index_value.invalid ->
  exists es',
    table_inv (snd (string_table.add text tbl)) es'
    /\ es' !! N.to_nat (fst (string_table.add text tbl)) = Some text
    /\ string_table.m_pbf_type (snd (string_table.add text tbl))
       = string_table.m_pbf_type tbl
    /\ ((es' = es /\ fst (string_table.add text tbl) < N.of_nat (length es))
        \/ (es' = es ++ [text]
            /\ fst (string_table.add text tbl) = N.of_nat (length es))).
Proof.
  intros Hinv Hroom.
  destruct (add_spec text tbl es Hinv Hroom) as [Hv Hl Hinv' Hp|Hi Hinv' Hp].
  - exists es. split; [|split; [|split]]; trivial. left. split; trivial.
    eapply lookup_index_lt, Hl.
  - exists (es ++ [text]). split; [|split; [|split]]; trivial.
    + rewrite Hi, Nat2N.id. apply list_lookup_middle. reflexivity.
    + right. split; trivial.
Qed.

(** The same text added twice in a row gets the same index. *)
Lemma add_twice (text : bytes) (tbl : string_table.t) (es : list bytes) :
  table_inv tbl es -> N.of_nat (length es) + 1 < index_value.invalid ->
  fst (string_table.add text (snd (string_table.add text tbl)))
  = fst (string_table.add text tbl).
Proof.
  intros Hinv Hroom.
  assert (Hroom' : N.of_nat (length es) < index_value.invalid) by lia.
  pose proof Hinv as [Hd Hn Hr Hi Hf].
  rewrite (add_unfold text tbl).
  destruct (find_spec text tbl es Hinv Hroom')
    as [Hlt Hnotin Hinval Ht|Hv Hl Hinv' Hd' Hp Hflat Hmap|Hge Hlen Hinv' Hp Hmap _].
  - rewrite Hinval, index_valid_invalid, Ht.
    destruct (add_without_dup_check_inv text tbl es Hinv Hroom') as [Hi' Hinv'].
    rewrite Hi'. set (tbl' := snd (string_table.add_without_dup_check text tbl)) in *.
    assert (He : string_table.m_index tbl' = ∅) by (apply Hf, Hlt).
    assert (Hroom'' : N.of_nat (length (es ++ [text])) < index_value.invalid)
      by (rewrite length_app; simpl; lia).
    rewrite add_unfold.
    destruct (find_spec text tbl' _ Hinv' Hroom'')
      as [_ Hnotin' _ _|Hv Hl _ _ _ _ _|_ _ _ _ _ Hnotin'].
    + exfalso. apply Hnotin'. apply elem_of_app. right. apply list_elem_of_singleton. reflexivity.
    + rewrite Hv. destruct (Nat.lt_ge_cases (N.to_nat (fst (string_table.find text tbl'))) (length es))
        as [Hlt'|Hge'].
      * rewrite lookup_app_l in Hl by exact Hlt'.
        exfalso. apply Hnotin. eapply list_elem_of_lookup_2, Hl.
      * apply lookup_lt_Some in Hl. rewrite length_app in Hl. simpl in Hl. lia.
    + exfalso. apply (Hnotin' He). apply elem_of_app. right.
      apply list_elem_of_singleton. reflexivity.
  - rewrite Hv. destruct (N.lt_ge_cases (string_table.m_num tbl) string_table.max_entries_flat)
      as [Hlt|Hge].
    + destruct (Hflat Hlt) as [-> _]. rewrite add_unfold, Hv. reflexivity.
    + pose proof Hinv' as [_ Hn' _ _ _].
      rewrite add_unfold, (find_hit text _ (fst (string_table.find text tbl)));
        cbn [fst]; trivial.
      * rewrite Hv. reflexivity.
      * rewrite Hn', <- Hn. exact Hge.
      * apply Hmap, Hge.
  - assert (Hv : index_value.valid (fst (string_table.find text tbl)) = true)
      by (rewrite Hlen; apply index_valid_lt, Hroom').
    rewrite Hv. pose proof Hinv' as [_ Hn' _ _ _].
    rewrite add_unfold, (find_hit text _ (fst (string_table.find text tbl)));
      cbn [fst]; trivial.
    + rewrite Hv. reflexivity.
    + rewrite Hn', length_app. simpl. lia.
Qed.

(** Different texts added one after the other get different indices. *)
Lemma add_distinct (text1 text2 : bytes) (tbl : string_table.t) (es : list bytes) :
  table_inv tbl es -> N.of_nat (length es) + 1 < index_value.invalid ->
  text1 <> text2 ->
  fst (string_table.add text1 tbl)
  <> fst (string_table.add text2 (snd (string_table.add text1 tbl))).
Proof.
  intros Hinv Hroom Hne Heq.
  destruct (add_spec_position text1 tbl es Hinv) as (es1 & Hinv1 & Hl1 & _ & Hes1); [lia|].
  assert (Hroom1 : N.of_nat (length es1) < index_value.invalid).
  { destruct Hes1 as [[-> _]|[-> _]]; [lia|]. rewrite length_app. simpl. lia. }
  destruct (add_spec_position text2 _ es1 Hinv1 Hroom1) as (es2 & _ & Hl2 & _ & Hes2).
  rewrite <- Heq in Hl2.
  assert (Hl : es2 !! N.to_nat (fst (string_table.add text1 tbl)) = Some text1).
  { destruct Hes2 as [[-> _]|[-> _]]; [exact Hl1|]. apply lookup_app_l_Some, Hl1. }
  congruence.
Qed.

Lemma table_apply_spec (c : table_call) (tbl : string_table.t) (es : list bytes) :
  table_inv tbl es -> N.of_nat (length es) < index_value.invalid ->
  exists es',
    table_inv (snd (table_apply c tbl)) es'
    /\ es' !! N.to_nat (fst (table_apply c tbl)) = Some (call_text c)
    /\ ((es' = es /\ fst (table_apply c tbl) < N.of_nat (length es))
        \/ (es' = es ++ [call_text c]
            /\ fst (table_apply c tbl) = N.of_nat (length es))).
Proof.
  intros Hinv Hroom. destruct c as [text|text]; cbn [table_apply call_text].
  - destruct (add_spec_position text tbl es Hinv Hroom) as (es' & H1 & H2 & _ & H3).
    exists es'. auto.
  - destruct (add_without_dup_check_inv text tbl es Hinv Hroom) as [Hi Hinv'].
    exists (es ++ [text]). split; [exact Hinv'|]. split.
    + rewrite Hi, Nat2N.id. apply list_lookup_middle. reflexivity.
    + right. split; trivial.
Qed.

Lemma table_run_cons (c : table_call) (cs : list table_call) (tbl : string_table.t) :
  table_run (c :: cs) tbl
  = (fst (table_apply c tbl) :: fst (table_run cs (snd (table_apply c tbl))),
     snd (table_run cs (snd (table_apply c tbl)))).
Proof.
  cbn [table_run]. destruct (table_apply c tbl) as [i t1]. cbn [fst snd].
  destruct (table_run cs t1); reflexivity.
Qed.

(** Any sequence of calls, from any table state: every returned index is
    the position of the call's text in the final table, earlier entries
    keep their place, and new entries are numbered consecutively. *)
Lemma table_run_spec (cs : list table_call) (tbl : string_table.t) (es : list bytes) :
  table_inv tbl es ->
  N.of_nat (length es) + N.of_nat (length cs) <= index_value.invalid ->
  exists es',
    table_inv (snd (table_run cs tbl)) es'
    /\ es `prefix_of` es'
    /\ (length es' <= length es + length cs)%nat
    /\ Forall2 (fun c i => es' !! N.to_nat i = Some (call_text c))
         cs (fst (table_run cs tbl))
    /\ consecutive (N.of_nat (length es)) (fst (table_run cs tbl)).
Proof.
  revert tbl es. induction cs as [|c cs IH]; intros tbl es Hinv Hroom.
  - exists es. cbn. split; [exact Hinv|]. split; [reflexivity|].
    split; [lia|]. split; [constructor|exact I].
  - cbn [length] in Hroom. rewrite table_run_cons. cbn [fst snd].
    destruct (table_apply_spec c tbl es Hinv) as (es1 & Hinv1 & Hl1 & Hes1); [lia|].
    assert (Hlen1 : (length es1 <= S (length es))%nat).
    { destruct Hes1 as [[-> _]|[-> _]]; [lia|]. rewrite length_app. simpl. lia. }
    destruct (IH _ es1 Hinv1) as (es' & Hinv' & Hpre & Hlen' & Hall & Hcons); [lia|].
    exists es'. split; [exact Hinv'|]. split; [|split; [|split]].
    + destruct Hes1 as [[-> _]|[-> _]]; [exact Hpre|].
      eapply prefix_app_l, Hpre.
    + cbn [length]. lia.
    + constructor; [|exact Hall]. eapply prefix_lookup_Some; eauto.
    + cbn [consecutive]. destruct Hes1 as [[-> Hlt]|[-> Heq]].
      * left. split; trivial.
      * right. split; trivial. rewrite length_app in Hcons. simpl in Hcons.
        replace (N.of_nat (length es) + 1) with (N.of_nat (length es + 1)) by lia.
        exact Hcons.
Qed.

(** ** The numeric tables *)

Lemma std_find_Some {A : Type} (eq : A -> A -> bool) (l : list A) (v : A) (n : nat) :
  std_find eq l v = Some n ->
  (exists u, l !! n = Some u /\ eq u v = true)
  /\ (forall j u, (j < n)%nat -> l !! j = Some u -> eq u v = false).
Proof.
  revert n. induction l as [|x l IH]; intros n; [discriminate|].
  cbn [std_find]. destruct (eq x v) eqn:Ex.
  - intros [= <-]. split; [exists x; auto|]. intros j u Hj. lia.
  - destruct (std_find eq l v) as [m|]; [|discriminate]. intros [= <-].
    destruct (IH m eq_refl) as [(u & Hu & Heq) Hfirst]. split; [exists u; auto|].
    intros [|j] u' Hj; cbn; [congruence|]. apply Hfirst. lia.
Qed.

Lemma std_find_None {A : Type} (eq : A -> A -> bool) (l : list A) (v : A) :
  std_find eq l v = None -> forall j u, l !! j = Some u -> eq u v = false.
Proof.
  induction l as [|x l IH]; intros H j u Hl; [rewrite lookup_nil in Hl; discriminate|].
  cbn [std_find] in H. destruct (eq x v) eqn:Ex; [discriminate|].
  destruct (std_find eq l v); [discriminate|].
  destruct j as [|j]; cbn in Hl; [congruence|]. eapply IH; eauto.
Qed.



Lemma last_index_snoc (v : list N) (value : N) :
  N.of_nat (length v) < index_value.invalid ->
  layer_builder_impl.last_index (v ++ [value]) = N.of_nat (length v).
Proof.
  intros Hr. unfold layer_builder_impl.last_index. rewrite length_app. cbn [length].
  rewrite to_uint32_small by lia. lia.
Qed.

(** The equalities of the element types are symmetric and transitive. *)
Lemma ieee_eq_sym (e m a b : N) : ieee_eq e m a b = ieee_eq e m b a.
Proof.
  unfold ieee_eq. rewrite (N.eqb_sym a b).
  destruct (ieee_is_nan e m a), (ieee_is_nan e m b),
    (ieee_is_zero e m a), (ieee_is_zero e m b), (b =? a); reflexivity.
Qed.


Lemma numeric_eq_sym (k : numeric_table) (a b : N) : numeric_eq k a b = numeric_eq k b a.
Proof.
  destruct k; cbn [numeric_eq]; [apply ieee_eq_sym..|apply N.eqb_sym].
Qed.


Lemma numeric_apply_spec (k : numeric_table) (c : numeric_call)
    (l : layer_builder_impl.t) :
  layer_builder_impl.m_version l = 3 ->
  N.of_nat (length (numeric_values k l)) < index_value.invalid ->
  exists i l', numeric_apply k c l = returns (i, l') /\ numeric_result k c l i l'.
Proof.
  intros Hv Hroom.
  destruct k, c as [v|v]; cbn [numeric_apply numeric_values] in *;
    unfold layer_builder_impl.add_double_value, layer_builder_impl.add_float_value,
      layer_builder_impl.add_int_value,
      layer_builder_impl.add_double_value_without_dup_check,
      layer_builder_impl.add_float_value_without_dup_check,
      layer_builder_impl.add_int_value_without_dup_check;
    rewrite Hv; cbn [N.eqb Pos.eqb vtzero_assert bind].
  all: try match goal with
       | |- context [std_find ?eq ?vs ?x] =>
           destruct (std_find eq vs x) as [n|] eqn:Ef;
             [ destruct (std_find_Some _ _ _ _ Ef) as [(u & Hu & Hequ) _];
               pose proof (lookup_lt_Some _ _ _ Hu) as Hn;
               eexists _, _; split; [reflexivity|];
               eapply (numeric_existing _ _ _ _ _ n u); cbn [numeric_call_value numeric_eq numeric_values];
               trivial; apply to_uint32_small; lia
             | idtac ]
       end.
  all: eexists _, _; (split; [reflexivity|]);
    apply numeric_new; cbn [numeric_call_value numeric_eq numeric_values
      layer_builder_impl.set_double_values layer_builder_impl.set_float_values
      layer_builder_impl.set_int_values layer_builder_impl.m_double_values
      layer_builder_impl.m_float_values layer_builder_impl.m_int_values
      layer_builder_impl.m_version]; trivial;
    try (apply last_index_snoc; exact Hroom); try discriminate.
Qed.

Lemma numeric_run_spec (k : numeric_table) (cs : list numeric_call)
    (l : layer_builder_impl.t) :
  layer_builder_impl.m_version l = 3 ->
  N.of_nat (length (numeric_values k l)) + N.of_nat (length cs) <= index_value.invalid ->
  exists ids l',
    numeric_run k cs l = returns (ids, l')
    /\ numeric_values k l `prefix_of` numeric_values k l'
    /\ Forall2 (fun c i =>
                  exists u, numeric_values k l' !! N.to_nat i = Some u
                            /\ (u = numeric_call_value c
                                \/ numeric_eq k u (numeric_call_value c) = true))
         cs ids
    /\ consecutive (N.of_nat (length (numeric_values k l))) ids.
Proof.
  revert l. induction cs as [|c cs IH]; intros l Hv Hroom.
  - exists [], l. split; [reflexivity|]. split; [reflexivity|].
    split; [constructor|exact I].
  - cbn [length] in Hroom.
    destruct (numeric_apply_spec k c l Hv) as (i & l1 & Hrun & Hres); [lia|].
    cbn [numeric_run]. rewrite Hrun. cbn [bind fst snd].
    destruct Hres as [n u _ _ Hi Hu Heq ->|_ Hi Hvals Hv'].
    + destruct (IH l Hv) as (ids & l' & Hrun' & Hpre & Hall & Hcons); [lia|].
      rewrite Hrun'. cbn [bind fst snd]. exists (i :: ids), l'.
      split; [reflexivity|]. split; [exact Hpre|]. split.
      * constructor; [|exact Hall]. exists u. split; [|right; exact Heq].
        rewrite Hi, Nat2N.id. eapply prefix_lookup_Some; eauto.
      * cbn [consecutive]. left. split; [|exact Hcons].
        apply lookup_lt_Some in Hu. lia.
    + destruct (IH l1) as (ids & l' & Hrun' & Hpre & Hall & Hcons).
      { congruence. }
      { rewrite Hvals, length_app. simpl. lia. }
      rewrite Hrun'. cbn [bind fst snd]. exists (i :: ids), l'.
      split; [reflexivity|]. rewrite Hvals in Hpre, Hcons. split; [|split].
      * eapply prefix_app_l, Hpre.
      * constructor; [|exact Hall]. exists (numeric_call_value c). split; [|left; reflexivity].
        rewrite Hi, Nat2N.id. eapply prefix_lookup_Some; [|exact Hpre].
        apply list_lookup_middle. reflexivity.
      * cbn [consecutive]. right. split; [exact Hi|].
        rewrite length_app in Hcons. simpl in Hcons.
        replace (N.of_nat (length (numeric_values k l)) + 1)
          with (N.of_nat (length (numeric_values k l) + 1)) by lia.
        exact Hcons.
Qed.


(** * The claims *)

Lemma table_ok_new (tag : N) (room : N) :
  room <= index_value.invalid -> table_ok (string_table.new tag) room.
Proof.
  intros Hr. split.
  - rewrite (table_inv_entries _ _ (table_inv_new tag)). apply table_inv_new.
  - rewrite (table_inv_entries _ _ (table_inv_new tag)). simpl. lia.
Qed.

(** Every table the layer builder can hold, a new table after any sequence
    of [add] and [add_without_dup_check] calls, is in such a state. *)
Lemma table_ok_run (tag : N) (cs : list table_call) (room : N) :
  N.of_nat (length cs) + room <= index_value.invalid ->
  table_ok (snd (table_run cs (string_table.new tag))) room.
Proof.
  intros Hr.
  destruct (table_run_spec cs (string_table.new tag) [] (table_inv_new tag))
    as (es' & Hinv & _ & Hlen & _); [simpl; lia|].
  unfold table_ok. rewrite (table_inv_entries _ _ Hinv). split; [exact Hinv|].
  simpl in Hlen. lia.
Qed.

(** C10: [string_table::find] is not read-only above the threshold.  On a
    table that holds at least 20 entries, [find] of a text that is not in
    the table appends it as a new entry and returns its new, valid index;
    on a table with fewer than 20 entries, [find] of an absent text
    returns the invalid index and leaves the table as it was. *)
Theorem C10_find_appends_above_threshold (text : bytes) (tbl : string_table.t) :
  table_ok tbl 1 ->
  text ∉ string_table.entries tbl ->
  (string_table.max_entries_flat <= string_table.m_num tbl ->
     string_table.entries (snd (string_table.find text tbl))
       = string_table.entries tbl ++ [text]
     /\ fst (string_table.find text tbl) = N.of_nat (length (string_table.entries tbl))
     /\ index_value.valid (fst (string_table.find text tbl)) = true
     /\ string_table.m_num (snd (string_table.find text tbl)) = string_table.m_num tbl + 1
     /\ string_table.m_data (snd (string_table.find text tbl))
        = string_table.m_data tbl ++ pbf.add_bytes (string_table.m_pbf_type tbl) text)
  /\ (string_table.m_num tbl < string_table.max_entries_flat ->
        string_table.find text tbl = (index_value.invalid, tbl)).
Proof.
  intros [Hinv Hroom] Hnotin.
  assert (Hroom' : N.of_nat (length (string_table.entries tbl)) < index_value.invalid) by lia.
  pose proof Hinv as [Hd Hn _ _ _].
  destruct (find_spec text tbl _ Hinv Hroom')
    as [Hlt _ Hi Ht|_ Hl _ _ _ _ _|Hge Hi Hinv' Hp _ _].
  - split; [intros Hge; lia|]. intros _.
    rewrite (surjective_pairing (string_table.find text tbl)), Hi, Ht. reflexivity.
  - exfalso. apply Hnotin. eapply list_elem_of_lookup_2, Hl.
  - split; [|intros Hlt; lia]. intros _.
    pose proof Hinv' as [Hd' Hn' _ _ _].
    split; [apply table_inv_entries, Hinv'|]. split; [exact Hi|].
    split; [rewrite Hi; apply index_valid_lt, Hroom'|].
    split.
    + rewrite Hn', Hn, length_app. simpl. lia.
    + rewrite Hd', Hp, table_bytes_snoc, <- Hd. reflexivity.
Qed.

(** Proves [table_ok] of a concrete table whose index is still empty. *)
Ltac table_ok_by_computation :=
  split;
  [ split;
    [ vm_compute; reflexivity
    | vm_compute; reflexivity
    | vm_compute; discriminate
    | let s := fresh in let i := fresh in let H := fresh in
      intros s i H; exfalso; revert H;
      match goal with
      | |- ?m !! _ = _ -> _ =>
          replace m with (∅ : gmap bytes index_value.t) by (vm_compute; reflexivity)
      end;
      rewrite lookup_empty; discriminate
    | intros _; vm_compute; reflexivity ]
  | vm_compute; discriminate ].

Lemma C10_witness :
  string_table.m_num (sample_table 20) = 20
  /\ fst (string_table.find sample_text (sample_table 20)) = 20
  /\ string_table.entries (snd (string_table.find sample_text (sample_table 20)))
     = string_table.entries (sample_table 20) ++ [sample_text].
Proof.
  assert (Hok : table_ok (sample_table 20) 1) by table_ok_by_computation.
  assert (Hnotin : sample_text ∉ string_table.entries (sample_table 20)).
  { apply (bool_decide_eq_false_1 (sample_text ∈ string_table.entries (sample_table 20))).
    vm_compute. reflexivity. }
  destruct (C10_find_appends_above_threshold sample_text (sample_table 20) Hok Hnotin)
    as [Habove _].
  destruct Habove as (He & Hi & _); [vm_compute; discriminate|].
  split; [vm_compute; reflexivity|]. split; [|exact He].
  rewrite Hi. vm_compute. reflexivity.
Defined.

Lemma ieee_eq_bits (e m a b : N) :
  ieee_is_nan e m a = false -> ieee_is_zero e m a = false ->
  (ieee_eq e m a b = true <-> a = b).
Proof.
  intros Hn Hz. unfold ieee_eq. rewrite Hn, Hz. cbn [negb andb orb].
  rewrite orb_false_r. split.
  - intros H. apply andb_true_iff in H as [_ H]. apply N.eqb_eq, H.
  - intros <-. rewrite Hn, N.eqb_refl. reflexivity.
Qed.

Lemma numeric_eq_bits (k : numeric_table) (a b : N) :
  numeric_is_nan k a = false -> numeric_is_zero k a = false ->
  (numeric_eq k a b = true <-> a = b).
Proof.
  destruct k; cbn [numeric_is_nan numeric_is_zero numeric_eq];
    [apply ieee_eq_bits..|]. intros _ _. apply N.eqb_eq.
Qed.




(** ** The layer builder *)

Lemma add_key_fst (text : bytes) (l : layer_builder_impl.t) :
  fst (layer_builder_impl.add_key text l)
  = fst (string_table.add text (layer_builder_impl.m_keys_table l)).
Proof.
  unfold layer_builder_impl.add_key.
  destruct (string_table.add text (layer_builder_impl.m_keys_table l)); reflexivity.
Qed.


Lemma add_value_returns (value : bytes) (l : layer_builder_impl.t) :
  layer_builder_impl.m_version l < 3 ->
  layer_builder_impl.add_value value l
  = returns (fst (string_table.add value (layer_builder_impl.m_values_table l)),
             layer_builder_impl.set_values_table
               (snd (string_table.add value (layer_builder_impl.m_values_table l))) l).
Proof.
  intros Hv. unfold layer_builder_impl.add_value.
  apply N.ltb_lt in Hv. rewrite Hv. cbn [vtzero_assert bind].
  destruct (string_table.add value (layer_builder_impl.m_values_table l)); reflexivity.
Qed.

Lemma table_ok_add (text : bytes) (tbl : string_table.t) (room : N) :
  table_ok tbl (room + 1) -> table_ok (snd (string_table.add text tbl)) room.
Proof.
  intros [Hinv Hroom].
  destruct (add_spec_position text tbl _ Hinv) as (es' & Hinv' & _ & _ & Hes); [lia|].
  unfold table_ok. rewrite (table_inv_entries _ _ Hinv'). split; [exact Hinv'|].
  destruct Hes as [[-> _]|[-> _]]; [lia|]. rewrite length_app. simpl. lia.
Qed.



(** C6: version gating.  On a layer of version below 3, [set_string_id]
    and the v3 value-table operations fail with a fatal assertion; on a
    layer of version 3, [add_value] does; the v3 operations return exactly
    when the version is 3. *)
Theorem C6_version_gating (l : layer_builder_impl.t) (text : bytes) (value : N) :
  (layer_builder_impl.m_version l < 3 ->
     feature_builder.set_string_id text (feature_builder.new l) l = assert_error
     /\ layer_builder_impl.add_string_value text l = assert_error
     /\ layer_builder_impl.add_string_value_without_dup_check text l = assert_error
     /\ layer_builder_impl.add_double_value value l = assert_error
     /\ layer_builder_impl.add_double_value_without_dup_check value l = assert_error
     /\ layer_builder_impl.add_float_value value l = assert_error
     /\ layer_builder_impl.add_float_value_without_dup_check value l = assert_error
     /\ layer_builder_impl.add_int_value value l = assert_error
     /\ layer_builder_impl.add_int_value_without_dup_check value l = assert_error)
  /\ (layer_builder_impl.m_version l = 3 ->
        layer_builder_impl.add_value text l = assert_error
        /\ layer_builder_impl.add_value_without_dup_check text l = assert_error)
  /\ ((exists r, feature_builder.set_string_id text (feature_builder.new l) l = returns r)
      <-> layer_builder_impl.m_version l = 3)
  /\ ((exists r, layer_builder_impl.add_string_value text l = returns r)
      <-> layer_builder_impl.m_version l = 3)
  /\ ((exists r, layer_builder_impl.add_double_value value l = returns r)
      <-> layer_builder_impl.m_version l = 3)
  /\ ((exists r, layer_builder_impl.add_float_value value l = returns r)
      <-> layer_builder_impl.m_version l = 3)
  /\ ((exists r, layer_builder_impl.add_int_value value l = returns r)
      <-> layer_builder_impl.m_version l = 3).
Proof.
  unfold feature_builder.set_string_id, layer_builder_impl.add_string_value,
    layer_builder_impl.add_string_value_without_dup_check,
    layer_builder_impl.add_double_value, layer_builder_impl.add_float_value,
    layer_builder_impl.add_int_value,
    layer_builder_impl.add_double_value_without_dup_check,
    layer_builder_impl.add_float_value_without_dup_check,
    layer_builder_impl.add_int_value_without_dup_check,
    layer_builder_impl.add_value, layer_builder_impl.add_value_without_dup_check,
    layer_builder_impl.version.
  cbn [feature_builder.new feature_builder.m_state bool_decide decide_rel
       vtzero_assert bind].
  destruct (N.eqb_spec (layer_builder_impl.m_version l) 3) as [Heq|Hne].
  - rewrite Heq. cbn [N.ltb N.compare Pos.compare Pos.compare_cont vtzero_assert bind].
    split; [intros H; lia|]. split; [intros _; split; reflexivity|].
    repeat split; trivial; intros _.
    + eexists. reflexivity.
    + destruct (string_table.add text _). eexists. reflexivity.
    + destruct (std_find _ _ _); eexists; reflexivity.
    + destruct (std_find _ _ _); eexists; reflexivity.
    + destruct (std_find _ _ _); eexists; reflexivity.
  - cbn [vtzero_assert bind].
    split; [intros _; repeat split; reflexivity|].
    split; [intros H; contradiction|].
    repeat split; trivial; try contradiction; intros [r Hr]; discriminate.
Qed.

Lemma C6_witness :
  feature_builder.set_string_id sample_text
    (feature_builder.new (layer_builder_impl.new sample_text 2 4096))
    (layer_builder_impl.new sample_text 2 4096) = assert_error
  /\ layer_builder_impl.add_double_value double_19
       (layer_builder_impl.new sample_text 2 4096) = assert_error
  /\ layer_builder_impl.add_value (encoded_property_value.of_int 19)
       (layer_builder_impl.new sample_text 3 4096) = assert_error
  /\ (exists r, layer_builder_impl.add_int_value 19
                  (layer_builder_impl.new sample_text 3 4096) = returns r).
Proof.
  destruct (C6_version_gating (layer_builder_impl.new sample_text 2 4096)
              sample_text double_19) as (Hlow & _).
  destruct (C6_version_gating (layer_builder_impl.new sample_text 3 4096)
              (encoded_property_value.of_int 19) 19)
    as (_ & Hv3 & _ & _ & _ & _ & Hint).
  destruct Hlow as (Hsid & _ & _ & Hdouble & _); [reflexivity|].
  destruct Hv3 as [Hvalue _]; [reflexivity|].
  split; [exact Hsid|]. split; [exact Hdouble|]. split; [exact Hvalue|].
  apply Hint. reflexivity.
Defined.

(** ** The interning threshold *)

(** [find] once the table is past the threshold. *)
Lemma find_map_mode (text : bytes) (tbl : string_table.t) :
  string_table.max_entries_flat <= string_table.m_num tbl ->
  let map0 := if decide (string_table.m_index tbl = ∅)
              then string_table.populate_index (string_table.m_data tbl)
                     (string_table.m_index tbl)
              else string_table.m_index tbl in
  let appended :=
    (string_table.m_num tbl,
     string_table.mk
       (string_table.m_data tbl ++ pbf.add_bytes (string_table.m_pbf_type tbl) text)
       (<[text := string_table.m_num tbl]> map0)
       (to_uint32 (string_table.m_num tbl + 1))
       (string_table.m_pbf_type tbl)) in
  string_table.find text tbl
  = match map0 !! text with
    | Some v => if index_value.valid v then (v, string_table.set_index map0 tbl)
                else appended
    | None => appended
    end.
Proof.
  intros Hge map0 appended. unfold string_table.find.
  destruct (N.ltb_spec (string_table.m_num tbl) string_table.max_entries_flat) as [Hlt|_]; [lia|].
  fold map0. unfold string_table.subscript.
  destruct (map0 !! text) as [v|] eqn:El.
  - destruct (index_value.valid v); reflexivity.
  - rewrite index_valid_invalid. cbn [negb string_table.add_without_dup_check
      string_table.set_index string_table.m_data string_table.m_index
      string_table.m_num string_table.m_pbf_type].
    rewrite insert_insert_eq. reflexivity.
Qed.

Lemma populate_list_index (es : list bytes) (s : bytes) (i : index_value.t) :
  N.of_nat (length es) <= index_value.invalid ->
  populate_list es 0 ∅ !! s = Some i -> es !! N.to_nat i = Some s.
Proof.
  intros Hr Hl. apply populate_list_lookup in Hl; [|lia].
  destruct Hl as [(k & -> & Hk)|[Hl _]].
  - rewrite N.add_0_l, Nat2N.id. exact Hk.
  - rewrite lookup_empty in Hl. discriminate.
Qed.

Lemma threshold_sim_new (tag : N) :
  threshold_sim (string_table.new tag) (hashed_table.new tag) [].
Proof.
  split; try reflexivity.
  - apply table_inv_new.
  - constructor.
  - left. reflexivity.
Qed.

Lemma threshold_sim_step (text : bytes) (tbl : string_table.t) (h : hashed_table.t)
    (es : list bytes) :
  threshold_sim tbl h es -> N.of_nat (length es) < index_value.invalid ->
  fst (string_table.add text tbl) = fst (hashed_table.add text h)
  /\ exists es',
       threshold_sim (snd (string_table.add text tbl)) (snd (hashed_table.add text h)) es'
       /\ (length es' <= S (length es))%nat.
Proof.
  intros [Hinv Hnd Hdata Hnum Htype Hidx Hlazy] Hroom.
  pose proof Hinv as [Hd Hn Hr Hi Hf].
  assert (Hmap0 : string_table.max_entries_flat <= string_table.m_num tbl ->
                  (if decide (string_table.m_index tbl = ∅)
                   then string_table.populate_index (string_table.m_data tbl)
                          (string_table.m_index tbl)
                   else string_table.m_index tbl) = populate_list es 0 ∅).
  { intros _. destruct (decide (string_table.m_index tbl = ∅)) as [He|Hne].
    - rewrite He, Hd, populate_index_bytes. reflexivity.
    - destruct Hlazy as [He|Hl]; [contradiction|exact Hl]. }
  unfold hashed_table.add. rewrite Hidx.
  destruct (populate_list es 0 ∅ !! text) as [i|] eqn:El.
  - (* the text is an entry *)
    pose proof (populate_list_index es text i Hr El) as Hl.
    pose proof (lookup_index_lt _ _ _ Hl) as Hlt.
    cbn [fst snd]. rewrite add_unfold.
    destruct (N.lt_ge_cases (string_table.m_num tbl) string_table.max_entries_flat) as [Hflat|Hge].
    + assert (Hfind : string_table.find text tbl = (i, tbl)).
      { unfold string_table.find. apply N.ltb_lt in Hflat. rewrite Hflat.
        rewrite Hd, find_in_table_bytes.
        destruct (scan_spec text es 0) as [[_ Hnotin]|(k & Hs & Hk & _)]; [lia| |].
        - exfalso. apply Hnotin. eapply list_elem_of_lookup_2, Hl.
        - rewrite Hs, N.add_0_l. f_equal.
          rewrite <- (N2Nat.id i). f_equal.
          eapply NoDup_lookup; eauto. }
      rewrite Hfind. cbn [fst snd]. rewrite index_valid_lt by lia. cbn [fst snd].
      split; [reflexivity|]. exists es. split; [|lia]. split; assumption.
    + rewrite (find_map_mode text tbl Hge). cbn zeta. rewrite (Hmap0 Hge), El.
      rewrite !(index_valid_lt i) by lia. cbn [fst snd].
      rewrite !(index_valid_lt i) by lia.
      cbn [fst snd]. split; [reflexivity|]. exists es. split; [|lia].
      split; cbn [string_table.set_index string_table.m_data string_table.m_num
                  string_table.m_index string_table.m_pbf_type]; trivial.
      * split; cbn [string_table.m_data string_table.m_num string_table.set_index
                    string_table.m_index string_table.m_pbf_type]; trivial.
        -- intros s j. apply populate_list_index, Hr.
        -- intros Hlt'. lia.
      * right. reflexivity.
  - (* the text is new *)
    assert (Hnotin : text ∉ es).
    { intros Hin. destruct (populate_list_complete es 0 ∅ text Hin) as [x Hx]. congruence. }
    assert (Hnd' : NoDup (es ++ [text])).
    { apply list.NoDup_app. split; [exact Hnd|].
      split; [|apply NoDup_singleton].
      intros x Hx ->%list_elem_of_singleton. contradiction. }
    assert (Hsnoc : <[text := string_table.m_num tbl]> (populate_list es 0 ∅)
                    = populate_list (es ++ [text]) 0 ∅).
    { rewrite populate_list_snoc by lia. rewrite Hn, N.add_0_l. reflexivity. }
    cbn [fst snd]. rewrite add_unfold.
    destruct (N.lt_ge_cases (string_table.m_num tbl) string_table.max_entries_flat) as [Hflat|Hge].
    + assert (Hfind : string_table.find text tbl = (index_value.invalid, tbl)).
      { unfold string_table.find. pose proof Hflat as Hflat'.
        apply N.ltb_lt in Hflat'. rewrite Hflat'.
        rewrite Hd, find_in_table_bytes.
        destruct (scan_spec text es 0) as [[Hs _]|(k & _ & Hk & _)]; [lia| |].
        - rewrite Hs. reflexivity.
        - exfalso. apply Hnotin. eapply list_elem_of_lookup_2, Hk. }
      rewrite Hfind. cbn [fst snd]. rewrite index_valid_invalid.
      destruct (add_without_dup_check_inv text tbl es Hinv Hroom) as [_ Hinv'].
      split; [symmetry; exact Hnum|]. exists (es ++ [text]).
      split; [|rewrite length_app; simpl; lia].
      split; trivial;
        cbn [snd string_table.add_without_dup_check string_table.m_data
             string_table.m_num string_table.m_index string_table.m_pbf_type
             hashed_table.data hashed_table.num hashed_table.index
             hashed_table.pbf_type].
      * rewrite Hdata, Htype. reflexivity.
      * rewrite Hnum. reflexivity.
      * rewrite Hnum. exact Hsnoc.
      * left. apply Hf, Hflat.
    + rewrite (find_map_mode text tbl Hge). cbn zeta. rewrite (Hmap0 Hge), El.
      cbn [fst snd]. rewrite Hn, (index_valid_lt (N.of_nat (length es))) by lia.
      cbn [fst snd].
      split; [rewrite Hnum, Hn; reflexivity|]. exists (es ++ [text]).
      split; [|rewrite length_app; simpl; lia].
      assert (Hn' : to_uint32 (N.of_nat (length es) + 1)
                    = N.of_nat (length (es ++ [text]))).
      { rewrite to_uint32_small by lia. rewrite length_app. simpl. lia. }
      rewrite <- Hn, Hsnoc.
      split; cbn [string_table.m_data string_table.m_num string_table.m_index
                  string_table.m_pbf_type hashed_table.data hashed_table.num
                  hashed_table.index hashed_table.pbf_type]; trivial.
      * split; cbn [string_table.m_data string_table.m_num string_table.m_index
                    string_table.m_pbf_type].
        -- rewrite Hd, table_bytes_snoc. reflexivity.
        -- rewrite Hn. exact Hn'.
        -- rewrite length_app. simpl. lia.
        -- intros s j. apply populate_list_index. rewrite length_app. simpl. lia.
        -- rewrite Hn, Hn', length_app. simpl. intros Hlt'. lia.
      * rewrite Hdata, Htype. reflexivity.
      * rewrite Hnum. reflexivity.
      * rewrite Hnum. exact Hsnoc.
      * right. reflexivity.
Qed.

Lemma hashed_add_all_cons (text : bytes) (texts : list bytes) (h : hashed_table.t) :
  hashed_add_all (text :: texts) h
  = (fst (hashed_table.add text h) :: fst (hashed_add_all texts (snd (hashed_table.add text h))),
     snd (hashed_add_all texts (snd (hashed_table.add text h)))).
Proof.
  cbn [hashed_add_all]. destruct (hashed_table.add text h) as [i h1]. cbn [fst snd].
  destruct (hashed_add_all texts h1); reflexivity.
Qed.

Lemma threshold_sim_run (texts : list bytes) (tbl : string_table.t)
    (h : hashed_table.t) (es : list bytes) :
  threshold_sim tbl h es ->
  N.of_nat (length es) + N.of_nat (length texts) <= index_value.invalid ->
  fst (table_run (map call_add texts) tbl) = fst (hashed_add_all texts h)
  /\ exists es',
       threshold_sim (snd (table_run (map call_add texts) tbl))
         (snd (hashed_add_all texts h)) es'.
Proof.
  revert tbl h es. induction texts as [|text texts IH]; intros tbl h es Hsim Hroom.
  - split; [reflexivity|]. exists es. exact Hsim.
  - cbn [length map] in *. rewrite table_run_cons, hashed_add_all_cons.
    cbn [fst snd table_apply].
    destruct (threshold_sim_step text tbl h es Hsim) as [Hi (es1 & Hsim1 & Hlen)]; [lia|].
    destruct (IH _ _ es1 Hsim1) as [Hids Hsim']; [lia|].
    split; [rewrite Hi, Hids; reflexivity|exact Hsim'].
Qed.

(** C5: the interning threshold is not observable.  For every sequence of
    texts passed to [add_key] (that is, to [add] of the keys table), the
    indices returned by the table of the source, which scans the
    serialized bytes below 20 entries and builds its hash map from them
    when the 20th is in, and the final serialized table are those of a
    table that uses the hash map from the start. *)
Theorem C5_threshold_not_observable (tag : N) (texts : list bytes) :
  N.of_nat (length texts) <= index_value.invalid ->
  fst (table_run (map call_add texts) (string_table.new tag))
    = fst (hashed_add_all texts (hashed_table.new tag))
  /\ string_table.data (snd (table_run (map call_add texts) (string_table.new tag)))
     = hashed_table.data (snd (hashed_add_all texts (hashed_table.new tag))).
Proof.
  intros Hroom.
  destruct (threshold_sim_run texts _ _ [] (threshold_sim_new tag)) as [Hids (es' & Hsim)];
    [simpl; lia|].
  split; [exact Hids|]. destruct Hsim as [_ _ Hdata _ _ _ _]. symmetry. exact Hdata.
Qed.

Lemma C5_witness :
  fst (table_run (map call_add (sample_texts 25 ++ sample_texts 25))
         (string_table.new pbf_layer.keys))
    = map N.of_nat (seq 0 25 ++ seq 0 25)
  /\ fst (hashed_add_all (sample_texts 25 ++ sample_texts 25)
            (hashed_table.new pbf_layer.keys))
     = map N.of_nat (seq 0 25 ++ seq 0 25).
Proof.
  destruct (C5_threshold_not_observable pbf_layer.keys
              (sample_texts 25 ++ sample_texts 25)) as [Hids _];
    [vm_compute; discriminate|].
  split; [|rewrite <- Hids]; vm_compute; reflexivity.
Defined.

(** ** The tile builder *)

Lemma serialize_app (tb1 tb2 : tile_builder.t) :
  tile_builder.serialize (tb1 ++ tb2)
  = fold_left (fun data l => tile_builder.build l data) tb2 (tile_builder.serialize tb1).
Proof. unfold tile_builder.serialize. apply fold_left_app. Qed.

Lemma build_empty_layer (l : layer_builder_impl.t) (pbf_tile_builder : bytes) :
  layer_builder_impl.m_num_features l = 0 ->
  layer_builder_impl.build l pbf_tile_builder = pbf_tile_builder.
Proof. intros H. unfold layer_builder_impl.build. rewrite H. reflexivity. Qed.

(** C3: a layer with zero features leaves no byte in the tile.  A tile
    builder with a fresh layer whose feature count is zero serializes to
    the bytes of the same tile builder without that layer, wherever the
    layer stands in the list; a layer that was just registered is such a
    layer. *)
Theorem C3_empty_layer_suppressed (before after : tile_builder.t)
    (l : layer_builder_impl.t) :
  layer_builder_impl.m_num_features l = 0 ->
  tile_builder.serialize (before ++ tile_builder.fresh l :: after)
    = tile_builder.serialize (before ++ after)
  /\ (forall name version extent,
        tile_builder.serialize (tile_builder.add_layer name version extent before)
        = tile_builder.serialize before).
Proof.
  intros Hzero. split.
  - rewrite !serialize_app. cbn [fold_left tile_builder.build].
    rewrite build_empty_layer by exact Hzero. reflexivity.
  - intros name version extent. unfold tile_builder.add_layer.
    rewrite serialize_app. cbn [fold_left tile_builder.build].
    apply build_empty_layer. reflexivity.
Qed.

Lemma serialize_existing (ls : list bytes) (acc : bytes) :
  fold_left (fun data l => tile_builder.build l data)
    (map (fun d => tile_builder.existing (layer_builder_existing.mk d)) ls) acc
  = acc ++ table_bytes pbf_tile.layers ls.
Proof.
  revert acc. induction ls as [|d ls IH]; intros acc.
  - simpl. rewrite app_nil_r. reflexivity.
  - cbn [map fold_left tile_builder.build layer_builder_existing.build
         layer_builder_existing.m_data].
    rewrite IH. unfold table_bytes. cbn [map concat]. rewrite app_assoc. reflexivity.
Qed.

Lemma add_existing_layers (ls : list bytes) (tb : tile_builder.t) :
  fold_left (fun tb d => tile_builder.add_existing_layer d tb) ls tb
  = tb ++ map (fun d => tile_builder.existing (layer_builder_existing.mk d)) ls.
Proof.
  revert tb. induction ls as [|d ls IH]; intros tb.
  - simpl. rewrite app_nil_r. reflexivity.
  - cbn [fold_left map]. rewrite IH. unfold tile_builder.add_existing_layer.
    rewrite <- app_assoc. reflexivity.
Qed.

Lemma C3_witness :
  layer_builder_impl.m_num_features sample_rolled_back_layer = 0
  /\ string_table.entries (layer_builder_impl.m_keys_table sample_rolled_back_layer)
     = [sample_text]
  /\ tile_builder.serialize
       ([tile_builder.existing (layer_builder_existing.mk sample_text)]
          ++ tile_builder.fresh sample_rolled_back_layer
          :: [tile_builder.existing (layer_builder_existing.mk [])])
     = tile_builder.serialize
         ([tile_builder.existing (layer_builder_existing.mk sample_text)]
            ++ [tile_builder.existing (layer_builder_existing.mk [])]).
Proof.
  split; [vm_compute; reflexivity|]. split; [vm_compute; reflexivity|].
  apply (C3_empty_layer_suppressed
           [tile_builder.existing (layer_builder_existing.mk sample_text)]
           [tile_builder.existing (layer_builder_existing.mk [])]
           sample_rolled_back_layer).
  vm_compute. reflexivity.
Defined.

(** ** More on the readers *)

Lemma find_varint_loop_fuel (tag : N) (f1 f2 : nat) (data : bytes) :
  (length data <= f1)%nat -> (length data <= f2)%nat ->
  pbf.find_varint_loop f1 tag data = pbf.find_varint_loop f2 tag data.
Proof.
  revert f2 data. induction f1 as [|f1 IH]; intros f2 data H1 H2.
  - destruct data; [|simpl in H1; lia]. destruct f2; reflexivity.
  - destruct f2 as [|f2].
    { destruct data; [reflexivity|simpl in H2; lia]. }
    cbn [pbf.find_varint_loop].
    destruct (pbf.next data) as [[[t w] rest]|] eqn:En; [|reflexivity].
    apply next_shorter in En.
    destruct ((t =? tag) && (w =? pbf.wire_varint)); [reflexivity|].
    destruct (pbf.skip w rest) as [rest'|] eqn:Es; [|reflexivity].
    apply skip_shorter in Es. apply IH; lia.
Qed.

Lemma find_varint_nil (tag : N) : pbf.find_varint tag [] = None.
Proof. reflexivity. Qed.

Lemma length_cons_app_le (A : Type) (x : A) (d pre rest : list A) :
  pre ++ rest = x :: d -> pre <> [] -> (length rest <= length d)%nat.
Proof.
  intros Hd Hne. apply (f_equal length) in Hd. rewrite length_app in Hd.
  destruct pre; [congruence|]. simpl in Hd. lia.
Qed.

Lemma add_varint_nonempty (t v : N) : pbf.add_varint t v <> [].
Proof.
  unfold pbf.add_varint. intros H. apply app_eq_nil in H as [H _].
  exact (write_varint_nonempty _ H).
Qed.

Lemma find_varint_add_varint (tag t v : N) (rest : bytes) :
  pbf.find_varint tag (pbf.add_varint t v ++ rest)
  = if t =? tag then Some v else pbf.find_varint tag rest.
Proof.
  unfold pbf.find_varint.
  destruct (pbf.add_varint t v ++ rest) as [|b d] eqn:Ed.
  { apply app_eq_nil in Ed as [Ed _]. destruct (add_varint_nonempty _ _ Ed). }
  pose proof (length_cons_app_le _ _ _ _ _ Ed (add_varint_nonempty t v)) as Hlen.
  cbn [length pbf.find_varint_loop]. rewrite <- Ed, next_add_varint.
  rewrite N.eqb_refl, andb_true_r. destruct (t =? tag).
  - rewrite decode_write_varint. reflexivity.
  - rewrite skip_varint, decode_write_varint. apply find_varint_loop_fuel; lia.
Qed.

Lemma find_varint_add_bytes (tag t : N) (v rest : bytes) :
  pbf.find_varint tag (pbf.add_bytes t v ++ rest) = pbf.find_varint tag rest.
Proof.
  unfold pbf.find_varint.
  destruct (pbf.add_bytes t v ++ rest) as [|b d] eqn:Ed.
  { apply app_eq_nil in Ed as [Ed _]. destruct (add_bytes_nonempty _ _ Ed). }
  pose proof (length_cons_app_le _ _ _ _ _ Ed (add_bytes_nonempty t v)) as Hlen.
  cbn [length pbf.find_varint_loop]. rewrite <- Ed, next_add_bytes.
  change (pbf.wire_length_delimited =? pbf.wire_varint) with false.
  rewrite andb_false_r, skip_length_delimited, get_view_written.
  apply find_varint_loop_fuel; lia.
Qed.

Lemma length_packed (vs : list N) :
  (length vs <= length (concat (map pbf.write_varint vs)))%nat.
Proof.
  induction vs as [|v vs IH]; [simpl; lia|].
  cbn [map concat]. rewrite length_app.
  pose proof (write_varint_nonempty v).
  destruct (pbf.write_varint v); [congruence|simpl; lia].
Qed.

Lemma packed_varints_loop_written (vs : list N) (fuel : nat) :
  (length vs <= fuel)%nat ->
  pbf.packed_varints_loop fuel (concat (map pbf.write_varint vs)) = Some vs.
Proof.
  revert fuel. induction vs as [|v vs IH]; intros fuel Hf.
  - destruct fuel; reflexivity.
  - destruct fuel as [|fuel]; [simpl in Hf; lia|].
    cbn [map concat pbf.packed_varints_loop].
    destruct (pbf.write_varint v ++ concat (map pbf.write_varint vs)) as [|b d] eqn:Ed.
    { apply app_eq_nil in Ed as [Ed _]. destruct (write_varint_nonempty _ Ed). }
    rewrite <- Ed, decode_write_varint, IH by (simpl in Hf; lia). reflexivity.
Qed.

Lemma packed_varints_written (vs : list N) :
  pbf.packed_varints (concat (map pbf.write_varint vs)) = Some vs.
Proof. apply packed_varints_loop_written, length_packed. Qed.

Lemma views_table_bytes_app (tag t : N) (es : list bytes) (rest : bytes) :
  pbf.views tag (table_bytes t es ++ rest)
  = match pbf.views tag rest with
    | Some vs => Some ((if t =? tag then es else []) ++ vs)
    | None => None
    end.
Proof.
  induction es as [|e es IH].
  - simpl. destruct (pbf.views tag rest); [|reflexivity]. destruct (t =? tag); reflexivity.
  - unfold table_bytes in *. cbn [map concat]. rewrite <- app_assoc, views_add_bytes, IH.
    destruct (pbf.views tag rest); [|reflexivity]. destruct (t =? tag); reflexivity.
Qed.

(** ** Tables stay well formed, whatever their size *)

Lemma find_data (text : bytes) (tbl : string_table.t) :
  exists es',
    string_table.m_data (snd (string_table.find text tbl))
    = string_table.m_data tbl ++ table_bytes (string_table.m_pbf_type tbl) es'
    /\ string_table.m_pbf_type (snd (string_table.find text tbl))
       = string_table.m_pbf_type tbl.
Proof.
  destruct (N.lt_ge_cases (string_table.m_num tbl) string_table.max_entries_flat) as [Hlt|Hge].
  - unfold string_table.find. apply N.ltb_lt in Hlt. rewrite Hlt.
    exists []. cbn. rewrite app_nil_r. split; reflexivity.
  - rewrite (find_map_mode text tbl Hge). cbn zeta.
    match goal with |- context [?m !! text] => destruct (m !! text) as [v|] end.
    + destruct (index_value.valid v).
      * exists []. cbn. rewrite app_nil_r. split; reflexivity.
      * exists [text]. cbn. rewrite app_nil_r. split; reflexivity.
    + exists [text]. cbn. rewrite app_nil_r. split; reflexivity.
Qed.

Lemma add_data (text : bytes) (tbl : string_table.t) :
  exists es',
    string_table.m_data (snd (string_table.add text tbl))
    = string_table.m_data tbl ++ table_bytes (string_table.m_pbf_type tbl) es'
    /\ string_table.m_pbf_type (snd (string_table.add text tbl))
       = string_table.m_pbf_type tbl.
Proof.
  rewrite add_unfold. destruct (find_data text tbl) as (es' & Hd & Hp).
  destruct (index_value.valid (fst (string_table.find text tbl))).
  - exists es'. split; assumption.
  - exists (es' ++ [text]).
    cbn [snd string_table.add_without_dup_check string_table.m_data
         string_table.m_pbf_type].
    rewrite Hd, Hp, table_bytes_snoc, app_assoc. split; reflexivity.
Qed.

Lemma table_wf_add (text : bytes) (tbl : string_table.t) (tag : N) :
  table_wf tbl tag -> table_wf (snd (string_table.add text tbl)) tag.
Proof.
  intros [Hp (es & Hd)]. destruct (add_data text tbl) as (es' & Hd' & Hp').
  split; [congruence|]. exists (es ++ es').
  rewrite Hd', Hd, Hp, table_bytes_app. reflexivity.
Qed.

Lemma table_wf_new (tag : N) : table_wf (string_table.new tag) tag.
Proof. split; [reflexivity|]. exists []. reflexivity. Qed.

Lemma tables_wf_new (name : bytes) (version extent : N) :
  tables_wf (layer_builder_impl.new name version extent).
Proof. split; try reflexivity; apply table_wf_new. Qed.

(** ** The feature builder *)

Lemma tables_wf_message_append (d : bytes) (l : layer_builder_impl.t) :
  tables_wf l -> tables_wf (layer_builder_impl.message_append d l).
Proof. intros [H1 H2 H3 H4 H5 H6]. split; assumption. Qed.

Lemma apply_call_spec (c : feature_builder.call) (fb fb' : feature_builder.t)
    (l l' : layer_builder_impl.t) :
  feature_builder.apply_call c fb l = returns (fb', l') ->
  layer_builder_impl.m_data l' = layer_builder_impl.m_data l ++ call_bytes c
  /\ (tables_wf l -> tables_wf l')
  /\ layer_builder_impl.m_num_features l' = layer_builder_impl.m_num_features l
  /\ layer_builder_impl.m_version l' = layer_builder_impl.m_version l
  /\ feature_builder.m_mark fb' = feature_builder.m_mark fb
  /\ feature_builder.m_count fb' = feature_builder.m_count fb
  /\ next_state (feature_builder.m_state fb) c = Some (feature_builder.m_state fb').
Proof.
  intros Hrun. destruct fb as [s mark count tags].
  destruct c as [id|id|x y|key value]; cbn [feature_builder.apply_call] in Hrun.
  - unfold feature_builder.set_integer_id in Hrun.
    destruct s; cbn in Hrun; try discriminate. injection Hrun as <- <-.
    split; [reflexivity|]. split; [apply tables_wf_message_append|].
    repeat split.
  - unfold feature_builder.set_string_id in Hrun.
    destruct s; cbn in Hrun; try discriminate.
    destruct (layer_builder_impl.version l =? 3); cbn in Hrun; [|discriminate].
    injection Hrun as <- <-.
    split; [reflexivity|]. split; [apply tables_wf_message_append|].
    repeat split.
  - unfold feature_builder.add_point in Hrun.
    destruct s; cbn in Hrun; try discriminate; injection Hrun as <- <-;
      (split; [reflexivity|]); (split; [apply tables_wf_message_append|]);
      repeat split.
  - unfold feature_builder.add_property in Hrun.
    assert (Hs : s = feature_builder.GEOM_SET \/ s = feature_builder.ATTRS_SET).
    { destruct s; cbn in Hrun; try discriminate; auto. }
    assert (Hrun' :
      (let '(ki, layer) := layer_builder_impl.add_key key l in
       p <-- layer_builder_impl.add_value value layer ;;
       let '(vi, layer0) := p in
       returns (feature_builder.mk feature_builder.ATTRS_SET mark count (tags ++ [ki; vi]),
                layer0)) = returns (fb', l')).
    { destruct Hs as [-> | ->]; exact Hrun. }
    clear Hrun. unfold layer_builder_impl.add_key, layer_builder_impl.add_value in Hrun'.
    pose proof (table_wf_add key (layer_builder_impl.m_keys_table l) pbf_layer.keys) as Hk.
    pose proof (table_wf_add value (layer_builder_impl.m_values_table l) pbf_layer.values) as Hv.
    destruct (string_table.add key (layer_builder_impl.m_keys_table l)) as [ki kt].
    cbn [layer_builder_impl.set_keys_table layer_builder_impl.m_version
         layer_builder_impl.m_values_table] in Hrun'.
    destruct (layer_builder_impl.m_version l <? 3); cbn in Hrun'; [|discriminate].
    destruct (string_table.add value (layer_builder_impl.m_values_table l)) as [vi vt].
    cbn in Hrun'. injection Hrun' as <- <-. cbn. rewrite app_nil_r.
    split; [reflexivity|]. split.
    { intros Hwf. split; cbn; [apply Hk|apply Hv|..]; apply Hwf. }
    repeat split; trivial. destruct Hs as [-> | ->]; reflexivity.
Qed.

Lemma apply_calls_spec (cs : list feature_builder.call) (fb fb' : feature_builder.t)
    (l l' : layer_builder_impl.t) :
  feature_builder.apply_calls cs fb l = returns (fb', l') ->
  layer_builder_impl.m_data l'
    = layer_builder_impl.m_data l ++ concat (map call_bytes cs)
  /\ (tables_wf l -> tables_wf l')
  /\ layer_builder_impl.m_num_features l' = layer_builder_impl.m_num_features l
  /\ layer_builder_impl.m_version l' = layer_builder_impl.m_version l
  /\ feature_builder.m_mark fb' = feature_builder.m_mark fb
  /\ feature_builder.m_count fb' = feature_builder.m_count fb
  /\ run_state (feature_builder.m_state fb) cs = Some (feature_builder.m_state fb').
Proof.
  revert fb l. induction cs as [|c cs IH]; intros fb l Hrun.
  - injection Hrun as <- <-. cbn. rewrite app_nil_r.
    split; [reflexivity|]. split; [auto|]. repeat split.
  - cbn [feature_builder.apply_calls] in Hrun.
    destruct (feature_builder.apply_call c fb l) as [[fb1 l1]|] eqn:Ec; [|discriminate].
    cbn [bind fst snd] in Hrun.
    destruct (apply_call_spec c fb fb1 l l1 Ec) as (Hd1 & Hwf1 & Hn1 & Hv1 & Hm1 & Hc1 & Hs1).
    destruct (IH fb1 l1 Hrun) as (Hd & Hwf' & Hn & Hv & Hm & Hc & Hs).
    cbn [map concat run_state]. rewrite Hs1.
    split; [rewrite Hd, Hd1, <- app_assoc; reflexivity|].
    split; [auto|]. repeat split; congruence.
Qed.

(** *** The tags of a builder lead to the properties it was given *)

Lemma read_tags_snoc (keys values : list bytes) (tags : list N)
    (ps : list (bytes * bytes)) (k v : N) (key value : bytes) :
  vector_tile.read_tags keys values tags = Some ps ->
  keys !! N.to_nat k = Some key ->
  values !! N.to_nat v = Some value ->
  vector_tile.read_tags keys values (tags ++ [k; v]) = Some (ps ++ [(key, value)]).
Proof.
  intros Hr Hk Hv. revert tags Hr.
  induction ps as [|p ps IH]; intros [|k0 [|v0 tags]] Hr;
    cbn [vector_tile.read_tags] in Hr; try discriminate.
  - cbn. rewrite Hk, Hv. reflexivity.
  - destruct (keys !! N.to_nat k0), (values !! N.to_nat v0),
      (vector_tile.read_tags keys values tags); discriminate.
  - destruct (keys !! N.to_nat k0) as [key0|] eqn:Ek; [|discriminate].
    destruct (values !! N.to_nat v0) as [value0|] eqn:Ev; [|discriminate].
    destruct (vector_tile.read_tags keys values tags) as [ps0|] eqn:Er; [|discriminate].
    injection Hr as <- <-.
    cbn [app vector_tile.read_tags]. rewrite Ek, Ev, (IH tags Er). reflexivity.
Qed.

Lemma read_tags_prefix (keys keys' values values' : list bytes) (tags : list N)
    (ps : list (bytes * bytes)) :
  keys `prefix_of` keys' -> values `prefix_of` values' ->
  vector_tile.read_tags keys values tags = Some ps ->
  vector_tile.read_tags keys' values' tags = Some ps.
Proof.
  intros Hk Hv. revert tags.
  induction ps as [|p ps IH]; intros [|k0 [|v0 tags]] Hr;
    cbn [vector_tile.read_tags] in Hr; try discriminate.
  - reflexivity.
  - destruct (keys !! N.to_nat k0), (values !! N.to_nat v0),
      (vector_tile.read_tags keys values tags); discriminate.
  - destruct (keys !! N.to_nat k0) as [key0|] eqn:Ek; [|discriminate].
    destruct (values !! N.to_nat v0) as [value0|] eqn:Ev; [|discriminate].
    destruct (vector_tile.read_tags keys values tags) as [ps0|] eqn:Er; [|discriminate].
    injection Hr as <- <-. cbn [vector_tile.read_tags].
    rewrite (prefix_lookup_Some _ _ _ _ Ek Hk), (prefix_lookup_Some _ _ _ _ Ev Hv),
      (IH tags Er).
    reflexivity.
Qed.

Lemma properties_described_cons (c : feature_builder.call)
    (cs : list feature_builder.call) :
  vector_tile.properties (feature_builder.described (c :: cs))
  = vector_tile.properties (feature_builder.described [c])
    ++ vector_tile.properties (feature_builder.described cs).
Proof. destruct c; reflexivity. Qed.

Lemma add_position_prefix (text : bytes) (tbl : string_table.t) (es : list bytes) :
  table_inv tbl es -> N.of_nat (length es) < index_value.invalid ->
  exists es',
    table_inv (snd (string_table.add text tbl)) es'
    /\ es' !! N.to_nat (fst (string_table.add text tbl)) = Some text
    /\ es `prefix_of` es'
    /\ (length es' <= length es + 1)%nat.
Proof.
  intros Hinv Hroom.
  destruct (add_spec_position text tbl es Hinv Hroom) as (es' & Hinv' & Hl & _ & Hes).
  exists es'. split; [exact Hinv'|]. split; [exact Hl|].
  destruct Hes as [[-> _]|[-> _]].
  - split; [reflexivity|lia].
  - split; [apply prefix_app_r; reflexivity|]. rewrite length_app. simpl. lia.
Qed.

Lemma apply_call_tables (c : feature_builder.call) (fb fb' : feature_builder.t)
    (l l' : layer_builder_impl.t) (kes ves : list bytes) (ps : list (bytes * bytes)) :
  feature_builder.apply_call c fb l = returns (fb', l') ->
  table_inv (layer_builder_impl.m_keys_table l) kes ->
  table_inv (layer_builder_impl.m_values_table l) ves ->
  N.of_nat (length kes) < index_value.invalid ->
  N.of_nat (length ves) < index_value.invalid ->
  vector_tile.read_tags kes ves (feature_builder.m_tags fb) = Some ps ->
  exists kes' ves',
    table_inv (layer_builder_impl.m_keys_table l') kes'
    /\ table_inv (layer_builder_impl.m_values_table l') ves'
    /\ kes `prefix_of` kes' /\ ves `prefix_of` ves'
    /\ (length kes' <= length kes + 1)%nat
    /\ (length ves' <= length ves + 1)%nat
    /\ (ves' = ves \/ layer_builder_impl.m_version l < 3)
    /\ vector_tile.read_tags kes' ves' (feature_builder.m_tags fb')
       = Some (ps ++ vector_tile.properties (feature_builder.described [c])).
Proof.
  intros Hrun Hk Hv Hkroom Hvroom Hps. destruct fb as [s mark count tags].
  cbn [feature_builder.m_tags] in Hps.
  assert (Hsame : forall d,
    exists kes' ves',
      table_inv (layer_builder_impl.m_keys_table
                   (layer_builder_impl.message_append d l)) kes'
      /\ table_inv (layer_builder_impl.m_values_table
                      (layer_builder_impl.message_append d l)) ves'
      /\ kes `prefix_of` kes' /\ ves `prefix_of` ves'
      /\ (length kes' <= length kes + 1)%nat
      /\ (length ves' <= length ves + 1)%nat
      /\ (ves' = ves \/ layer_builder_impl.m_version l < 3)
      /\ vector_tile.read_tags kes' ves' tags = Some (ps ++ [])).
  { intros d. exists kes, ves. rewrite app_nil_r.
    split; [exact Hk|]. split; [exact Hv|]. split; [reflexivity|].
    split; [reflexivity|]. split; [lia|]. split; [lia|]. split; [auto|exact Hps]. }
  destruct c as [id|id|x y|key value]; cbn [feature_builder.apply_call] in Hrun.
  - unfold feature_builder.set_integer_id in Hrun.
    destruct s; cbn in Hrun; try discriminate. injection Hrun as <- <-. apply Hsame.
  - unfold feature_builder.set_string_id in Hrun.
    destruct s; cbn in Hrun; try discriminate.
    destruct (layer_builder_impl.version l =? 3); cbn in Hrun; [|discriminate].
    injection Hrun as <- <-. apply Hsame.
  - unfold feature_builder.add_point in Hrun.
    destruct s; cbn in Hrun; try discriminate; injection Hrun as <- <-; apply Hsame.
  - clear Hsame. unfold feature_builder.add_property in Hrun.
    assert (Hs : s = feature_builder.GEOM_SET \/ s = feature_builder.ATTRS_SET).
    { destruct s; cbn in Hrun; try discriminate; auto. }
    assert (Hrun' :
      (let '(ki, layer) := layer_builder_impl.add_key key l in
       p <-- layer_builder_impl.add_value value layer ;;
       let '(vi, layer0) := p in
       returns (feature_builder.mk feature_builder.ATTRS_SET mark count (tags ++ [ki; vi]),
                layer0)) = returns (fb', l')).
    { destruct Hs as [-> | ->]; exact Hrun. }
    clear Hrun. unfold layer_builder_impl.add_key, layer_builder_impl.add_value in Hrun'.
    destruct (add_position_prefix key _ kes Hk Hkroom) as (kes' & Hk' & Hkl & Hkp & Hkn).
    destruct (add_position_prefix value _ ves Hv Hvroom) as (ves' & Hv' & Hvl & Hvp & Hvn).
    destruct (string_table.add key (layer_builder_impl.m_keys_table l)) as [ki kt].
    cbn [layer_builder_impl.set_keys_table layer_builder_impl.m_version
         layer_builder_impl.m_values_table] in Hrun'.
    destruct (layer_builder_impl.m_version l <? 3) eqn:Ever; cbn in Hrun'; [|discriminate].
    destruct (string_table.add value (layer_builder_impl.m_values_table l)) as [vi vt].
    cbn in Hrun'. injection Hrun' as <- <-. cbn [fst snd] in Hk', Hkl, Hv', Hvl.
    exists kes', ves'. cbn.
    split; [exact Hk'|]. split; [exact Hv'|]. split; [exact Hkp|]. split; [exact Hvp|].
    split; [exact Hkn|]. split; [exact Hvn|].
    split; [right; apply N.ltb_lt, Ever|].
    apply read_tags_snoc; [|exact Hkl|exact Hvl].
    exact (read_tags_prefix _ _ _ _ _ _ Hkp Hvp Hps).
Qed.

Lemma apply_calls_tables (cs : list feature_builder.call) (fb fb' : feature_builder.t)
    (l l' : layer_builder_impl.t) (kes ves : list bytes) (ps : list (bytes * bytes)) :
  feature_builder.apply_calls cs fb l = returns (fb', l') ->
  table_inv (layer_builder_impl.m_keys_table l) kes ->
  table_inv (layer_builder_impl.m_values_table l) ves ->
  N.of_nat (length kes) + N.of_nat (length cs) <= index_value.invalid ->
  N.of_nat (length ves) + N.of_nat (length cs) <= index_value.invalid ->
  vector_tile.read_tags kes ves (feature_builder.m_tags fb) = Some ps ->
  exists kes' ves',
    table_inv (layer_builder_impl.m_keys_table l') kes'
    /\ table_inv (layer_builder_impl.m_values_table l') ves'
    /\ kes `prefix_of` kes' /\ ves `prefix_of` ves'
    /\ (length kes' <= length kes + length cs)%nat
    /\ (length ves' <= length ves + length cs)%nat
    /\ (ves' = ves \/ layer_builder_impl.m_version l < 3)
    /\ vector_tile.read_tags kes' ves' (feature_builder.m_tags fb')
       = Some (ps ++ vector_tile.properties (feature_builder.described cs)).
Proof.
  revert fb l kes ves ps.
  induction cs as [|c cs IH]; intros fb l kes ves ps Hrun Hk Hv Hkroom Hvroom Hps.
  - injection Hrun as <- <-. exists kes, ves. cbn. rewrite app_nil_r.
    split; [exact Hk|]. split; [exact Hv|]. split; [reflexivity|].
    split; [reflexivity|]. split; [lia|]. split; [lia|]. split; [auto|exact Hps].
  - cbn [feature_builder.apply_calls] in Hrun.
    destruct (feature_builder.apply_call c fb l) as [[fb1 l1]|] eqn:Ec; [|discriminate].
    cbn [bind fst snd] in Hrun. cbn [length] in Hkroom, Hvroom.
    destruct (apply_call_spec c fb fb1 l l1 Ec) as (_ & _ & _ & Hver & _).
    destruct (apply_call_tables c fb fb1 l l1 kes ves ps Ec Hk Hv)
      as (kes1 & ves1 & Hk1 & Hv1 & Hkp1 & Hvp1 & Hkn1 & Hvn1 & Hves1 & Hps1);
      [lia|lia|exact Hps|].
    assert (Hkroom1 : N.of_nat (length kes1) + N.of_nat (length cs)
                      <= index_value.invalid) by lia.
    assert (Hvroom1 : N.of_nat (length ves1) + N.of_nat (length cs)
                      <= index_value.invalid) by lia.
    destruct (IH fb1 l1 kes1 ves1 _ Hrun Hk1 Hv1 Hkroom1 Hvroom1 Hps1)
      as (kes' & ves' & Hk' & Hv' & Hkp & Hvp & Hkn & Hvn & Hves & Hps').
    exists kes', ves'.
    split; [exact Hk'|]. split; [exact Hv'|].
    split; [transitivity kes1; assumption|]. split; [transitivity ves1; assumption|].
    split; [cbn [length]; lia|]. split; [cbn [length]; lia|].
    split.
    + rewrite Hver in Hves. destruct Hves as [->|Hlt]; [exact Hves1|right; exact Hlt].
    + rewrite (properties_described_cons c cs), Hps', app_assoc. reflexivity.
Qed.

Lemma next_state_not_done (s s' : feature_builder.state) (c : feature_builder.call) :
  next_state s c = Some s' -> s' <> feature_builder.DONE.
Proof. destruct c, s; cbn; intros [= <-]; discriminate. Qed.

Lemma run_state_not_done (s s' : feature_builder.state) (cs : list feature_builder.call) :
  run_state s cs = Some s' -> s <> feature_builder.DONE -> s' <> feature_builder.DONE.
Proof.
  revert s. induction cs as [|c cs IH]; intros s; cbn [run_state].
  - intros [= <-] H. exact H.
  - destruct (next_state s c) as [s1|] eqn:E; [|discriminate].
    intros H _. eapply IH; [exact H|]. eapply next_state_not_done, E.
Qed.

Lemma take_drop_mark (d w : bytes) :
  take (length d) (d ++ w) = d /\ drop (length d) (d ++ w) = w.
Proof. split; [apply take_app_length|apply drop_app_length]. Qed.

(** A builder that ends without a commit leaves the layer buffer and the
    feature count as they were when it was constructed. *)
Lemma run_without_commit (cs : list feature_builder.call) (e : feature_builder.ending)
    (l l' : layer_builder_impl.t) :
  e <> feature_builder.end_commit ->
  feature_builder.run (cs, e) l = returns l' ->
  layer_builder_impl.m_data l' = layer_builder_impl.m_data l
  /\ layer_builder_impl.m_num_features l' = layer_builder_impl.m_num_features l
  /\ layer_builder_impl.m_version l' = layer_builder_impl.m_version l
  /\ (tables_wf l -> tables_wf l')
  /\ exists fb1 l1,
       feature_builder.apply_calls cs (feature_builder.new l) l = returns (fb1, l1)
       /\ layer_builder_impl.m_keys_table l' = layer_builder_impl.m_keys_table l1
       /\ layer_builder_impl.m_values_table l' = layer_builder_impl.m_values_table l1.
Proof.
  intros He Hrun. unfold feature_builder.run in Hrun. cbn [fst snd] in Hrun.
  destruct (feature_builder.apply_calls cs (feature_builder.new l) l)
    as [[fb1 l1]|] eqn:Ecs; [|discriminate].
  cbn [bind fst snd] in Hrun.
  destruct (apply_calls_spec _ _ _ _ _ Ecs) as (Hd & Hwf & Hn & Hv & Hm & _ & Hs).
  cbn [feature_builder.new feature_builder.m_mark feature_builder.m_state] in Hm, Hs.
  pose proof (run_state_not_done _ _ _ Hs) as Hnd.
  assert (Hroll : feature_builder.rollback fb1 l1
                  = (feature_builder.mk feature_builder.DONE (feature_builder.m_mark fb1)
                       (feature_builder.m_count fb1) (feature_builder.m_tags fb1),
                     layer_builder_impl.set_data
                       (take (feature_builder.m_mark fb1) (layer_builder_impl.m_data l1)) l1)).
  { unfold feature_builder.rollback.
    destruct (feature_builder.m_state fb1); try reflexivity.
    exfalso. apply Hnd; [discriminate|reflexivity]. }
  assert (Hl' : l' = layer_builder_impl.set_data
                       (take (feature_builder.m_mark fb1) (layer_builder_impl.m_data l1)) l1).
  { destruct e; [contradiction| |]; cbn [feature_builder.finish bind] in Hrun;
      rewrite Hroll in Hrun; cbn [snd] in Hrun; injection Hrun as <-; reflexivity. }
  subst l'. cbn [layer_builder_impl.set_data layer_builder_impl.m_data
                 layer_builder_impl.m_num_features layer_builder_impl.m_version].
  rewrite Hm, Hd. destruct (take_drop_mark (layer_builder_impl.m_data l)
                              (concat (map call_bytes cs))) as [-> _].
  split; [reflexivity|]. split; [exact Hn|]. split; [exact Hv|].
  split.
  - intros Hwf0. destruct (Hwf Hwf0) as [H1 H2 H3 H4 H5 H6]. split; assumption.
  - exists fb1, l1. split; [reflexivity|]. split; reflexivity.
Qed.

Lemma run_with_commit (cs : list feature_builder.call)
    (l l' : layer_builder_impl.t) :
  feature_builder.run (cs, feature_builder.end_commit) l = returns l' ->
  exists fb1 l1,
    feature_builder.apply_calls cs (feature_builder.new l) l = returns (fb1, l1)
    /\ layer_builder_impl.m_keys_table l' = layer_builder_impl.m_keys_table l1
    /\ layer_builder_impl.m_values_table l' = layer_builder_impl.m_values_table l1
    /\ layer_builder_impl.m_data l'
       = layer_builder_impl.m_data l
         ++ pbf.add_bytes pbf_layer.features
              (concat (map call_bytes cs) ++ tags_bytes (feature_builder.m_tags fb1))
    /\ layer_builder_impl.m_num_features l'
       = to_size_t (layer_builder_impl.m_num_features l + 1)
    /\ layer_builder_impl.m_version l' = layer_builder_impl.m_version l
    /\ (tables_wf l -> tables_wf l')
    /\ (run_state feature_builder.INIT cs = Some feature_builder.GEOM_SET
        \/ run_state feature_builder.INIT cs = Some feature_builder.ATTRS_SET).
Proof.
  intros Hrun. unfold feature_builder.run in Hrun. cbn [fst snd] in Hrun.
  destruct (feature_builder.apply_calls cs (feature_builder.new l) l)
    as [[fb1 l1]|] eqn:Ecs; [|discriminate].
  cbn [bind fst snd feature_builder.finish] in Hrun.
  destruct (apply_calls_spec _ _ _ _ _ Ecs) as (Hd & Hwf & Hn & Hv & Hm & _ & Hs).
  cbn [feature_builder.new feature_builder.m_mark feature_builder.m_state] in Hm, Hs.
  pose proof (run_state_not_done _ _ _ Hs) as Hnd.
  unfold feature_builder.commit in Hrun.
  exists fb1, l1. split; [reflexivity|].
  assert (Hok : feature_builder.m_state fb1 = feature_builder.GEOM_SET
                \/ feature_builder.m_state fb1 = feature_builder.ATTRS_SET).
  { destruct (feature_builder.m_state fb1); auto; try discriminate.
    exfalso. apply Hnd; [discriminate|reflexivity]. }
  assert (Hl' : l' = layer_builder_impl.increment_feature_count
            (layer_builder_impl.set_data
               (take (feature_builder.m_mark fb1) (layer_builder_impl.m_data l1)
                ++ pbf.add_bytes pbf_layer.features
                     (drop (feature_builder.m_mark fb1) (layer_builder_impl.m_data l1)
                      ++ tags_bytes (feature_builder.m_tags fb1))) l1)).
  { destruct Hok as [Hst|Hst]; rewrite Hst in Hrun; cbn [bind snd] in Hrun;
      injection Hrun as <-; reflexivity. }
  subst l'.
  cbn [layer_builder_impl.increment_feature_count layer_builder_impl.set_num_features
       layer_builder_impl.set_data layer_builder_impl.m_data
       layer_builder_impl.m_num_features layer_builder_impl.m_version].
  rewrite Hm, Hd.
  destruct (take_drop_mark (layer_builder_impl.m_data l) (concat (map call_bytes cs)))
    as [-> ->].
  split; [reflexivity|]. split; [reflexivity|].
  split; [reflexivity|]. split; [rewrite Hn; reflexivity|]. split; [exact Hv|].
  split.
  - intros Hwf0. destruct (Hwf Hwf0) as [H1 H2 H3 H4 H5 H6]. split; assumption.
  - rewrite Hs. destruct Hok as [-> | ->]; auto.
Qed.

Lemma to_size_t_mod (n : N) : to_size_t n = n mod 2 ^ 64.
Proof.
  unfold to_size_t. change 0xffffffffffffffff with (N.ones 64). apply N.land_ones.
Qed.

Lemma to_size_t_add_l (a b : N) : to_size_t (to_size_t a + b) = to_size_t (a + b).
Proof. rewrite !to_size_t_mod. apply N.Div0.add_mod_idemp_l. Qed.

Lemma to_size_t_small (n : N) : n < 2 ^ 64 -> to_size_t n = n.
Proof. intros H. rewrite to_size_t_mod. apply N.mod_small, H. Qed.

Lemma committed_cons (cs : list feature_builder.call) (e : feature_builder.ending)
    (bs : list (list feature_builder.call * feature_builder.ending)) :
  feature_builder.committed ((cs, e) :: bs)
  = if decide (e = feature_builder.end_commit)
    then cs :: feature_builder.committed bs
    else feature_builder.committed bs.
Proof.
  unfold feature_builder.committed. rewrite filter_cons. cbn [snd].
  destruct (decide (e = feature_builder.end_commit)); reflexivity.
Qed.

Lemma body_of_prefix (kes kes' ves ves' : list bytes)
    (cs : list feature_builder.call) (body : bytes) :
  kes `prefix_of` kes' -> ves `prefix_of` ves' ->
  body_of kes ves cs body -> body_of kes' ves' cs body.
Proof.
  intros Hk Hv (tags & Hb & Hs & Hr). exists tags.
  split; [exact Hb|]. split; [exact Hs|].
  exact (read_tags_prefix _ _ _ _ _ _ Hk Hv Hr).
Qed.

(** One builder, from construction to its end, on the tables of the layer:
    the entries grow at the end only, and the tags the builder collected
    lead to the properties it was given. *)
Lemma run_tables (cs : list feature_builder.call) (e : feature_builder.ending)
    (l l' : layer_builder_impl.t) (kes ves : list bytes) :
  feature_builder.run (cs, e) l = returns l' ->
  table_inv (layer_builder_impl.m_keys_table l) kes ->
  table_inv (layer_builder_impl.m_values_table l) ves ->
  N.of_nat (length kes) + N.of_nat (length cs) <= index_value.invalid ->
  N.of_nat (length ves) + N.of_nat (length cs) <= index_value.invalid ->
  exists fb1 l1 kes' ves',
    feature_builder.apply_calls cs (feature_builder.new l) l = returns (fb1, l1)
    /\ table_inv (layer_builder_impl.m_keys_table l') kes'
    /\ table_inv (layer_builder_impl.m_values_table l') ves'
    /\ kes `prefix_of` kes' /\ ves `prefix_of` ves'
    /\ (length kes' <= length kes + length cs)%nat
    /\ (length ves' <= length ves + length cs)%nat
    /\ (ves' = ves \/ layer_builder_impl.m_version l < 3)
    /\ vector_tile.read_tags kes' ves' (feature_builder.m_tags fb1)
       = Some (vector_tile.properties (feature_builder.described cs)).
Proof.
  intros Hrun Hk Hv Hkroom Hvroom.
  assert (Hcalls : exists fb1 l1,
            feature_builder.apply_calls cs (feature_builder.new l) l = returns (fb1, l1)
            /\ layer_builder_impl.m_keys_table l' = layer_builder_impl.m_keys_table l1
            /\ layer_builder_impl.m_values_table l' = layer_builder_impl.m_values_table l1).
  { destruct (decide (e = feature_builder.end_commit)) as [->|Hne].
    - destruct (run_with_commit cs l l' Hrun) as (fb1 & l1 & Ecs & Hkt & Hvt & _).
      exists fb1, l1. auto.
    - destruct (run_without_commit cs e l l' Hne Hrun) as (_ & _ & _ & _ & Hc).
      exact Hc. }
  destruct Hcalls as (fb1 & l1 & Ecs & Hkt & Hvt).
  destruct (apply_calls_tables cs _ fb1 l l1 kes ves [] Ecs Hk Hv Hkroom Hvroom)
    as (kes' & ves' & Hk' & Hv' & Hrest); [reflexivity|].
  exists fb1, l1, kes', ves'. rewrite Hkt, Hvt.
  split; [exact Ecs|]. split; [exact Hk'|]. split; [exact Hv'|]. exact Hrest.
Qed.

Lemma run_all_spec (bs : list (list feature_builder.call * feature_builder.ending))
    (l l' : layer_builder_impl.t) (header : bytes) (bodies kes ves : list bytes) :
  feature_builder.run_all bs l = returns l' ->
  layer_wf l header bodies ->
  layer_builder_impl.m_num_features l < 2 ^ 64 ->
  table_inv (layer_builder_impl.m_keys_table l) kes ->
  table_inv (layer_builder_impl.m_values_table l) ves ->
  N.of_nat (length kes) + N.of_nat (length (concat (map fst bs))) <= index_value.invalid ->
  N.of_nat (length ves) + N.of_nat (length (concat (map fst bs))) <= index_value.invalid ->
  exists bodies' kes' ves',
    layer_wf l' header (bodies ++ bodies')
    /\ table_inv (layer_builder_impl.m_keys_table l') kes'
    /\ table_inv (layer_builder_impl.m_values_table l') ves'
    /\ kes `prefix_of` kes' /\ ves `prefix_of` ves'
    /\ (ves' = ves \/ layer_builder_impl.m_version l < 3)
    /\ Forall2 (body_of kes' ves') (feature_builder.committed bs) bodies'
    /\ layer_builder_impl.m_num_features l'
       = to_size_t (layer_builder_impl.m_num_features l + N.of_nat (length bodies'))
    /\ layer_builder_impl.m_version l' = layer_builder_impl.m_version l.
Proof.
  revert l bodies kes ves.
  induction bs as [|[cs e] bs IH];
    intros l bodies kes ves Hrun [Hd Hwf] Hcount Hk Hv Hkroom Hvroom.
  - injection Hrun as <-. exists [], kes, ves. rewrite app_nil_r, N.add_0_r.
    split; [split; assumption|]. split; [exact Hk|]. split; [exact Hv|].
    split; [reflexivity|]. split; [reflexivity|]. split; [auto|].
    split; [constructor|].
    split; [symmetry; apply to_size_t_small, Hcount|reflexivity].
  - cbn [feature_builder.run_all] in Hrun.
    destruct (feature_builder.run (cs, e) l) as [l1|] eqn:E1; [|discriminate].
    cbn [bind] in Hrun. rewrite committed_cons.
    cbn [map concat fst] in Hkroom, Hvroom.
    rewrite length_app, Nat2N.inj_add in Hkroom, Hvroom.
    destruct (run_tables cs e l l1 kes ves E1 Hk Hv)
      as (fb1 & l1' & kes1 & ves1 & Ecs & Hk1 & Hv1 & Hkp1 & Hvp1 & Hkn1 & Hvn1
          & Hves1 & Hps1); [lia|lia|].
    assert (Hkroom1 : N.of_nat (length kes1) + N.of_nat (length (concat (map fst bs)))
                      <= index_value.invalid) by lia.
    assert (Hvroom1 : N.of_nat (length ves1) + N.of_nat (length (concat (map fst bs)))
                      <= index_value.invalid) by lia.
    destruct (decide (e = feature_builder.end_commit)) as [->|Hne].
    + destruct (run_with_commit cs l l1 E1)
        as (fb2 & l2 & Ecs2 & _ & _ & Hd1 & Hn1 & Hver1 & Hwf1 & Hst).
      rewrite Ecs in Ecs2. injection Ecs2 as <- <-.
      set (body := concat (map call_bytes cs)
                   ++ tags_bytes (feature_builder.m_tags fb1)) in *.
      assert (Hwf1' : layer_wf l1 header (bodies ++ [body])).
      { split; [|auto]. rewrite Hd1, Hd, table_bytes_snoc, app_assoc. reflexivity. }
      assert (Hcount1 : layer_builder_impl.m_num_features l1 < 2 ^ 64).
      { rewrite Hn1, to_size_t_mod. apply N.mod_lt. discriminate. }
      destruct (IH l1 (bodies ++ [body]) kes1 ves1 Hrun Hwf1' Hcount1 Hk1 Hv1
                  Hkroom1 Hvroom1)
        as (bodies' & kes' & ves' & Hwf' & Hk' & Hv' & Hkp & Hvp & Hves & Hall
            & Hn' & Hver').
      exists (body :: bodies'), kes', ves'.
      split; [rewrite <- app_assoc in Hwf'; exact Hwf'|].
      split; [exact Hk'|]. split; [exact Hv'|].
      split; [transitivity kes1; assumption|]. split; [transitivity ves1; assumption|].
      split.
      { rewrite Hver1 in Hves. destruct Hves as [->|Hlt]; [exact Hves1|right; exact Hlt]. }
      split.
      { constructor; [|exact Hall].
        apply (body_of_prefix kes1 kes' ves1 ves' cs body Hkp Hvp).
        exists (feature_builder.m_tags fb1). auto. }
      split; [|congruence].
      rewrite Hn', Hn1, to_size_t_add_l. f_equal. cbn [length]. lia.
    + destruct (run_without_commit cs e l l1 Hne E1) as (Hd1 & Hn1 & Hver1 & Hwf1 & _).
      assert (Hwf1' : layer_wf l1 header bodies) by (split; [congruence|auto]).
      assert (Hcount1 : layer_builder_impl.m_num_features l1 < 2 ^ 64)
        by (rewrite Hn1; exact Hcount).
      destruct (IH l1 bodies kes1 ves1 Hrun Hwf1' Hcount1 Hk1 Hv1 Hkroom1 Hvroom1)
        as (bodies' & kes' & ves' & Hwf' & Hk' & Hv' & Hkp & Hvp & Hves & Hall
            & Hn' & Hver').
      exists bodies', kes', ves'.
      split; [exact Hwf'|]. split; [exact Hk'|]. split; [exact Hv'|].
      split; [transitivity kes1; assumption|]. split; [transitivity ves1; assumption|].
      split.
      { rewrite Hver1 in Hves. destruct Hves as [->|Hlt]; [exact Hves1|right; exact Hlt]. }
      split; [exact Hall|]. split; congruence.
Qed.

(** *** Reading a committed feature back *)

Lemma properties_only (s s' : feature_builder.state) (cs : list feature_builder.call) :
  run_state s cs = Some s' ->
  s = feature_builder.GEOM_SET \/ s = feature_builder.ATTRS_SET ->
  concat (map call_bytes cs) = []
  /\ feature_builder.described cs
     = vector_tile.mk_feature None None None []
         (vector_tile.properties (feature_builder.described cs)).
Proof.
  revert s. induction cs as [|c cs IH]; intros s Hs Hst; [split; reflexivity|].
  cbn [run_state] in Hs. destruct (next_state s c) as [s1|] eqn:E; [|discriminate].
  assert (Hc : exists k v, c = feature_builder.call_add_property k v
                           /\ s1 = feature_builder.ATTRS_SET).
  { destruct Hst as [-> | ->]; destruct c; cbn in E; try discriminate;
      injection E as <-; eauto. }
  destruct Hc as (k & v & -> & ->).
  destruct (IH _ Hs) as [Hb Hdesc]; [auto|].
  cbn [map concat call_bytes app feature_builder.described]. rewrite Hb.
  split; [reflexivity|]. rewrite Hdesc. reflexivity.
Qed.

(** Reading the fields of a feature one by one. *)
Ltac read_fields :=
  repeat first
    [ rewrite find_varint_add_varint
    | rewrite find_varint_add_bytes
    | rewrite views_add_varint
    | rewrite views_add_bytes
    | rewrite find_varint_nil
    | rewrite views_nil
    | rewrite <- app_assoc ];
  cbv [pbf_feature.id pbf_feature.tags pbf_feature.type pbf_feature.geometry
       pbf_feature.string_id N.eqb Pos.eqb].

Lemma read_point_feature (keys values : list bytes) (x y : Z) (tags : list N)
    (ps : list (bytes * bytes)) :
  vector_tile.read_tags keys values tags = Some ps ->
  forall prefix ido sido,
    (prefix = [] /\ ido = None /\ sido = None)
    \/ (exists id, prefix = pbf.add_varint pbf_feature.id id
                   /\ ido = Some id /\ sido = None)
    \/ (exists id, prefix = pbf.add_bytes pbf_feature.string_id id
                   /\ ido = None /\ sido = Some id) ->
    vector_tile.read_feature keys values
      (prefix ++ call_bytes (feature_builder.call_add_point x y) ++ tags_bytes tags)
    = Some (vector_tile.mk_feature ido sido (Some feature_builder.POINT)
              [feature_builder.command_integer feature_builder.MoveTo 1;
               feature_builder.encode_zigzag32 x; feature_builder.encode_zigzag32 y]
              ps).
Proof.
  intros Hr prefix ido sido Hpre.
  assert (Ht : (tags = [] /\ tags_bytes tags = [])
               \/ tags_bytes tags
                  = pbf.add_bytes pbf_feature.tags (concat (map pbf.write_varint tags))).
  { destruct tags; [left; split; reflexivity|right; reflexivity]. }
  unfold vector_tile.read_feature, call_bytes, pbf.add_packed_varint.
  rewrite <- (app_nil_r (tags_bytes tags)).
  destruct Ht as [[-> ->]| ->];
    destruct Hpre as [(-> & -> & ->)|[(id & -> & -> & ->)|(id & -> & -> & ->)]];
    cbn [app]; read_fields; cbn [app head vector_tile.first_packed];
    rewrite ?packed_varints_written; rewrite Hr; reflexivity.
Qed.

Lemma read_feature_described (keys values : list bytes)
    (cs : list feature_builder.call) (body : bytes) :
  body_of keys values cs body ->
  vector_tile.read_feature keys values body = Some (feature_builder.described cs).
Proof.
  intros (tags & -> & Hst & Hr).
  assert (Hs : exists s', run_state feature_builder.INIT cs = Some s'
                          /\ (s' = feature_builder.GEOM_SET \/ s' = feature_builder.ATTRS_SET)).
  { destruct Hst as [H|H]; eauto. }
  clear Hst. destruct Hs as (s' & Hs & Hs').
  destruct cs as [|c cs]; [cbn in Hs; injection Hs as <-; destruct Hs'; discriminate|].
  cbn [run_state] in Hs.
  destruct c as [id|id|x y|k v]; cbn [next_state] in Hs; try discriminate.
  - (* an integer id, then the point *)
    destruct cs as [|c cs]; [cbn in Hs; injection Hs as <-; destruct Hs'; discriminate|].
    cbn [run_state] in Hs.
    destruct c as [id'|id'|x y|k v]; cbn [next_state] in Hs; try discriminate.
    destruct (properties_only _ _ _ Hs) as [Hb Hdesc]; [auto|].
    cbn [map concat feature_builder.described]. rewrite Hb, Hdesc, app_nil_r.
    rewrite <- !app_assoc.
    apply (read_point_feature keys values x y tags _ Hr _ (Some id) None).
    right. left. eauto.
  - (* a string id, then the point *)
    destruct cs as [|c cs]; [cbn in Hs; injection Hs as <-; destruct Hs'; discriminate|].
    cbn [run_state] in Hs.
    destruct c as [id'|id'|x y|k v]; cbn [next_state] in Hs; try discriminate.
    destruct (properties_only _ _ _ Hs) as [Hb Hdesc]; [auto|].
    cbn [map concat feature_builder.described]. rewrite Hb, Hdesc, app_nil_r.
    rewrite <- !app_assoc.
    apply (read_point_feature keys values x y tags _ Hr _ None (Some id)).
    right. right. eauto.
  - (* the point at once *)
    destruct (properties_only _ _ _ Hs) as [Hb Hdesc]; [auto|].
    cbn [map concat feature_builder.described]. rewrite Hb, Hdesc, app_nil_r.
    apply (read_point_feature keys values x y tags _ Hr [] None None).
    left. auto.
Qed.

Lemma read_all_described (keys values : list bytes)
    (css : list (list feature_builder.call)) (bodies : list bytes) :
  Forall2 (body_of keys values) css bodies ->
  vector_tile.read_all (vector_tile.read_feature keys values) bodies
  = Some (map feature_builder.described css).
Proof.
  induction 1 as [|cs body css bodies Hb _ IH]; [reflexivity|].
  cbn [vector_tile.read_all map].
  rewrite (read_feature_described keys values cs body Hb), IH.
  reflexivity.
Qed.

(** The fields of a serialized layer: the header, the features, and two
    tables. *)
Lemma layer_views (tag : N) (name : bytes) (version extent : N)
    (bodies kes ves : list bytes) (vtag : N) :
  pbf_layer.name <> tag ->
  pbf.views tag
    (concat [layer_header name version extent
               ++ table_bytes pbf_layer.features bodies;
             table_bytes pbf_layer.keys kes; table_bytes vtag ves; []])
  = Some ((if pbf_layer.features =? tag then bodies else [])
          ++ (if pbf_layer.keys =? tag then kes else [])
          ++ (if vtag =? tag then ves else [])).
Proof.
  intros Hn. unfold layer_header. cbn [concat]. rewrite <- !app_assoc.
  rewrite views_add_varint, views_add_bytes, views_add_varint.
  rewrite !views_table_bytes_app. cbn [app]. rewrite views_nil.
  apply N.eqb_neq in Hn. rewrite Hn, !app_nil_r. reflexivity.
Qed.

Lemma features_of_layer_record (layer : bytes) :
  vector_tile.features (pbf.add_bytes pbf_tile.layers layer)
  = vector_tile.layer_features layer.
Proof.
  unfold vector_tile.features, vector_tile.layers.
  rewrite <- (app_nil_r (pbf.add_bytes pbf_tile.layers layer)).
  rewrite views_add_bytes, views_nil, N.eqb_refl.
  cbn [vector_tile.read_all]. destruct (vector_tile.layer_features layer) as [fs|];
    [|reflexivity].
  cbn [concat]. rewrite app_nil_r. reflexivity.
Qed.

Lemma add_bytes_vectored_concat (tag : N) (values : list bytes) :
  pbf.add_bytes_vectored tag values = pbf.add_bytes tag (concat values).
Proof. reflexivity. Qed.

(** The features of a layer whose tables are the keys [kes] and a second
    table under the tag [vtag]. *)
Lemma layer_features_of_fields (name : bytes) (version extent : N)
    (bodies kes ves : list bytes) (vtag : N) :
  vtag <> pbf_layer.features -> vtag <> pbf_layer.keys ->
  vector_tile.layer_features
    (concat [layer_header name version extent
               ++ table_bytes pbf_layer.features bodies;
             table_bytes pbf_layer.keys kes; table_bytes vtag ves; []])
  = vector_tile.read_all
      (vector_tile.read_feature kes (if vtag =? pbf_layer.values then ves else []))
      bodies.
Proof.
  intros Hf Hk. unfold vector_tile.layer_features.
  rewrite !layer_views by discriminate.
  apply N.eqb_neq in Hf, Hk.
  rewrite N.eqb_refl, Hf, Hk.
  change (pbf_layer.features =? pbf_layer.keys) with false.
  change (pbf_layer.features =? pbf_layer.values) with false.
  change (pbf_layer.keys =? pbf_layer.features) with false.
  change (pbf_layer.keys =? pbf_layer.values) with false.
  change (pbf_layer.keys =? pbf_layer.keys) with true.
  cbn [app]. rewrite !app_nil_r. reflexivity.
Qed.

(** The features of the serialized layer are those of its bodies. *)
Lemma features_of_build (l : layer_builder_impl.t) (name : bytes) (version extent : N)
    (css : list (list feature_builder.call)) (bodies kes ves : list bytes) :
  layer_wf l (layer_header name version extent) bodies ->
  table_inv (layer_builder_impl.m_keys_table l) kes ->
  table_inv (layer_builder_impl.m_values_table l) ves ->
  ves = [] \/ layer_builder_impl.m_version l < 3 ->
  Forall2 (body_of kes ves) css bodies ->
  0 < layer_builder_impl.m_num_features l ->
  vector_tile.features (layer_builder_impl.build l [])
  = Some (map feature_builder.described css).
Proof.
  intros [Hd [[Hkt _] [Hvt _] [Hst (ses & Hs)] Hdv Hfv Hiv]] Hk Hv Hves Hall Hpos.
  pose proof (inv_data _ _ Hk) as Hkd. rewrite Hkt in Hkd.
  pose proof (inv_data _ _ Hv) as Hvd. rewrite Hvt in Hvd.
  unfold layer_builder_impl.build. apply N.ltb_lt in Hpos. rewrite Hpos.
  unfold string_table.data. rewrite Hd, Hkd, Hvd, Hs, Hdv, Hfv, Hiv.
  rewrite !add_bytes_vectored_concat. cbn [app].
  destruct (layer_builder_impl.m_version l <? 3) eqn:Ever.
  - rewrite features_of_layer_record.
    replace (concat [layer_header name version extent
                       ++ table_bytes pbf_layer.features bodies;
                     table_bytes pbf_layer.keys kes; table_bytes pbf_layer.values ves])
      with (concat [layer_header name version extent
                       ++ table_bytes pbf_layer.features bodies;
                     table_bytes pbf_layer.keys kes; table_bytes pbf_layer.values ves; []])
      by (cbn [concat]; rewrite !app_nil_r; reflexivity).
    rewrite layer_features_of_fields by discriminate.
    rewrite N.eqb_refl. apply read_all_described, Hall.
  - destruct Hves as [->|Hlt]; [|apply N.ltb_lt in Hlt; congruence].
    rewrite decide_True by reflexivity.
    rewrite features_of_layer_record.
    rewrite layer_features_of_fields by discriminate.
    change (pbf_layer.string_values =? pbf_layer.values) with false.
    apply read_all_described, Hall.
Qed.

Lemma layer_wf_new (name : bytes) (version extent : N) :
  layer_wf (layer_builder_impl.new name version extent)
    (layer_header name version extent) [].
Proof.
  split; [|apply tables_wf_new].
  cbn [layer_builder_impl.new layer_builder_impl.m_data table_bytes map concat].
  rewrite app_nil_r. reflexivity.
Qed.

Lemma length_committed (bs : list (list feature_builder.call * feature_builder.ending)) :
  (length (feature_builder.committed bs) <= length bs)%nat.
Proof.
  unfold feature_builder.committed. rewrite length_map. apply length_filter.
Qed.

(** C1: rollback atomicity.  For every sequence of feature builders on a
    freshly constructed layer, each running its calls and ending in a
    commit, a rollback or its destructor, the features read back from the
    serialized tile (id, geometry type, geometry, and the properties the
    tags lead to in the tables of the layer) are those of the committed
    builders, in commit order; and a builder that ends without a commit
    leaves the layer buffer, its length and the feature count as they were
    when the builder was constructed.  The number of builders is a
    [size_t], and the number of calls an index value. *)
Theorem C1_rollback_atomicity (name : bytes) (version extent : N)
    (bs : list (list feature_builder.call * feature_builder.ending))
    (l : layer_builder_impl.t) :
  feature_builder.run_all bs (layer_builder_impl.new name version extent) = returns l ->
  N.of_nat (length bs) < 2 ^ 64 ->
  N.of_nat (length (concat (map fst bs))) <= index_value.invalid ->
  vector_tile.features (tile_builder.serialize [tile_builder.fresh l])
    = Some (map feature_builder.described (feature_builder.committed bs))
  /\ (forall cs e l0 l1,
        e <> feature_builder.end_commit ->
        feature_builder.run (cs, e) l0 = returns l1 ->
        length (layer_builder_impl.m_data l1) = length (layer_builder_impl.m_data l0)
        /\ layer_builder_impl.m_data l1 = layer_builder_impl.m_data l0
        /\ layer_builder_impl.m_num_features l1 = layer_builder_impl.m_num_features l0).
Proof.
  intros Hrun Hlen Hcalls. split.
  - destruct (run_all_spec bs _ l _ [] [] [] Hrun (layer_wf_new name version extent))
      as (bodies & kes & ves & Hwf & Hk & Hv & _ & _ & Hves & Hall & Hcount & Hver);
      [reflexivity|apply table_inv_new|apply table_inv_new|exact Hcalls|exact Hcalls|].
    cbn [app] in Hwf.
    cbn [layer_builder_impl.new layer_builder_impl.m_num_features] in Hcount.
    pose proof (Forall2_length Hall) as Hlen'.
    pose proof (length_committed bs) as Hle.
    rewrite N.add_0_l, to_size_t_small in Hcount by lia.
    cbn [tile_builder.serialize fold_left tile_builder.build].
    destruct bodies as [|body bodies].
    + destruct (feature_builder.committed bs); [|discriminate].
      unfold layer_builder_impl.build. rewrite Hcount. reflexivity.
    + rewrite <- Hver in Hves.
      apply (features_of_build l name version extent _ _ kes ves Hwf Hk Hv Hves Hall).
      rewrite Hcount. cbn [length]. lia.
  - intros cs e l0 l1 He Hr.
    destruct (run_without_commit cs e l0 l1 He Hr) as (Hd & Hn & _ & _).
    rewrite Hd. auto.
Qed.

Lemma C1_witness :
  exists l,
    feature_builder.run_all sample_builds_with_properties
      (layer_builder_impl.new sample_text 2 4096) = returns l
    /\ vector_tile.features (tile_builder.serialize [tile_builder.fresh l])
       = Some [vector_tile.mk_feature (Some 1) None (Some 1) [9; 20; 20] [];
               vector_tile.mk_feature (Some 8) None (Some 1) [9; 60; 60] [];
               vector_tile.mk_feature (Some 9) None (Some 1) [9; 80; 80]
                 [([x66; x6f; x6f], encoded_property_value.of_string [x62; x61; x72]);
                  (sample_text, encoded_property_value.of_string [x62; x61; x72])]].
Proof.
  destruct (feature_builder.run_all sample_builds_with_properties
              (layer_builder_impl.new sample_text 2 4096)) as [l|] eqn:Hrun.
  - exists l. split; [reflexivity|].
    destruct (C1_rollback_atomicity sample_text 2 4096 sample_builds_with_properties
                l Hrun) as [Hf _].
    + vm_compute. reflexivity.
    + vm_compute. discriminate.
    + rewrite Hf. vm_compute. reflexivity.
  - vm_compute in Hrun. discriminate.
Defined.

(** C7: the commit rule.  [commit] fails with a fatal assertion in the
    states INIT and ID_SET, and adds no feature; it returns exactly in
    the states GEOM_SET, ATTRS_SET and DONE.  On a new builder, and on one
    on which only an id was set, [commit] fails; once a point was added it
    returns, and the layer has one feature more. *)
Theorem C7_commit_requires_geometry (fb : feature_builder.t)
    (l : layer_builder_impl.t) (id : N) (x y : Z) :
  ((feature_builder.m_state fb = feature_builder.INIT
    \/ feature_builder.m_state fb = feature_builder.ID_SET) <->
   feature_builder.commit fb l = assert_error)
  /\ ((feature_builder.m_state fb = feature_builder.GEOM_SET
       \/ feature_builder.m_state fb = feature_builder.ATTRS_SET) <->
      exists fb' l',
        feature_builder.commit fb l = returns (fb', l')
        /\ feature_builder.m_state fb' = feature_builder.DONE
        /\ layer_builder_impl.m_num_features l'
           = to_size_t (layer_builder_impl.m_num_features l + 1)
        /\ feature_builder.m_state fb <> feature_builder.DONE)
  /\ (feature_builder.m_state fb = feature_builder.DONE <->
      feature_builder.commit fb l = returns (fb, l)
      /\ feature_builder.m_state fb = feature_builder.DONE)
  /\ feature_builder.run ([], feature_builder.end_commit) l = assert_error
  /\ feature_builder.run ([feature_builder.call_set_integer_id id],
                          feature_builder.end_commit) l = assert_error
  /\ (exists l',
        feature_builder.run ([feature_builder.call_set_integer_id id;
                              feature_builder.call_add_point x y],
                             feature_builder.end_commit) l = returns l'
        /\ layer_builder_impl.m_num_features l'
           = to_size_t (layer_builder_impl.m_num_features l + 1)).
Proof.
  split; [|split; [|split; [|split; [|split]]]].
  - unfold feature_builder.commit. destruct (feature_builder.m_state fb); split;
      try discriminate; auto; intros [H|H]; discriminate.
  - unfold feature_builder.commit.
    destruct (feature_builder.m_state fb) eqn:Es; split;
      try (intros [H|H]; discriminate);
      try (intros (fb' & l' & H & _); discriminate);
      try (intros (fb' & l' & _ & _ & _ & H); contradiction); auto;
      intros _; eexists _, _; (split; [reflexivity|]); repeat split; discriminate.
  - unfold feature_builder.commit.
    destruct (feature_builder.m_state fb) eqn:Es; split;
      try discriminate; try (intros [_ H]; discriminate); auto.
  - reflexivity.
  - reflexivity.
  - eexists. split; [reflexivity|]. reflexivity.
Qed.

Lemma C7_witness :
  feature_builder.commit
    (feature_builder.new (layer_builder_impl.new sample_text 2 4096))
    (layer_builder_impl.new sample_text 2 4096) = assert_error
  /\ feature_builder.run ([feature_builder.call_set_integer_id 2],
                          feature_builder.end_commit)
       (layer_builder_impl.new sample_text 2 4096) = assert_error
  /\ (exists l',
        feature_builder.run ([feature_builder.call_set_integer_id 1;
                              feature_builder.call_add_point 10 10],
                             feature_builder.end_commit)
          (layer_builder_impl.new sample_text 2 4096) = returns l'
        /\ layer_builder_impl.m_num_features l' = 1).
Proof.
  destruct (C7_commit_requires_geometry
              (feature_builder.new (layer_builder_impl.new sample_text 2 4096))
              (layer_builder_impl.new sample_text 2 4096) 2 10 10)
    as (Hfail & _ & _ & _ & Hid & _).
  destruct (C7_commit_requires_geometry
              (feature_builder.new (layer_builder_impl.new sample_text 2 4096))
              (layer_builder_impl.new sample_text 2 4096) 1 10 10)
    as (_ & _ & _ & _ & _ & (l' & Hrun & Hcount)).
  split; [apply Hfail; left; reflexivity|]. split; [exact Hid|].
  exists l'. split; [exact Hrun|]. rewrite Hcount. reflexivity.
Defined.

(** * Further properties of the code *)

(** ** Searching a string table *)

Lemma first_occurrence_unique (text : bytes) (es : list bytes) (j k : nat) :
  es !! j = Some text -> text ∉ take j es ->
  es !! k = Some text -> text ∉ take k es -> j = k.
Proof.
  intros Hj Hnj Hk Hnk.
  destruct (Nat.lt_trichotomy j k) as [Hlt|[Heq|Hgt]]; [|exact Heq|]; exfalso.
  - apply Hnk. apply list_elem_of_lookup. exists j. rewrite lookup_take_lt by lia. exact Hj.
  - apply Hnj. apply list_elem_of_lookup. exists k. rewrite lookup_take_lt by lia. exact Hk.
Qed.

Lemma scan_first (text : bytes) (es : list bytes) (k : nat) :
  N.of_nat (length es) <= index_value.invalid ->
  es !! k = Some text -> text ∉ take k es ->
  scan text es 0 = N.of_nat k.
Proof.
  intros Hlen Hk Hnk.
  destruct (scan_spec text es 0) as [[_ Hn]|(j & Hs & Hj & Hnj)]; [lia| |].
  - exfalso. apply Hn. eapply list_elem_of_lookup_2, Hk.
  - rewrite Hs, N.add_0_l. f_equal. exact (first_occurrence_unique text es j k Hj Hnj Hk Hnk).
Qed.

Lemma scan_absent (text : bytes) (es : list bytes) :
  N.of_nat (length es) <= index_value.invalid ->
  (text ∉ es <-> scan text es 0 = index_value.invalid).
Proof.
  intros Hlen.
  destruct (scan_spec text es 0) as [[Hs Hn]|(j & Hs & Hj & Hnj)]; [lia| |].
  - split; auto.
  - pose proof (lookup_lt_Some _ _ _ Hj) as Hlt. split.
    + intros Hn. exfalso. apply Hn. eapply list_elem_of_lookup_2, Hj.
    + rewrite Hs. unfold index_value.invalid in *. lia.
Qed.

(** X1: [find_in_table] on the bytes of a table returns the position of
    the first entry equal to the text, and the invalid index exactly when
    no entry is equal to it. *)
Theorem find_in_table_first_occurrence (tag : N) (text : bytes) (es : list bytes) :
  N.of_nat (length es) <= index_value.invalid ->
  (text ∉ es <->
   string_table.find_in_table text (table_bytes tag es) = index_value.invalid)
  /\ (forall k : nat,
        es !! k = Some text -> text ∉ take k es ->
        string_table.find_in_table text (table_bytes tag es) = N.of_nat k).
Proof.
  intros Hlen. rewrite find_in_table_bytes. split.
  - apply scan_absent, Hlen.
  - intros k. apply scan_first, Hlen.
Qed.

Lemma find_in_table_first_occurrence_witness :
  string_table.find_in_table [x62]
    (table_bytes pbf_layer.keys [[x61]; [x62]; [x63]; [x62]]) = 1
  /\ string_table.find_in_table [x64]
       (table_bytes pbf_layer.keys [[x61]; [x62]; [x63]; [x62]]) = index_value.invalid.
Proof.
  destruct (find_in_table_first_occurrence pbf_layer.keys [x62]
              [[x61]; [x62]; [x63]; [x62]]) as [_ Hfirst];
    [vm_compute; discriminate|].
  destruct (find_in_table_first_occurrence pbf_layer.keys [x64]
              [[x61]; [x62]; [x63]; [x62]]) as [Habsent _];
    [vm_compute; discriminate|].
  split.
  - apply (Hfirst 1%nat); [reflexivity|].
    apply (bool_decide_eq_false_1 ([x62] ∈ take 1 [[x61]; [x62]; [x63]; [x62]])).
    vm_compute. reflexivity.
  - apply Habsent.
    apply (bool_decide_eq_false_1 ([x64] ∈ [[x61]; [x62]; [x63]; [x62]])).
    vm_compute. reflexivity.
Defined.

Lemma populate_list_last (es : list bytes) (index : N)
    (m : gmap bytes index_value.t) (s : bytes) (k : nat) :
  index + N.of_nat (length es) <= index_value.invalid ->
  es !! k = Some s -> s ∉ drop (S k) es ->
  populate_list es index m !! s = Some (index + N.of_nat k).
Proof.
  revert index m k. induction es as [|e es IH]; intros index m k Hlen Hk Hn.
  - rewrite lookup_nil in Hk. discriminate.
  - cbn [populate_list]. cbn [length] in Hlen.
    rewrite to_uint32_small by lia.
    destruct k as [|k].
    + cbn in Hk. injection Hk as ->. cbn [drop] in Hn.
      rewrite populate_list_notin by exact Hn.
      rewrite lookup_insert_eq, N.add_0_r. reflexivity.
    + cbn in Hk. cbn [drop] in Hn.
      rewrite (IH (index + 1) _ k) by (trivial; lia). f_equal. lia.
Qed.

(** X2: [populate_index] on the bytes of a table maps every entry to the
    position of its last occurrence, and holds nothing else. *)
Theorem populate_index_last_occurrence (tag : N) (es : list bytes) (s : bytes) :
  N.of_nat (length es) <= index_value.invalid ->
  (s ∉ es <-> string_table.populate_index (table_bytes tag es) ∅ !! s = None)
  /\ (forall k : nat,
        es !! k = Some s -> s ∉ drop (S k) es ->
        string_table.populate_index (table_bytes tag es) ∅ !! s = Some (N.of_nat k)).
Proof.
  intros Hlen. rewrite populate_index_bytes. split.
  - split.
    + intros Hn. rewrite populate_list_notin by exact Hn. apply lookup_empty.
    + intros Hnone Hin.
      destruct (populate_list_complete es 0 ∅ s Hin) as [i Hi]. congruence.
  - intros k Hk Hn. rewrite (populate_list_last es 0 ∅ s k) by (trivial; lia).
    f_equal.
Qed.

Lemma populate_index_last_occurrence_witness :
  string_table.populate_index
    (table_bytes pbf_layer.keys [[x61]; [x62]; [x63]; [x62]]) ∅ !! [x62] = Some 3
  /\ string_table.populate_index
       (table_bytes pbf_layer.keys [[x61]; [x62]; [x63]; [x62]]) ∅ !! [x64] = None.
Proof.
  destruct (populate_index_last_occurrence pbf_layer.keys
              [[x61]; [x62]; [x63]; [x62]] [x62]) as [_ Hlast];
    [vm_compute; discriminate|].
  destruct (populate_index_last_occurrence pbf_layer.keys
              [[x61]; [x62]; [x63]; [x62]] [x64]) as [Habsent _];
    [vm_compute; discriminate|].
  split.
  - apply (Hlast 3%nat); [reflexivity|]. cbn [drop]. apply not_elem_of_nil.
  - apply Habsent.
    apply (bool_decide_eq_false_1 ([x64] ∈ [[x61]; [x62]; [x63]; [x62]])).
    vm_compute. reflexivity.
Defined.

Lemma find_below_threshold (text : bytes) (tbl : string_table.t) (es : list bytes)
    (k : nat) :
  table_inv tbl es ->
  string_table.m_num tbl < string_table.max_entries_flat ->
  es !! k = Some text -> text ∉ take k es ->
  string_table.find text tbl = (N.of_nat k, tbl).
Proof.
  intros [Hd Hn Hr _ _] Hlt Hk Hnk. unfold string_table.find.
  apply N.ltb_lt in Hlt. rewrite Hlt, Hd, find_in_table_bytes.
  rewrite (scan_first text es k Hr Hk Hnk). reflexivity.
Qed.

Lemma find_builds_index (text : bytes) (tbl : string_table.t) (es : list bytes)
    (k : nat) :
  table_inv tbl es ->
  string_table.max_entries_flat <= string_table.m_num tbl ->
  string_table.m_index tbl = ∅ ->
  es !! k = Some text -> text ∉ drop (S k) es ->
  string_table.find text tbl
  = (N.of_nat k,
     string_table.set_index
       (string_table.populate_index (string_table.m_data tbl) ∅) tbl).
Proof.
  intros [Hd Hn Hr _ _] Hge He Hk Hnk.
  rewrite (find_map_mode text tbl Hge). cbn zeta.
  rewrite decide_True by exact He. rewrite He, Hd, populate_index_bytes.
  rewrite (populate_list_last es 0 ∅ text k) by (trivial; lia).
  rewrite N.add_0_l.
  pose proof (lookup_lt_Some _ _ _ Hk) as Hlt.
  rewrite index_valid_lt by lia. reflexivity.
Qed.

(** X3: on a table that holds a text more than once, [find] returns the
    position of its first occurrence as long as the table has fewer than
    20 entries, and the position of its last occurrence when it builds
    the index from a table of 20 entries or more; in both cases the
    entries of the table stay as they are. *)
Theorem find_first_then_last_occurrence (text : bytes) (tbl : string_table.t)
    (k : nat) :
  table_ok tbl 0 ->
  string_table.entries tbl !! k = Some text ->
  (string_table.m_num tbl < string_table.max_entries_flat ->
     text ∉ take k (string_table.entries tbl) ->
     string_table.find text tbl = (N.of_nat k, tbl))
  /\ (string_table.max_entries_flat <= string_table.m_num tbl ->
      string_table.m_index tbl = ∅ ->
      text ∉ drop (S k) (string_table.entries tbl) ->
      fst (string_table.find text tbl) = N.of_nat k
      /\ string_table.entries (snd (string_table.find text tbl))
         = string_table.entries tbl
      /\ string_table.m_num (snd (string_table.find text tbl))
         = string_table.m_num tbl).
Proof.
  intros [Hinv _] Hk. split.
  - intros Hlt Hnk. exact (find_below_threshold text tbl _ k Hinv Hlt Hk Hnk).
  - intros Hge He Hnk.
    rewrite (find_builds_index text tbl _ k Hinv Hge He Hk Hnk).
    split; [reflexivity|]. split; reflexivity.
Qed.

Lemma find_first_then_last_occurrence_witness :
  string_table.find sample_text (sample_table_with_duplicates 1)
  = (0, sample_table_with_duplicates 1)
  /\ string_table.m_num (sample_table_with_duplicates 18) = 20
  /\ fst (string_table.find sample_text (sample_table_with_duplicates 18)) = 19.
Proof.
  assert (Hok1 : table_ok (sample_table_with_duplicates 1) 0)
    by table_ok_by_computation.
  assert (Hok18 : table_ok (sample_table_with_duplicates 18) 0)
    by table_ok_by_computation.
  destruct (find_first_then_last_occurrence sample_text
              (sample_table_with_duplicates 1) 0 Hok1) as [Hbelow _];
    [vm_compute; reflexivity|].
  destruct (find_first_then_last_occurrence sample_text
              (sample_table_with_duplicates 18) 19 Hok18) as [_ Habove];
    [vm_compute; reflexivity|].
  split; [|split; [vm_compute; reflexivity|]].
  - apply Hbelow; [vm_compute; reflexivity|]. cbn [take]. apply not_elem_of_nil.
  - destruct Habove as [Hi _]; [vm_compute; discriminate|vm_compute; reflexivity| |exact Hi].
    replace (drop 20 (string_table.entries (sample_table_with_duplicates 18)))
      with (@nil bytes) by (vm_compute; reflexivity).
    apply not_elem_of_nil.
Defined.

Lemma entries_set_index (m : gmap bytes index_value.t) (tbl : string_table.t) :
  string_table.entries (string_table.set_index m tbl) = string_table.entries tbl.
Proof. reflexivity. Qed.

(** X4: [add] sees an entry made by [add_without_dup_check] only while
    the index of the table has not been built.  For a text that is not
    in the table, [add_without_dup_check] followed by [add] of the same
    text gives one entry and one index if the index is empty, and two
    entries with two indices once the index is in use. *)
Theorem add_after_add_without_dup_check (text : bytes) (tbl : string_table.t) :
  table_ok tbl 2 ->
  text ∉ string_table.entries tbl ->
  let added := string_table.add_without_dup_check text tbl in
  let again := string_table.add text (snd added) in
  (string_table.m_index tbl = ∅ ->
     fst again = fst added
     /\ string_table.entries (snd again) = string_table.entries tbl ++ [text])
  /\ (string_table.m_index tbl <> ∅ ->
      fst again = fst added + 1
      /\ string_table.entries (snd again) = string_table.entries tbl ++ [text; text]).
Proof.
  intros [Hinv Hroom] Hnotin added again.
  set (es := string_table.entries tbl) in *.
  assert (Hroom1 : N.of_nat (length es) < index_value.invalid) by lia.
  destruct (add_without_dup_check_inv text tbl es Hinv Hroom1) as [Hi1 Hinv1].
  fold added in Hi1, Hinv1.
  pose proof Hinv as [Hd Hn Hr Hidx Hflat].
  pose proof Hinv1 as [Hd1 Hn1 _ _ _].
  assert (Hk : (es ++ [text]) !! length es = Some text)
    by (apply list_lookup_middle; reflexivity).
  assert (Hvalid : index_value.valid (N.of_nat (length es)) = true)
    by (apply index_valid_lt; lia).
  split.
  - intros He.
    assert (He1 : string_table.m_index (snd added) = ∅) by exact He.
    assert (Hfind : fst (string_table.find text (snd added)) = N.of_nat (length es)
                    /\ string_table.entries (snd (string_table.find text (snd added)))
                       = es ++ [text]).
    { destruct (N.lt_ge_cases (string_table.m_num (snd added))
                  string_table.max_entries_flat) as [Hlt|Hge].
      - rewrite (find_below_threshold text (snd added) _ (length es) Hinv1 Hlt Hk).
        + split; [reflexivity|]. apply table_inv_entries, Hinv1.
        + rewrite take_app_length. exact Hnotin.
      - rewrite (find_builds_index text (snd added) _ (length es) Hinv1 Hge He1 Hk).
        + split; [reflexivity|]. cbn [snd]. rewrite entries_set_index.
          apply table_inv_entries, Hinv1.
        + rewrite drop_ge by (rewrite length_app; cbn; lia). apply not_elem_of_nil. }
    destruct Hfind as [Hf He'].
    unfold again. rewrite add_unfold, Hf, Hvalid, Hf, Hi1. split; [reflexivity|exact He'].
  - intros Hne.
    assert (Hge : string_table.max_entries_flat <= string_table.m_num tbl).
    { destruct (N.lt_ge_cases (string_table.m_num tbl) string_table.max_entries_flat)
        as [Hlt|Hge]; [|exact Hge]. destruct (Hne (Hflat Hlt)). }
    assert (Hnone : string_table.m_index tbl !! text = None).
    { destruct (string_table.m_index tbl !! text) as [i|] eqn:El; [|reflexivity].
      exfalso. apply Hnotin. eapply list_elem_of_lookup_2, Hidx, El. }
    assert (Hnum1 : string_table.m_num (snd added) = N.of_nat (length es) + 1).
    { rewrite Hn1, length_app. cbn. lia. }
    assert (Hge1 : string_table.max_entries_flat <= string_table.m_num (snd added))
      by (rewrite Hnum1; lia).
    assert (Hfind : string_table.find text (snd added)
                    = (string_table.m_num (snd added),
                       string_table.mk
                         (string_table.m_data (snd added)
                          ++ pbf.add_bytes (string_table.m_pbf_type (snd added)) text)
                         (<[text := string_table.m_num (snd added)]>
                            (string_table.m_index tbl))
                         (to_uint32 (string_table.m_num (snd added) + 1))
                         (string_table.m_pbf_type (snd added)))).
    { rewrite (find_map_mode text (snd added) Hge1). cbn zeta.
      change (string_table.m_index (snd added)) with (string_table.m_index tbl).
      rewrite decide_False by exact Hne. rewrite Hnone. reflexivity. }
    unfold again. rewrite add_unfold, Hfind. cbn [fst snd].
    rewrite Hnum1, index_valid_lt by lia. cbn [fst snd].
    split; [rewrite Hi1; reflexivity|].
    unfold string_table.entries. cbn [string_table.m_data string_table.m_pbf_type].
    rewrite Hd1, <- table_bytes_snoc, <- app_assoc, views_table_bytes. reflexivity.
Qed.

Lemma add_after_add_without_dup_check_witness :
  fst (string_table.add sample_text
         (snd (string_table.add_without_dup_check sample_text
                 (string_table.new pbf_layer.keys)))) = 0
  /\ fst (string_table.add_without_dup_check [x6b]
            (snd (string_table.add sample_text (sample_table 20)))) = 21
  /\ fst (string_table.add [x6b]
            (snd (string_table.add_without_dup_check [x6b]
                    (snd (string_table.add sample_text (sample_table 20)))))) = 22.
Proof.
  assert (Hnew : table_ok (string_table.new pbf_layer.keys) 2)
    by (apply table_ok_new; vm_compute; discriminate).
  assert (Hok : table_ok (snd (string_table.add sample_text (sample_table 20))) 2).
  { apply table_ok_add. table_ok_by_computation. }
  destruct (add_after_add_without_dup_check sample_text
              (string_table.new pbf_layer.keys) Hnew) as [Hempty _].
  { apply (bool_decide_eq_false_1
             (sample_text ∈ string_table.entries (string_table.new pbf_layer.keys))).
    vm_compute. reflexivity. }
  destruct (add_after_add_without_dup_check [x6b]
              (snd (string_table.add sample_text (sample_table 20))) Hok)
    as [_ Hindexed].
  { apply (bool_decide_eq_false_1
             ([x6b] ∈ string_table.entries
                        (snd (string_table.add sample_text (sample_table 20))))).
    vm_compute. reflexivity. }
  destruct Hempty as [H0 _]; [reflexivity|].
  destruct Hindexed as [H1 _].
  { intros H. apply (f_equal (fun m => m !! sample_text)) in H.
    vm_compute in H. discriminate. }
  split; [rewrite H0; reflexivity|]. split; [vm_compute; reflexivity|].
  rewrite H1. vm_compute. reflexivity.
Defined.

(** ** Sequences of calls on a string table *)

Lemma table_run_members (cs : list table_call) (tbl : string_table.t) (es : list bytes) :
  table_inv tbl es ->
  N.of_nat (length es) + N.of_nat (length cs) <= index_value.invalid ->
  exists es',
    table_inv (snd (table_run cs tbl)) es'
    /\ forall text, text ∈ es' -> text ∈ es \/ text ∈ map call_text cs.
Proof.
  revert tbl es. induction cs as [|c cs IH]; intros tbl es Hinv Hroom.
  - exists es. split; [exact Hinv|]. auto.
  - cbn [length] in Hroom. rewrite table_run_cons. cbn [snd].
    destruct (table_apply_spec c tbl es Hinv) as (es1 & Hinv1 & _ & Hes1); [lia|].
    assert (Hlen1 : (length es1 <= length es + 1)%nat).
    { destruct Hes1 as [[-> _]|[-> _]]; [lia|]. rewrite length_app. cbn. lia. }
    destruct (IH _ es1 Hinv1) as (es' & Hinv' & Hmem); [lia|].
    exists es'. split; [exact Hinv'|].
    intros text Hin. cbn [map]. rewrite elem_of_cons.
    destruct (Hmem text Hin) as [H1|H]; [|auto].
    destruct Hes1 as [[-> _]|[-> _]]; [auto|].
    apply elem_of_app in H1 as [H1|H1]; [auto|].
    apply list_elem_of_singleton in H1. auto.
Qed.

Lemma call_text_add (texts : list bytes) :
  map call_text (map call_add texts) = texts.
Proof.
  induction texts as [|text texts IH]; [reflexivity|].
  cbn [map call_text]. rewrite IH. reflexivity.
Qed.

(** X5: a table filled by [add] alone holds every text that was added
    exactly once, and two calls return the same index exactly when their
    texts are equal. *)
Theorem add_only_no_duplicates (tag : N) (texts : list bytes) :
  N.of_nat (length texts) <= index_value.invalid ->
  NoDup (string_table.entries
           (snd (table_run (map call_add texts) (string_table.new tag))))
  /\ (forall text,
        text ∈ string_table.entries
                 (snd (table_run (map call_add texts) (string_table.new tag)))
        <-> text ∈ texts)
  /\ (forall (i j : nat) (s t : bytes) (a b : index_value.t),
        texts !! i = Some s -> texts !! j = Some t ->
        fst (table_run (map call_add texts) (string_table.new tag)) !! i = Some a ->
        fst (table_run (map call_add texts) (string_table.new tag)) !! j = Some b ->
        (a = b <-> s = t)).
Proof.
  intros Hlen.
  destruct (threshold_sim_run texts _ _ [] (threshold_sim_new tag)) as [_ (es' & Hsim)];
    [simpl; lia|].
  destruct Hsim as [Hinv Hnodup _ _ _ _ _].
  rewrite (table_inv_entries _ _ Hinv).
  destruct (table_run_spec (map call_add texts) (string_table.new tag) []
              (table_inv_new tag)) as (es2 & Hinv2 & _ & _ & Hall & _).
  { rewrite length_map. simpl. lia. }
  assert (Hes2 : es2 = es').
  { rewrite <- (table_inv_entries _ _ Hinv2). apply table_inv_entries, Hinv. }
  subst es2.
  assert (Hpos : forall (i : nat) (s : bytes) (a : index_value.t),
            texts !! i = Some s ->
            fst (table_run (map call_add texts) (string_table.new tag)) !! i = Some a ->
            es' !! N.to_nat a = Some s).
  { intros i s a Hs Ha.
    assert (Hc : map call_add texts !! i = Some (call_add s))
      by (rewrite list_lookup_fmap, Hs; reflexivity).
    exact (Forall2_lookup_lr _ _ _ _ _ _ Hall Hc Ha). }
  split; [exact Hnodup|]. split.
  - intros text. split.
    + intros Hin.
      destruct (table_run_members (map call_add texts) (string_table.new tag) []
                  (table_inv_new tag)) as (es3 & Hinv3 & Hmem).
      { rewrite length_map. simpl. lia. }
      assert (Hes3 : es3 = es').
      { rewrite <- (table_inv_entries _ _ Hinv3). apply table_inv_entries, Hinv. }
      subst es3. destruct (Hmem text Hin) as [H|H].
      * apply elem_of_nil in H. destruct H.
      * rewrite call_text_add in H. exact H.
    + intros Hin. apply list_elem_of_lookup in Hin as [i Hi].
      assert (Hc : map call_add texts !! i = Some (call_add text))
        by (rewrite list_lookup_fmap, Hi; reflexivity).
      destruct (Forall2_lookup_l _ _ _ _ _ Hall Hc) as (a & _ & Ha).
      eapply list_elem_of_lookup_2, Ha.
  - intros i j s t a b Hs Ht Ha Hb.
    pose proof (Hpos i s a Hs Ha) as Hsa. pose proof (Hpos j t b Ht Hb) as Htb.
    split.
    + intros ->. congruence.
    + intros ->. apply N2Nat.inj. exact (NoDup_lookup _ _ _ _ Hnodup Hsa Htb).
Qed.

Lemma add_only_no_duplicates_witness :
  string_table.entries
    (snd (table_run (map call_add [[x61]; [x62]; [x61]; [x63]; [x62]])
            (string_table.new pbf_layer.keys)))
  = [[x61]; [x62]; [x63]]
  /\ NoDup (string_table.entries
              (snd (table_run (map call_add [[x61]; [x62]; [x61]; [x63]; [x62]])
                      (string_table.new pbf_layer.keys)))).
Proof.
  destruct (add_only_no_duplicates pbf_layer.keys [[x61]; [x62]; [x61]; [x63]; [x62]])
    as [Hnodup _]; [vm_compute; discriminate|].
  split; [vm_compute; reflexivity|exact Hnodup].
Defined.

Lemma add_without_dup_check_run (texts : list bytes) (tbl : string_table.t)
    (es : list bytes) :
  table_inv tbl es ->
  N.of_nat (length es) + N.of_nat (length texts) <= index_value.invalid ->
  fst (table_run (map call_add_without_dup_check texts) tbl)
  = map N.of_nat (seq (length es) (length texts))
  /\ table_inv (snd (table_run (map call_add_without_dup_check texts) tbl)) (es ++ texts).
Proof.
  revert tbl es. induction texts as [|text texts IH]; intros tbl es Hinv Hroom.
  - cbn. rewrite app_nil_r. split; [reflexivity|exact Hinv].
  - cbn [length map] in *. rewrite table_run_cons. cbn [fst snd table_apply seq map].
    destruct (add_without_dup_check_inv text tbl es Hinv) as [Hi Hinv1]; [lia|].
    destruct (IH _ (es ++ [text]) Hinv1) as [Hids Hinv'].
    { rewrite length_app. cbn. lia. }
    rewrite Hi, Hids, length_app. cbn [length]. rewrite Nat.add_1_r.
    rewrite <- app_assoc in Hinv'. split; [reflexivity|exact Hinv'].
Qed.

(** X6: [add_without_dup_check] never looks at what the table holds: a
    new table filled by it holds the texts as they were given, in order
    and with their repetitions, and the calls return 0, 1, 2, and so
    on. *)
Theorem add_without_dup_check_keeps_all (tag : N) (texts : list bytes) :
  N.of_nat (length texts) <= index_value.invalid ->
  fst (table_run (map call_add_without_dup_check texts) (string_table.new tag))
  = map N.of_nat (seq 0 (length texts))
  /\ string_table.entries
       (snd (table_run (map call_add_without_dup_check texts) (string_table.new tag)))
     = texts.
Proof.
  intros Hlen.
  destruct (add_without_dup_check_run texts (string_table.new tag) []
              (table_inv_new tag)) as [Hids Hinv]; [simpl; lia|].
  split; [exact Hids|]. exact (table_inv_entries _ _ Hinv).
Qed.

Lemma add_without_dup_check_keeps_all_witness :
  fst (table_run (map call_add_without_dup_check [[x61]; [x62]; [x61]])
         (string_table.new pbf_layer.keys)) = [0; 1; 2]
  /\ string_table.entries
       (snd (table_run (map call_add_without_dup_check [[x61]; [x62]; [x61]])
               (string_table.new pbf_layer.keys)))
     = [[x61]; [x62]; [x61]].
Proof.
  destruct (add_without_dup_check_keeps_all pbf_layer.keys [[x61]; [x62]; [x61]])
    as [Hids Hes]; [vm_compute; discriminate|].
  split; [rewrite Hids; reflexivity|exact Hes].
Defined.

(** ** The numeric tables *)

Lemma no_equal_entries_snoc (k : numeric_table) (v : list N) (x : N) :
  no_equal_entries k v ->
  (forall j u, v !! j = Some u -> numeric_eq k u x = false) ->
  no_equal_entries k (v ++ [x]).
Proof.
  intros Hv Hx i j a b Hlt Ha Hb.
  pose proof (lookup_lt_Some _ _ _ Hb) as Hj. rewrite length_app in Hj. cbn in Hj.
  assert (Hi : (i < length v)%nat) by lia.
  rewrite lookup_app_l in Ha by exact Hi.
  destruct (decide (j < length v)%nat) as [Hjl|Hjl].
  - rewrite lookup_app_l in Hb by exact Hjl. exact (Hv i j a b Hlt Ha Hb).
  - assert (j = length v) by lia. subst j.
    rewrite list_lookup_middle in Hb by reflexivity. injection Hb as <-.
    exact (Hx i a Ha).
Qed.

(** X7: the numeric tables of a v3 layer never hold two entries that
    compare equal, as long as they are filled by [add_double_value],
    [add_float_value] and [add_int_value]: the calls keep that state of
    the table, whatever the values (NaN included, which equals
    nothing). *)
Theorem numeric_table_no_equal_entries (k : numeric_table) (values : list N)
    (l : layer_builder_impl.t) :
  layer_builder_impl.m_version l = 3 ->
  no_equal_entries k (numeric_values k l) ->
  N.of_nat (length (numeric_values k l)) + N.of_nat (length values)
    <= index_value.invalid ->
  exists ids l',
    numeric_run k (map call_add_value values) l = returns (ids, l')
    /\ no_equal_entries k (numeric_values k l').
Proof.
  revert l. induction values as [|x values IH]; intros l Hver Hne Hroom.
  - exists [], l. split; [reflexivity|exact Hne].
  - cbn [length map numeric_run] in *.
    destruct (numeric_apply_spec k (call_add_value x) l Hver) as (i & l1 & Hrun & Hres);
      [lia|].
    rewrite Hrun. cbn [bind fst snd].
    assert (H1 : layer_builder_impl.m_version l1 = 3
                 /\ no_equal_entries k (numeric_values k l1)
                 /\ (length (numeric_values k l1) <= length (numeric_values k l) + 1)%nat).
    { destruct Hres as [n u _ _ _ _ _ ->|Hnone _ Hvals Hv1].
      - split; [exact Hver|]. split; [exact Hne|lia].
      - split; [congruence|]. rewrite Hvals. split.
        + apply no_equal_entries_snoc; [exact Hne|].
          cbn [numeric_call_value] in Hnone.
          apply (std_find_None (numeric_eq k)). apply Hnone. reflexivity.
        + rewrite length_app. cbn. lia. }
    destruct H1 as (Hver1 & Hne1 & Hlen1).
    destruct (IH l1 Hver1 Hne1) as (ids & l' & Hrun' & Hne'); [lia|].
    rewrite Hrun'. cbn [bind fst snd]. exists (i :: ids), l'.
    split; [reflexivity|exact Hne'].
Qed.

Lemma numeric_table_no_equal_entries_witness :
  exists ids l',
    numeric_run double_table
      (map call_add_value [double_19; double_nan; double_zero; double_19;
                           double_minus_zero; double_nan])
      (layer_builder_impl.new sample_text 3 4096) = returns (ids, l')
    /\ no_equal_entries double_table (numeric_values double_table l').
Proof.
  apply (numeric_table_no_equal_entries double_table
           [double_19; double_nan; double_zero; double_19; double_minus_zero; double_nan]
           (layer_builder_impl.new sample_text 3 4096)).
  - reflexivity.
  - intros i j a b _ Ha. cbn in Ha. rewrite lookup_nil in Ha. discriminate.
  - vm_compute. discriminate.
Defined.

(** ** The string values of a v3 layer *)

Lemma add_string_value_returns (value : bytes) (l : layer_builder_impl.t) :
  layer_builder_impl.m_version l = 3 ->
  layer_builder_impl.add_string_value value l
  = returns (fst (string_table.add value (layer_builder_impl.m_string_values_table l)),
             layer_builder_impl.set_string_values_table
               (snd (string_table.add value (layer_builder_impl.m_string_values_table l)))
               l).
Proof.
  intros Hv. unfold layer_builder_impl.add_string_value.
  rewrite Hv. cbn [N.eqb Pos.eqb vtzero_assert bind].
  destruct (string_table.add value (layer_builder_impl.m_string_values_table l));
    reflexivity.
Qed.

(** X8: on a layer of version 3, [add_string_value] interns its
    argument: the same string twice gets one index, two different strings
    get two; the other tables, the layer buffer and the feature count
    stay as they are. *)
Theorem add_string_value_dedup (l : layer_builder_impl.t) (value value' : bytes) :
  layer_builder_impl.m_version l = 3 ->
  table_ok (layer_builder_impl.m_string_values_table l) 3 ->
  exists i1 l1 i2 l2 i3 l3,
    layer_builder_impl.add_string_value value l = returns (i1, l1)
    /\ layer_builder_impl.add_string_value value l1 = returns (i2, l2)
    /\ layer_builder_impl.add_string_value value' l2 = returns (i3, l3)
    /\ i1 = i2
    /\ (i2 = i3 <-> value = value')
    /\ string_table.entries (layer_builder_impl.m_string_values_table l3)
         !! N.to_nat i1 = Some value
    /\ string_table.entries (layer_builder_impl.m_string_values_table l3)
         !! N.to_nat i3 = Some value'
    /\ layer_builder_impl.m_keys_table l3 = layer_builder_impl.m_keys_table l
    /\ layer_builder_impl.m_values_table l3 = layer_builder_impl.m_values_table l
    /\ layer_builder_impl.m_data l3 = layer_builder_impl.m_data l
    /\ layer_builder_impl.m_num_features l3 = layer_builder_impl.m_num_features l.
Proof.
  intros Hver [Hinv Hroom].
  set (st := layer_builder_impl.m_string_values_table l) in *.
  set (es := string_table.entries st) in *.
  eexists _, _, _, _, _, _.
  split; [apply add_string_value_returns, Hver|].
  split; [apply add_string_value_returns, Hver|].
  split; [apply add_string_value_returns, Hver|].
  cbn [layer_builder_impl.set_string_values_table
       layer_builder_impl.m_string_values_table layer_builder_impl.m_keys_table
       layer_builder_impl.m_values_table layer_builder_impl.m_data
       layer_builder_impl.m_num_features].
  fold st.
  destruct (add_position_prefix value st es Hinv) as (es1 & Hinv1 & Hl1 & Hp1 & Hn1); [lia|].
  destruct (add_position_prefix value _ es1 Hinv1) as (es2 & Hinv2 & Hl2 & Hp2 & Hn2); [lia|].
  destruct (add_position_prefix value' _ es2 Hinv2) as (es3 & Hinv3 & Hl3 & Hp3 & Hn3); [lia|].
  assert (Htwice : fst (string_table.add value (snd (string_table.add value st)))
                   = fst (string_table.add value st))
    by (eapply add_twice; [exact Hinv|lia]).
  rewrite (table_inv_entries _ _ Hinv3).
  split; [symmetry; exact Htwice|].
  split; [|split; [|split; [exact Hl3|repeat split]]].
  - split.
    + intros Heq. destruct (decide (value = value')) as [He|Hne]; [exact He|].
      exfalso. revert Heq. eapply add_distinct; [exact Hinv1|lia|exact Hne].
    + intros <-. symmetry. eapply add_twice; [exact Hinv1|lia].
  - eapply prefix_lookup_Some; [|exact Hp3].
    eapply prefix_lookup_Some; [|exact Hp2]. exact Hl1.
Qed.

Lemma add_string_value_dedup_witness :
  exists i1 l1 i2 l2 i3 l3,
    layer_builder_impl.add_string_value [x61]
      (layer_builder_impl.new sample_text 3 4096) = returns (i1, l1)
    /\ layer_builder_impl.add_string_value [x61] l1 = returns (i2, l2)
    /\ layer_builder_impl.add_string_value [x62] l2 = returns (i3, l3)
    /\ i1 = i2 /\ i2 <> i3.
Proof.
  destruct (add_string_value_dedup (layer_builder_impl.new sample_text 3 4096)
              [x61] [x62])
    as (i1 & l1 & i2 & l2 & i3 & l3 & H1 & H2 & H3 & He & Hiff & _).
  - reflexivity.
  - apply table_ok_new. vm_compute. discriminate.
  - exists i1, l1, i2, l2, i3, l3.
    split; [exact H1|]. split; [exact H2|]. split; [exact H3|]. split; [exact He|].
    intros Heq. apply Hiff in Heq. discriminate.
Defined.

(** ** The size estimates *)

Lemma length_write_varint_loop (fuel n : nat) (v : N) :
  v < 2 ^ (7 * N.of_nat n) -> (1 <= n)%nat ->
  (length (pbf.write_varint_loop fuel v) <= n)%nat.
Proof.
  revert n v. induction fuel as [|fuel IH]; intros n v Hv Hn; cbn [pbf.write_varint_loop].
  - cbn. lia.
  - destruct (N.ltb_spec 0x7f v) as [Hlt|Hge]; [|cbn; lia].
    destruct n as [|n]; [lia|].
    destruct n as [|n].
    { change (2 ^ (7 * N.of_nat 1)) with 128 in Hv. lia. }
    cbn [length]. apply le_n_S. apply IH; [|lia].
    rewrite N.shiftr_div_pow2.
    apply N.Div0.div_lt_upper_bound.
    rewrite <- N.pow_add_r.
    replace (7 + 7 * N.of_nat (S n)) with (7 * N.of_nat (S (S n))) by lia.
    exact Hv.
Qed.

Lemma length_write_varint (n : nat) (v : N) :
  v < 2 ^ (7 * N.of_nat n) -> (1 <= n)%nat ->
  (1 <= length (pbf.write_varint v) <= n)%nat.
Proof.
  intros Hv Hn. split; [|apply length_write_varint_loop; assumption].
  pose proof (write_varint_nonempty v) as Hne.
  destruct (pbf.write_varint v); [congruence|cbn; lia].
Qed.

Lemma length_add_bytes (tag : N) (n : nat) (v : bytes) :
  tag < 16 ->
  N.of_nat (length v) < 2 ^ (7 * N.of_nat n) -> (1 <= n)%nat ->
  (length v + 2 <= length (pbf.add_bytes tag v) <= length v + 1 + n)%nat.
Proof.
  intros Htag Hv Hn. unfold pbf.add_bytes. rewrite !length_app.
  assert (Hkey : pbf.key tag pbf.wire_length_delimited < 2 ^ (7 * N.of_nat 1)).
  { unfold pbf.key, pbf.wire_length_delimited.
    change (2 ^ (7 * N.of_nat 1)) with 128.
    assert (Hb : N.lor (N.shiftl tag 3) 2 < 128).
    { destruct tag as [|p]; [reflexivity|].
      do 4 (try destruct p as [p|p|]); try (exfalso; lia); reflexivity. }
    exact Hb. }
  pose proof (length_write_varint 1 _ Hkey (le_n 1)) as Hk.
  pose proof (length_write_varint n _ Hv Hn) as Hl.
  lia.
Qed.

(** X9: for an existing layer of less than 2^49 bytes, [estimated_size]
    is an upper bound of what [build] adds to the tile: the data, one byte
    for the key and at most seven for the length. *)
Theorem existing_estimated_size_bound (l : layer_builder_existing.t) (out : bytes) :
  N.of_nat (length (layer_builder_existing.m_data l)) < 2 ^ 49 ->
  N.of_nat (length (layer_builder_existing.build l out))
  <= N.of_nat (length out) + layer_builder_existing.estimated_size l
  /\ N.of_nat (length out) + N.of_nat (length (layer_builder_existing.m_data l)) + 2
     <= N.of_nat (length (layer_builder_existing.build l out)).
Proof.
  intros Hlen. unfold layer_builder_existing.build, layer_builder_existing.estimated_size.
  rewrite length_app.
  rewrite to_size_t_small.
  2:{ assert (2 ^ 49 + 8 < 2 ^ 64) by (vm_compute; reflexivity). lia. }
  destruct (length_add_bytes pbf_tile.layers 7 (layer_builder_existing.m_data l))
    as [Hlo Hhi]; [reflexivity|exact Hlen|lia|].
  lia.
Qed.

Lemma existing_estimated_size_bound_witness :
  N.of_nat (length (layer_builder_existing.build sample_existing_layer []))
  <= layer_builder_existing.estimated_size sample_existing_layer
  /\ layer_builder_existing.estimated_size sample_existing_layer = 308.
Proof.
  destruct (existing_estimated_size_bound sample_existing_layer []) as [Hle _].
  - vm_compute. reflexivity.
  - split; [exact Hle|reflexivity].
Defined.

(** X10: for a layer of version 1 or 2, [estimated_size] is an upper
    bound of what [build] adds to the tile, as long as the estimate is a
    [size_t]. *)
Theorem estimated_size_bound (l : layer_builder_impl.t) (out : bytes) :
  layer_builder_impl.m_version l < 3 ->
  N.of_nat (length (layer_builder_impl.m_data l))
  + N.of_nat (length (string_table.data (layer_builder_impl.m_keys_table l)))
  + N.of_nat (length (string_table.data (layer_builder_impl.m_values_table l)))
  + N.of_nat (length (layer_builder_impl.m_double_values l))
  + N.of_nat (length (layer_builder_impl.m_float_values l))
  + N.of_nat (length (layer_builder_impl.m_int_values l))
  + 14 < 2 ^ 64 ->
  N.of_nat (length (layer_builder_impl.build l out))
  <= N.of_nat (length out) + layer_builder_impl.estimated_size l.
Proof.
  intros Hver Hsize. unfold layer_builder_impl.estimated_size.
  rewrite to_size_t_small by exact Hsize.
  unfold layer_builder_impl.build.
  destruct (0 <? layer_builder_impl.m_num_features l); [|lia].
  apply N.ltb_lt in Hver. rewrite Hver.
  rewrite add_bytes_vectored_concat, length_app.
  set (payload := concat [layer_builder_impl.m_data l;
                          string_table.data (layer_builder_impl.m_keys_table l);
                          string_table.data (layer_builder_impl.m_values_table l)]).
  assert (Hp : length payload
               = (length (layer_builder_impl.m_data l)
                  + length (string_table.data (layer_builder_impl.m_keys_table l))
                  + length (string_table.data (layer_builder_impl.m_values_table l)))%nat).
  { unfold payload. cbn [concat]. rewrite !length_app. cbn [length]. lia. }
  destruct (length_add_bytes pbf_tile.layers 10 payload) as [_ Hhi];
    [reflexivity| |lia|].
  { assert (2 ^ 64 < 2 ^ (7 * N.of_nat 10)) by (vm_compute; reflexivity). lia. }
  lia.
Qed.

Lemma estimated_size_bound_witness :
  N.of_nat (length (layer_builder_impl.build
                      (layer_builder_impl.increment_feature_count
                         (snd (layer_builder_impl.add_key sample_text
                                 (layer_builder_impl.new sample_text 2 4096)))) []))
  <= layer_builder_impl.estimated_size
       (layer_builder_impl.increment_feature_count
          (snd (layer_builder_impl.add_key sample_text
                  (layer_builder_impl.new sample_text 2 4096)))).
Proof.
  apply (estimated_size_bound
           (layer_builder_impl.increment_feature_count
              (snd (layer_builder_impl.add_key sample_text
                      (layer_builder_impl.new sample_text 2 4096)))) []).
  - vm_compute. reflexivity.
  - vm_compute. reflexivity.
Defined.

Lemma length_fixed (n : nat) (v : N) : length (pbf.fixed n v) = n.
Proof.
  revert v. induction n as [|n IH]; intros v; [reflexivity|].
  cbn [pbf.fixed length]. rewrite IH. reflexivity.
Qed.

Lemma length_concat_fixed (n : nat) (vs : list N) :
  length (concat (map (pbf.fixed n) vs)) = (n * length vs)%nat.
Proof.
  induction vs as [|v vs IH]; [cbn; lia|].
  cbn [map concat length]. rewrite length_app, length_fixed, IH. lia.
Qed.

Lemma length_add_bytes_ge (tag : N) (v : bytes) :
  (length v + 2 <= length (pbf.add_bytes tag v))%nat.
Proof.
  unfold pbf.add_bytes. rewrite !length_app.
  pose proof (write_varint_nonempty (pbf.key tag pbf.wire_length_delimited)).
  pose proof (write_varint_nonempty (N.of_nat (length v))).
  destruct (pbf.write_varint (pbf.key tag pbf.wire_length_delimited)); [congruence|].
  destruct (pbf.write_varint (N.of_nat (length v))); [congruence|].
  cbn [length]. lia.
Qed.

Lemma length_add_packed_fixed (n : nat) (tag : N) (vs : list N) :
  (n * length vs <= length (pbf.add_packed_fixed n tag vs))%nat.
Proof.
  unfold pbf.add_packed_fixed. destruct vs as [|v vs]; [cbn; lia|].
  pose proof (length_add_bytes_ge tag (concat (map (pbf.fixed n) (v :: vs)))) as H.
  rewrite length_concat_fixed in H. lia.
Qed.

Lemma length_add_packed_varint (tag : N) (vs : list N) :
  (length vs <= length (pbf.add_packed_varint tag vs))%nat.
Proof.
  unfold pbf.add_packed_varint. destruct vs as [|v vs]; [cbn; lia|].
  pose proof (length_add_bytes_ge tag (concat (map pbf.write_varint (v :: vs)))) as H.
  pose proof (length_packed (v :: vs)). lia.
Qed.

(** X11: for a layer of version 3, [estimated_size] is no upper bound:
    it leaves out the string values and counts one byte for each double
    and float, which [build] writes as eight and four bytes.  When what
    is left out (the string values table, seven bytes of each double,
    three of each float) exceeds the size of the v1/v2 values table by
    more than 12 bytes, [build] adds more to the tile than the
    estimate. *)
Theorem estimated_size_v3_too_small (l : layer_builder_impl.t) (out : bytes) :
  0 < layer_builder_impl.m_num_features l ->
  3 <= layer_builder_impl.m_version l ->
  N.of_nat (length (layer_builder_impl.m_data l))
  + N.of_nat (length (string_table.data (layer_builder_impl.m_keys_table l)))
  + N.of_nat (length (string_table.data (layer_builder_impl.m_values_table l)))
  + N.of_nat (length (layer_builder_impl.m_double_values l))
  + N.of_nat (length (layer_builder_impl.m_float_values l))
  + N.of_nat (length (layer_builder_impl.m_int_values l))
  + 14 < 2 ^ 64 ->
  N.of_nat (length (string_table.data (layer_builder_impl.m_values_table l))) + 12
  < N.of_nat (length (string_table.data (layer_builder_impl.m_string_values_table l)))
    + 7 * N.of_nat (length (layer_builder_impl.m_double_values l))
    + 3 * N.of_nat (length (layer_builder_impl.m_float_values l)) ->
  N.of_nat (length out) + layer_builder_impl.estimated_size l
  < N.of_nat (length (layer_builder_impl.build l out)).
Proof.
  intros Hpos Hver Hsize Hmore. unfold layer_builder_impl.estimated_size.
  rewrite to_size_t_small by exact Hsize.
  unfold layer_builder_impl.build.
  apply N.ltb_lt in Hpos. rewrite Hpos.
  destruct (N.ltb_spec (layer_builder_impl.m_version l) 3) as [Hlt|_]; [lia|].
  rewrite add_bytes_vectored_concat, length_app.
  match goal with
  | |- context [pbf.add_bytes pbf_tile.layers ?p] => set (payload := p)
  end.
  pose proof (length_add_bytes_ge pbf_tile.layers payload) as Hge.
  assert (Hp : (length (layer_builder_impl.m_data l)
                + length (string_table.data (layer_builder_impl.m_keys_table l))
                + length (string_table.data (layer_builder_impl.m_string_values_table l))
                + 8 * length (layer_builder_impl.m_double_values l)
                + 4 * length (layer_builder_impl.m_float_values l)
                + length (layer_builder_impl.m_int_values l)
                <= length payload)%nat).
  { unfold payload. cbn [concat]. rewrite !length_app. cbn [length app].
    pose proof (length_add_packed_fixed 8 pbf_layer.double_values
                  (layer_builder_impl.m_double_values l)) as Hd.
    pose proof (length_add_packed_fixed 4 pbf_layer.float_values
                  (layer_builder_impl.m_float_values l)) as Hf.
    pose proof (length_add_packed_varint pbf_layer.int_values
                  (layer_builder_impl.m_int_values l)) as Hi.
    destruct (decide (layer_builder_impl.m_double_values l = [])) as [Ed|_];
      destruct (decide (layer_builder_impl.m_float_values l = [])) as [Ef|_];
      destruct (decide (layer_builder_impl.m_int_values l = [])) as [Ei|_];
      rewrite ?Ed, ?Ef, ?Ei in *; rewrite ?length_app; cbn [length] in *; lia. }
  lia.
Qed.

Lemma estimated_size_v3_too_small_witness :
  layer_builder_impl.estimated_size sample_v3_layer
  < N.of_nat (length (layer_builder_impl.build sample_v3_layer [])).
Proof.
  apply (estimated_size_v3_too_small sample_v3_layer []).
  - vm_compute. reflexivity.
  - vm_compute. discriminate.
  - vm_compute. reflexivity.
  - vm_compute. reflexivity.
Defined.

(** ** Reading a built layer back *)

Lemma message_bytes_app (fs fs' : list pbf_field) :
  message_bytes (fs ++ fs') = message_bytes fs ++ message_bytes fs'.
Proof. unfold message_bytes. rewrite map_app, concat_app. reflexivity. Qed.

Lemma table_bytes_message (tag : N) (es : list bytes) :
  table_bytes tag es = message_bytes (map (bytes_field tag) es).
Proof.
  unfold table_bytes, message_bytes. rewrite map_map. reflexivity.
Qed.

Lemma views_message (tag : N) (fs : list pbf_field) (rest : bytes) :
  pbf.views tag (message_bytes fs ++ rest)
  = match pbf.views tag rest with
    | Some vs => Some (payloads tag fs ++ vs)
    | None => None
    end.
Proof.
  induction fs as [|f fs IH].
  - unfold message_bytes. cbn [map concat app payloads].
    destruct (pbf.views tag rest); reflexivity.
  - unfold message_bytes in *. cbn [map concat]. rewrite <- app_assoc.
    destruct f as [t v|t p]; cbn [field_bytes payloads].
    + rewrite views_add_varint. exact IH.
    + rewrite views_add_bytes, IH. destruct (pbf.views tag rest); [|reflexivity].
      destruct (t =? tag); reflexivity.
Qed.

Lemma views_message_all (tag : N) (fs : list pbf_field) :
  pbf.views tag (message_bytes fs) = Some (payloads tag fs).
Proof.
  rewrite <- (app_nil_r (message_bytes fs)), views_message, views_nil, app_nil_r.
  reflexivity.
Qed.

Lemma find_varint_message (tag : N) (fs : list pbf_field) (rest : bytes) :
  pbf.find_varint tag (message_bytes fs ++ rest)
  = match first_varint tag fs with
    | Some v => Some v
    | None => pbf.find_varint tag rest
    end.
Proof.
  induction fs as [|f fs IH]; [reflexivity|].
  unfold message_bytes in *. cbn [map concat]. rewrite <- app_assoc.
  destruct f as [t v|t p]; cbn [field_bytes first_varint].
  - rewrite find_varint_add_varint. destruct (t =? tag); [reflexivity|exact IH].
  - rewrite find_varint_add_bytes. exact IH.
Qed.

Lemma find_varint_message_all (tag : N) (fs : list pbf_field) :
  pbf.find_varint tag (message_bytes fs) = first_varint tag fs.
Proof.
  rewrite <- (app_nil_r (message_bytes fs)), find_varint_message, find_varint_nil.
  destruct (first_varint tag fs); reflexivity.
Qed.

Lemma payloads_app (tag : N) (fs fs' : list pbf_field) :
  payloads tag (fs ++ fs') = payloads tag fs ++ payloads tag fs'.
Proof.
  induction fs as [|[t v|t p] fs IH]; cbn [app payloads]; [reflexivity|exact IH|].
  rewrite IH. destruct (t =? tag); reflexivity.
Qed.

Lemma payloads_table (tag t : N) (es : list bytes) :
  payloads tag (map (bytes_field t) es) = if t =? tag then es else [].
Proof.
  induction es as [|e es IH]; cbn [map payloads].
  - destruct (t =? tag); reflexivity.
  - rewrite IH. destruct (t =? tag); reflexivity.
Qed.

Lemma first_varint_app (tag : N) (fs fs' : list pbf_field) :
  first_varint tag (fs ++ fs')
  = match first_varint tag fs with
    | Some v => Some v
    | None => first_varint tag fs'
    end.
Proof.
  induction fs as [|[t v|t p] fs IH]; cbn [app first_varint]; [reflexivity| |exact IH].
  destruct (t =? tag); [reflexivity|exact IH].
Qed.

Lemma first_varint_bytes_fields (tag : N) (fs : list pbf_field) :
  Forall (fun f => exists t p, f = bytes_field t p) fs -> first_varint tag fs = None.
Proof.
  induction 1 as [|f fs (t & p & ->) _ IH]; [reflexivity|exact IH].
Qed.

Lemma first_varint_fields_only (tag : N) (fs tables : list pbf_field) :
  Forall (fun f => exists t p, f = bytes_field t p) tables ->
  first_varint tag (fs ++ tables) = first_varint tag fs.
Proof.
  intros H. rewrite first_varint_app, (first_varint_bytes_fields tag tables H).
  destruct (first_varint tag fs); reflexivity.
Qed.

Lemma table_wf_data (tbl : string_table.t) (tag : N) :
  table_wf tbl tag ->
  string_table.m_data tbl
  = message_bytes (map (bytes_field tag) (string_table.entries tbl)).
Proof.
  intros [Hp (es & Hd)]. unfold string_table.entries.
  rewrite Hp, Hd, views_table_bytes. apply table_bytes_message.
Qed.

Lemma views_layers_record (layer : bytes) :
  pbf.views pbf_tile.layers (pbf.add_bytes pbf_tile.layers layer) = Some [layer].
Proof.
  rewrite <- (app_nil_r (pbf.add_bytes pbf_tile.layers layer)).
  rewrite views_add_bytes, views_nil, N.eqb_refl. reflexivity.
Qed.

Lemma bytes_fields_table (tag : N) (es : list bytes) :
  Forall (fun f => exists t p, f = bytes_field t p) (map (bytes_field tag) es).
Proof. apply Forall_fmap, Forall_forall. intros e _. cbn. eauto. Qed.

Lemma bytes_fields_numeric (k : numeric_table) (values : list N) :
  Forall (fun f => exists t p, f = bytes_field t p) (numeric_fields k values).
Proof.
  unfold numeric_fields. destruct values; [constructor|].
  constructor; [eauto|constructor].
Qed.

(** What [build] writes for a layer of version 1 or 2 with features: one
    record whose fields are those of the layer buffer, then the keys,
    then the values. *)
Lemma build_v2_record (l : layer_builder_impl.t) (fs : list pbf_field) :
  0 < layer_builder_impl.m_num_features l ->
  layer_builder_impl.m_version l < 3 ->
  layer_builder_impl.m_data l = message_bytes fs ->
  table_wf (layer_builder_impl.m_keys_table l) pbf_layer.keys ->
  table_wf (layer_builder_impl.m_values_table l) pbf_layer.values ->
  layer_builder_impl.build l []
  = pbf.add_bytes pbf_tile.layers
      (message_bytes
         (fs
          ++ map (bytes_field pbf_layer.keys)
               (string_table.entries (layer_builder_impl.m_keys_table l))
          ++ map (bytes_field pbf_layer.values)
               (string_table.entries (layer_builder_impl.m_values_table l)))).
Proof.
  intros Hpos Hver Hd Hk Hv. unfold layer_builder_impl.build.
  apply N.ltb_lt in Hpos, Hver. rewrite Hpos, Hver.
  rewrite add_bytes_vectored_concat. unfold string_table.data.
  rewrite Hd, (table_wf_data _ _ Hk), (table_wf_data _ _ Hv).
  rewrite !message_bytes_app. cbn [app concat]. rewrite app_nil_r. reflexivity.
Qed.

Lemma add_packed_fixed_fields (k : numeric_table) (width : nat) (values : list N) :
  numeric_payload k values = concat (map (pbf.fixed width) values) ->
  (if decide (values = []) then []
   else pbf.add_packed_fixed width (numeric_tag k) values)
  = message_bytes (numeric_fields k values).
Proof.
  intros Hp. unfold numeric_fields, pbf.add_packed_fixed.
  destruct values as [|v values]; [reflexivity|].
  rewrite decide_False by discriminate.
  unfold message_bytes. cbn [map concat field_bytes]. rewrite app_nil_r, Hp. reflexivity.
Qed.

Lemma add_packed_varint_fields (values : list N) :
  (if decide (values = []) then []
   else pbf.add_packed_varint (numeric_tag int_table) values)
  = message_bytes (numeric_fields int_table values).
Proof.
  unfold numeric_fields, pbf.add_packed_varint.
  destruct values as [|v values]; [reflexivity|].
  rewrite decide_False by discriminate.
  unfold message_bytes. cbn [map concat field_bytes]. rewrite app_nil_r. reflexivity.
Qed.

(** What [build] writes for a layer of version 3 with features: the
    fields of the layer buffer, the keys, the string values, and one
    packed field for each numeric table that is not empty. *)
Lemma build_v3_record (l : layer_builder_impl.t) (fs : list pbf_field) :
  0 < layer_builder_impl.m_num_features l ->
  3 <= layer_builder_impl.m_version l ->
  layer_builder_impl.m_data l = message_bytes fs ->
  table_wf (layer_builder_impl.m_keys_table l) pbf_layer.keys ->
  table_wf (layer_builder_impl.m_string_values_table l) pbf_layer.string_values ->
  layer_builder_impl.build l []
  = pbf.add_bytes pbf_tile.layers
      (message_bytes
         (fs
          ++ map (bytes_field pbf_layer.keys)
               (string_table.entries (layer_builder_impl.m_keys_table l))
          ++ map (bytes_field pbf_layer.string_values)
               (string_table.entries (layer_builder_impl.m_string_values_table l))
          ++ numeric_fields double_table (layer_builder_impl.m_double_values l)
          ++ numeric_fields float_table (layer_builder_impl.m_float_values l)
          ++ numeric_fields int_table (layer_builder_impl.m_int_values l))).
Proof.
  intros Hpos Hver Hd Hk Hs. unfold layer_builder_impl.build.
  apply N.ltb_lt in Hpos. rewrite Hpos.
  destruct (N.ltb_spec (layer_builder_impl.m_version l) 3) as [Hlt|_]; [lia|].
  rewrite add_bytes_vectored_concat. unfold string_table.data.
  rewrite Hd, (table_wf_data _ _ Hk), (table_wf_data _ _ Hs).
  rewrite !message_bytes_app. cbn [app concat]. rewrite app_nil_r.
  rewrite <- (add_packed_fixed_fields double_table 8) by reflexivity.
  rewrite <- (add_packed_fixed_fields float_table 4) by reflexivity.
  rewrite <- add_packed_varint_fields.
  cbn [numeric_tag].
  destruct (decide (layer_builder_impl.m_double_values l = []));
    destruct (decide (layer_builder_impl.m_float_values l = []));
    destruct (decide (layer_builder_impl.m_int_values l = []));
    cbn [app]; rewrite ?app_nil_r, <- ?app_assoc; reflexivity.
Qed.

(** X12: a layer of version 1 or 2 that has features is built as one
    layer record of the tile, and a reader of that record finds the
    fields of the layer buffer first, then the entries of the keys table
    under the keys tag and those of the values table under the values
    tag, and nothing else. *)
Theorem build_v2_round_trip (l : layer_builder_impl.t) (fs : list pbf_field) :
  0 < layer_builder_impl.m_num_features l ->
  layer_builder_impl.m_version l < 3 ->
  layer_builder_impl.m_data l = message_bytes fs ->
  table_wf (layer_builder_impl.m_keys_table l) pbf_layer.keys ->
  table_wf (layer_builder_impl.m_values_table l) pbf_layer.values ->
  exists layer,
    pbf.views pbf_tile.layers (layer_builder_impl.build l []) = Some [layer]
    /\ (forall tag,
          pbf.views tag layer
          = Some (payloads tag fs
                  ++ (if pbf_layer.keys =? tag
                      then string_table.entries (layer_builder_impl.m_keys_table l)
                      else [])
                  ++ (if pbf_layer.values =? tag
                      then string_table.entries (layer_builder_impl.m_values_table l)
                      else [])))
    /\ (forall tag, pbf.find_varint tag layer = first_varint tag fs).
Proof.
  intros Hpos Hver Hd Hk Hv.
  rewrite (build_v2_record l fs Hpos Hver Hd Hk Hv).
  eexists. split; [apply views_layers_record|]. split.
  - intros tag. rewrite views_message_all, !payloads_app, !payloads_table. reflexivity.
  - intros tag. rewrite find_varint_message_all.
    apply first_varint_fields_only, Forall_app.
    split; apply bytes_fields_table.
Qed.

(** Proves [table_wf] of a concrete table. *)
Ltac table_wf_by_computation :=
  split; [reflexivity|];
  match goal with
  | |- exists es, string_table.m_data ?tbl = _ =>
      exists (string_table.entries tbl); vm_compute; reflexivity
  end.

Lemma build_v2_round_trip_witness :
  exists layer,
    pbf.views pbf_tile.layers (layer_builder_impl.build sample_v2_layer [])
    = Some [layer]
    /\ pbf.views pbf_layer.keys layer = Some [sample_text; [x66; x6f; x6f]]
    /\ pbf.views pbf_layer.values layer
       = Some [encoded_property_value.of_string [x62; x61; x72]]
    /\ pbf.views pbf_layer.name layer = Some [sample_text]
    /\ pbf.find_varint pbf_layer.version layer = Some 2.
Proof.
  destruct (build_v2_round_trip sample_v2_layer (header_fields sample_text 2 4096))
    as (layer & Hl & Hviews & Hvarint).
  - vm_compute. reflexivity.
  - vm_compute. reflexivity.
  - vm_compute. reflexivity.
  - table_wf_by_computation.
  - table_wf_by_computation.
  - exists layer. split; [exact Hl|].
    rewrite !Hviews, Hvarint. repeat split; vm_compute; reflexivity.
Defined.

Lemma byte_of_N_mod (n : N) : Byte.to_N (byte_of_N n) = n mod 256.
Proof.
  unfold byte_of_N. change 0xff with (N.ones 8). rewrite N.land_ones.
  change (2 ^ 8) with 256.
  assert (Hlt : n mod 256 < 256) by (apply N.mod_lt; discriminate).
  generalize dependent (n mod 256). intros m Hlt.
  destruct (Byte.of_N m) as [b|] eqn:E.
  - apply Byte.to_of_N. exact E.
  - apply Byte.of_N_None_iff in E. lia.
Qed.

Lemma get_fixed_written (width : nat) (v : N) (rest : bytes) :
  get_fixed width (pbf.fixed width v ++ rest)
  = Some (v mod 2 ^ (8 * N.of_nat width), rest).
Proof.
  revert v. induction width as [|width IH]; intros v.
  - cbn. rewrite N.mod_1_r. reflexivity.
  - cbn [pbf.fixed app get_fixed]. rewrite IH, byte_of_N_mod, N.shiftr_div_pow2.
    f_equal. f_equal.
    replace (2 ^ (8 * N.of_nat (S width))) with (256 * 2 ^ (8 * N.of_nat width)).
    + change (2 ^ 8) with 256. symmetry. apply N.Div0.mod_mul_r.
    + replace (8 * N.of_nat (S width)) with (8 + 8 * N.of_nat width) by lia.
      rewrite N.pow_add_r. reflexivity.
Qed.

Lemma packed_fixed_loop_written (width : nat) (vs : list N) (fuel : nat) :
  (0 < width)%nat ->
  Forall (fun v => v < 2 ^ (8 * N.of_nat width)) vs ->
  (length vs <= fuel)%nat ->
  packed_fixed_loop fuel width (concat (map (pbf.fixed width) vs)) = Some vs.
Proof.
  intros Hw Hall. revert fuel. induction Hall as [|v vs Hv _ IH]; intros fuel Hf.
  - destruct fuel; reflexivity.
  - destruct fuel as [|fuel]; [simpl in Hf; lia|].
    cbn [map concat packed_fixed_loop].
    destruct (pbf.fixed width v ++ concat (map (pbf.fixed width) vs)) as [|b d] eqn:Ed.
    { apply (f_equal length) in Ed. rewrite length_app, length_fixed in Ed.
      cbn in Ed. lia. }
    rewrite <- Ed, get_fixed_written, IH by (simpl in Hf; lia).
    rewrite N.mod_small by exact Hv. reflexivity.
Qed.

Lemma packed_fixed_written (width : nat) (vs : list N) :
  (0 < width)%nat ->
  Forall (fun v => v < 2 ^ (8 * N.of_nat width)) vs ->
  packed_fixed width (concat (map (pbf.fixed width) vs)) = Some vs.
Proof.
  intros Hw Hall. apply packed_fixed_loop_written; [exact Hw|exact Hall|].
  rewrite length_concat_fixed. nia.
Qed.

Lemma numeric_unpack_written (k : numeric_table) (vs : list N) :
  Forall (fun v => v < numeric_bound k) vs ->
  numeric_unpack k (numeric_payload k vs) = Some vs.
Proof.
  intros Hall. destruct k; cbn [numeric_unpack numeric_payload numeric_bound] in *.
  - apply packed_fixed_written; [lia|exact Hall].
  - apply packed_fixed_written; [lia|exact Hall].
  - apply packed_varints_written.
Qed.

Lemma payloads_numeric (tag : N) (k : numeric_table) (vs : list N) :
  payloads tag (numeric_fields k vs)
  = if numeric_tag k =? tag
    then match vs with [] => [] | _ => [numeric_payload k vs] end
    else [].
Proof.
  unfold numeric_fields. destruct vs as [|v vs]; cbn [payloads].
  - destruct (numeric_tag k =? tag); reflexivity.
  - destruct (numeric_tag k =? tag); reflexivity.
Qed.

(** X13: a layer of version 3 that has features is built as one layer
    record of the tile in which a reader finds, after the fields of the
    layer buffer, the entries of the keys table and of the string values
    table, no v1/v2 values table, and for each numeric table that is not
    empty one packed field that unpacks to the values of the table, in
    order; an empty numeric table leaves no field. *)
Theorem build_v3_round_trip (l : layer_builder_impl.t) (fs : list pbf_field) :
  0 < layer_builder_impl.m_num_features l ->
  3 <= layer_builder_impl.m_version l ->
  layer_builder_impl.m_data l = message_bytes fs ->
  table_wf (layer_builder_impl.m_keys_table l) pbf_layer.keys ->
  table_wf (layer_builder_impl.m_string_values_table l) pbf_layer.string_values ->
  exists layer,
    pbf.views pbf_tile.layers (layer_builder_impl.build l []) = Some [layer]
    /\ pbf.views pbf_layer.keys layer
       = Some (payloads pbf_layer.keys fs
               ++ string_table.entries (layer_builder_impl.m_keys_table l))
    /\ pbf.views pbf_layer.string_values layer
       = Some (payloads pbf_layer.string_values fs
               ++ string_table.entries (layer_builder_impl.m_string_values_table l))
    /\ pbf.views pbf_layer.values layer = Some (payloads pbf_layer.values fs)
    /\ (forall k,
          Forall (fun v => v < numeric_bound k) (numeric_values k l) ->
          exists packed,
            pbf.views (numeric_tag k) layer
            = Some (payloads (numeric_tag k) fs ++ packed)
            /\ vector_tile.read_all (numeric_unpack k) packed
               = Some (match numeric_values k l with
                       | [] => []
                       | vs => [vs]
                       end))
    /\ (forall tag, pbf.find_varint tag layer = first_varint tag fs).
Proof.
  intros Hpos Hver Hd Hk Hs.
  rewrite (build_v3_record l fs Hpos Hver Hd Hk Hs).
  eexists. split; [apply views_layers_record|].
  split; [|split; [|split; [|split]]].
  - rewrite views_message_all, !payloads_app, !payloads_table, !payloads_numeric.
    cbn. rewrite !app_nil_r. reflexivity.
  - rewrite views_message_all, !payloads_app, !payloads_table, !payloads_numeric.
    cbn. rewrite !app_nil_r. reflexivity.
  - rewrite views_message_all, !payloads_app, !payloads_table, !payloads_numeric.
    cbn. rewrite !app_nil_r. reflexivity.
  - intros k Hall.
    exists (match numeric_values k l with
            | [] => []
            | _ => [numeric_payload k (numeric_values k l)]
            end).
    split.
    + rewrite views_message_all, !payloads_app, !payloads_table, !payloads_numeric.
      destruct k; cbn; rewrite ?app_nil_r; reflexivity.
    + destruct (numeric_values k l) as [|v vs] eqn:E; [reflexivity|].
      cbn [vector_tile.read_all]. rewrite numeric_unpack_written by exact Hall.
      reflexivity.
  - intros tag. rewrite find_varint_message_all.
    apply first_varint_fields_only. repeat apply Forall_app_2;
      first [apply bytes_fields_table | apply bytes_fields_numeric].
Qed.

Lemma build_v3_round_trip_witness :
  exists layer,
    pbf.views pbf_tile.layers (layer_builder_impl.build sample_v3_layer [])
    = Some [layer]
    /\ pbf.views pbf_layer.string_values layer
       = Some [sample_text; [x62; x61; x72]]
    /\ (exists packed,
          pbf.views pbf_layer.double_values layer = Some packed
          /\ vector_tile.read_all (packed_fixed 8) packed
             = Some [[double_19; double_zero; double_nan]])
    /\ pbf.views pbf_layer.float_values layer = Some [].
Proof.
  destruct (build_v3_round_trip sample_v3_layer (header_fields sample_text 3 4096))
    as (layer & Hl & _ & Hsv & _ & Hnum & _).
  - vm_compute. reflexivity.
  - vm_compute. discriminate.
  - vm_compute. reflexivity.
  - table_wf_by_computation.
  - table_wf_by_computation.
  - exists layer. split; [exact Hl|]. split; [rewrite Hsv; vm_compute; reflexivity|].
    split.
    + destruct (Hnum double_table) as (packed & Hv & Hr).
      { repeat constructor. }
      exists packed. split; [exact Hv|exact Hr].
    + destruct (Hnum float_table) as (packed & Hv & Hr); [constructor|].
      etransitivity; [exact Hv|]. f_equal. change ([] ++ packed = []).
      change (numeric_values float_table sample_v3_layer) with (@nil N) in Hr.
      destruct packed as [|p packed]; [reflexivity|].
      cbn [vector_tile.read_all] in Hr.
      destruct (numeric_unpack float_table p); [|discriminate].
      destruct (vector_tile.read_all (numeric_unpack float_table) packed); discriminate.
Defined.

(** X14: the name, the version and the extent a layer was constructed
    with are what a reader finds in the layer once it is built, whatever
    was written to the layer and its tables afterwards. *)
Theorem constructor_header_round_trip (l : layer_builder_impl.t) (name : bytes)
    (version extent : N) (fs : list pbf_field) :
  0 < layer_builder_impl.m_num_features l ->
  layer_builder_impl.m_data l
  = layer_builder_impl.m_data (layer_builder_impl.new name version extent)
    ++ message_bytes fs ->
  table_wf (layer_builder_impl.m_keys_table l) pbf_layer.keys ->
  table_wf (layer_builder_impl.m_values_table l) pbf_layer.values ->
  table_wf (layer_builder_impl.m_string_values_table l) pbf_layer.string_values ->
  exists layer,
    pbf.views pbf_tile.layers (layer_builder_impl.build l []) = Some [layer]
    /\ pbf.find_varint pbf_layer.version layer = Some version
    /\ pbf.find_varint pbf_layer.extent layer = Some extent
    /\ pbf.views pbf_layer.name layer = Some (name :: payloads pbf_layer.name fs).
Proof.
  intros Hpos Hd Hk Hv Hs.
  assert (Hd' : layer_builder_impl.m_data l
                = message_bytes (header_fields name version extent ++ fs)).
  { rewrite Hd, message_bytes_app. f_equal.
    unfold message_bytes, header_fields. cbn [map concat field_bytes].
    rewrite app_nil_r. reflexivity. }
  destruct (N.lt_ge_cases (layer_builder_impl.m_version l) 3) as [Hlt|Hge].
  - rewrite (build_v2_record l _ Hpos Hlt Hd' Hk Hv).
    eexists. split; [apply views_layers_record|].
    rewrite !find_varint_message_all, views_message_all.
    rewrite !first_varint_app, !payloads_app, !payloads_table.
    cbn. rewrite ?app_nil_r. repeat split.
  - rewrite (build_v3_record l _ Hpos Hge Hd' Hk Hs).
    eexists. split; [apply views_layers_record|].
    rewrite !find_varint_message_all, views_message_all.
    rewrite !first_varint_app, !payloads_app, !payloads_table, !payloads_numeric.
    cbn. rewrite ?app_nil_r. repeat split.
Qed.

Lemma constructor_header_round_trip_witness :
  exists layer,
    pbf.views pbf_tile.layers (layer_builder_impl.build sample_v3_layer [])
    = Some [layer]
    /\ pbf.find_varint pbf_layer.version layer = Some 3
    /\ pbf.find_varint pbf_layer.extent layer = Some 4096
    /\ pbf.views pbf_layer.name layer = Some [sample_text].
Proof.
  apply (constructor_header_round_trip sample_v3_layer sample_text 3 4096 []).
  - vm_compute. reflexivity.
  - vm_compute. reflexivity.
  - table_wf_by_computation.
  - table_wf_by_computation.
  - table_wf_by_computation.
Defined.

(** ** More on sequences of calls *)

Lemma numeric_without_dup_check_run (k : numeric_table) (values : list N)
    (l : layer_builder_impl.t) :
  layer_builder_impl.m_version l = 3 ->
  N.of_nat (length (numeric_values k l)) + N.of_nat (length values)
    <= index_value.invalid ->
  exists l',
    numeric_run k (map call_add_value_without_dup_check values) l
    = returns (map N.of_nat (seq (length (numeric_values k l)) (length values)), l')
    /\ numeric_values k l' = numeric_values k l ++ values.
Proof.
  revert l. induction values as [|x values IH]; intros l Hver Hroom.
  - exists l. cbn. rewrite app_nil_r. split; reflexivity.
  - cbn [length map numeric_run] in *.
    destruct (numeric_apply_spec k (call_add_value_without_dup_check x) l Hver)
      as (i & l1 & Hrun & Hres); [lia|].
    rewrite Hrun. cbn [bind fst snd].
    destruct Hres as [n u Hc _ _ _ _ _|_ Hi Hvals Hver1]; [discriminate|].
    cbn [numeric_call_value] in Hvals.
    destruct (IH l1) as (l' & Hrun' & Hvals'); [congruence|rewrite Hvals, length_app; cbn; lia|].
    rewrite Hrun'. cbn [bind fst snd]. exists l'.
    rewrite Hvals', Hvals, <- app_assoc. split; [|reflexivity].
    rewrite Hi, length_app. cbn [length seq map]. rewrite Nat.add_1_r. reflexivity.
Qed.

(** X15: the [_without_dup_check] variants of the numeric tables never
    compare: a new layer of version 3 filled by them holds the values as
    they were given, with their repetitions, and the calls return 0, 1,
    2, and so on. *)
Theorem numeric_without_dup_check_keeps_all (k : numeric_table) (values : list N)
    (name : bytes) (extent : N) :
  N.of_nat (length values) <= index_value.invalid ->
  exists l',
    numeric_run k (map call_add_value_without_dup_check values)
      (layer_builder_impl.new name 3 extent)
    = returns (map N.of_nat (seq 0 (length values)), l')
    /\ numeric_values k l' = values.
Proof.
  intros Hlen.
  destruct (numeric_without_dup_check_run k values
              (layer_builder_impl.new name 3 extent) eq_refl) as (l' & Hrun & Hvals).
  { destruct k; cbn; lia. }
  exists l'. split; [|destruct k; exact Hvals].
  destruct k; exact Hrun.
Qed.

Lemma numeric_without_dup_check_keeps_all_witness :
  exists l',
    numeric_run int_table (map call_add_value_without_dup_check [19; 22; 19])
      (layer_builder_impl.new sample_text 3 4096) = returns ([0; 1; 2], l')
    /\ numeric_values int_table l' = [19; 22; 19].
Proof.
  apply (numeric_without_dup_check_keeps_all int_table [19; 22; 19] sample_text 4096).
  vm_compute. discriminate.
Defined.

(** X16: the index of a string table is sound and built late.  After any
    sequence of [add] and [add_without_dup_check] calls on a new table,
    every index the map holds is valid and is a position at which the
    table holds the key of the map; the map is empty as long as the table
    has fewer than 20 entries; and the count is the number of entries of
    the serialized table. *)
Theorem index_sound_and_lazy (tag : N) (cs : list table_call) :
  N.of_nat (length cs) <= index_value.invalid ->
  (forall s i,
     string_table.m_index (snd (table_run cs (string_table.new tag))) !! s = Some i ->
     index_value.valid i = true
     /\ string_table.entries (snd (table_run cs (string_table.new tag))) !! N.to_nat i
        = Some s)
  /\ (string_table.m_num (snd (table_run cs (string_table.new tag)))
      < string_table.max_entries_flat ->
      string_table.m_index (snd (table_run cs (string_table.new tag))) = ∅)
  /\ string_table.m_num (snd (table_run cs (string_table.new tag)))
     = N.of_nat (length (string_table.entries
                           (snd (table_run cs (string_table.new tag))))).
Proof.
  intros Hlen.
  destruct (table_run_spec cs (string_table.new tag) [] (table_inv_new tag))
    as (es & Hinv & _); [simpl; lia|].
  rewrite (table_inv_entries _ _ Hinv). destruct Hinv as [_ Hn Hr Hi Hf].
  split; [|split; [exact Hf|exact Hn]].
  intros s i Hl. pose proof (Hi s i Hl) as Hs. split; [|exact Hs].
  apply index_valid_lt. pose proof (lookup_index_lt _ _ _ Hs). lia.
Qed.

Lemma index_sound_and_lazy_witness :
  string_table.m_index (sample_table 19) = ∅
  /\ string_table.m_index (snd (string_table.add sample_text (sample_table 20)))
       !! sample_text = Some 20
  /\ string_table.entries (snd (string_table.add sample_text (sample_table 20)))
       !! 20%nat = Some sample_text.
Proof.
  destruct (index_sound_and_lazy pbf_layer.keys (map call_add (sample_texts 19)))
    as (_ & Hlazy & _); [vm_compute; discriminate|].
  destruct (index_sound_and_lazy pbf_layer.keys
              (map call_add (sample_texts 20 ++ [sample_text])))
    as (Hsound & _); [vm_compute; discriminate|].
  assert (Hl : string_table.m_index
                 (snd (string_table.add sample_text (sample_table 20)))
                 !! sample_text = Some 20) by (vm_compute; reflexivity).
  split; [apply Hlazy; vm_compute; reflexivity|]. split; [exact Hl|].
  assert (Hrun : snd (table_run (map call_add (sample_texts 20 ++ [sample_text]))
                        (string_table.new pbf_layer.keys))
                 = snd (string_table.add sample_text (sample_table 20)))
    by (vm_compute; reflexivity).
  rewrite Hrun in Hsound. exact (proj2 (Hsound sample_text 20 Hl)).
Defined.

(** ** From the calls to the built layer *)

Lemma table_ok_wf (tbl : string_table.t) (tag room : N) :
  table_ok tbl room -> string_table.m_pbf_type tbl = tag -> table_wf tbl tag.
Proof.
  intros [[Hd _ _ _ _] _] Hp. split; [exact Hp|].
  exists (string_table.entries tbl). rewrite Hd, Hp. reflexivity.
Qed.

Lemma add_position_ok (text : bytes) (tbl : string_table.t) (tag : N) :
  table_ok tbl 1 -> string_table.m_pbf_type tbl = tag ->
  table_wf (snd (string_table.add text tbl)) tag
  /\ string_table.entries (snd (string_table.add text tbl))
       !! N.to_nat (fst (string_table.add text tbl)) = Some text.
Proof.
  intros [Hinv Hroom] Hp.
  destruct (add_spec_position text tbl _ Hinv) as (es' & Hinv' & Hl & Hp' & _); [lia|].
  split.
  - apply (table_ok_wf _ tag 0); [|congruence].
    split; [rewrite (table_inv_entries _ _ Hinv'); exact Hinv'|].
    rewrite N.add_0_r. rewrite (table_inv_entries _ _ Hinv'). apply Hinv'.
  - rewrite (table_inv_entries _ _ Hinv'). exact Hl.
Qed.

(** X17: the indices [add_key] and [add_value] return are positions in
    the tables of the built layer: on a layer of version 1 or 2 that has
    features, and whose buffer holds no field under the tags of the two
    tables, a reader of the built layer finds the key at the key index
    among the keys, and the value at the value index among the values. *)
Theorem add_key_value_then_build (l : layer_builder_impl.t) (fs : list pbf_field)
    (key value : bytes) :
  0 < layer_builder_impl.m_num_features l ->
  layer_builder_impl.m_version l < 3 ->
  layer_builder_impl.m_data l = message_bytes fs ->
  payloads pbf_layer.keys fs = [] ->
  payloads pbf_layer.values fs = [] ->
  string_table.m_pbf_type (layer_builder_impl.m_keys_table l) = pbf_layer.keys ->
  string_table.m_pbf_type (layer_builder_impl.m_values_table l) = pbf_layer.values ->
  table_ok (layer_builder_impl.m_keys_table l) 1 ->
  table_ok (layer_builder_impl.m_values_table l) 1 ->
  exists ki l1 vi l2 layer keys values,
    layer_builder_impl.add_key key l = (ki, l1)
    /\ layer_builder_impl.add_value value l1 = returns (vi, l2)
    /\ pbf.views pbf_tile.layers (layer_builder_impl.build l2 []) = Some [layer]
    /\ pbf.views pbf_layer.keys layer = Some keys
    /\ pbf.views pbf_layer.values layer = Some values
    /\ keys !! N.to_nat ki = Some key
    /\ values !! N.to_nat vi = Some value.
Proof.
  intros Hpos Hver Hd Hpk Hpv Htk Htv Hok Hov.
  destruct (add_position_ok key _ _ Hok Htk) as [Hwk Hlk].
  destruct (add_position_ok value _ _ Hov Htv) as [Hwv Hlv].
  set (l1 := snd (layer_builder_impl.add_key key l)).
  assert (Hl1 : l1 = layer_builder_impl.set_keys_table
                       (snd (string_table.add key (layer_builder_impl.m_keys_table l))) l).
  { unfold l1, layer_builder_impl.add_key.
    destruct (string_table.add key (layer_builder_impl.m_keys_table l)); reflexivity. }
  assert (Hver1 : layer_builder_impl.m_version l1 < 3) by (rewrite Hl1; exact Hver).
  pose proof (add_value_returns value l1 Hver1) as Hadd.
  set (l2 := layer_builder_impl.set_values_table
               (snd (string_table.add value (layer_builder_impl.m_values_table l1))) l1)
    in *.
  assert (Hrec : layer_builder_impl.build l2 []
                 = pbf.add_bytes pbf_tile.layers
                     (message_bytes
                        (fs
                         ++ map (bytes_field pbf_layer.keys)
                              (string_table.entries (layer_builder_impl.m_keys_table l2))
                         ++ map (bytes_field pbf_layer.values)
                              (string_table.entries
                                 (layer_builder_impl.m_values_table l2))))).
  { apply build_v2_record; unfold l2; rewrite Hl1; cbn; assumption. }
  exists (fst (layer_builder_impl.add_key key l)), l1,
         (fst (string_table.add value (layer_builder_impl.m_values_table l1))), l2.
  eexists _, _, _.
  split; [apply surjective_pairing|]. split; [exact Hadd|].
  rewrite Hrec. split; [apply views_layers_record|].
  rewrite !views_message_all, !payloads_app, !payloads_table, Hpk, Hpv.
  cbn [app]. change (pbf_layer.keys =? pbf_layer.keys) with true.
  change (pbf_layer.values =? pbf_layer.keys) with false.
  change (pbf_layer.keys =? pbf_layer.values) with false.
  change (pbf_layer.values =? pbf_layer.values) with true.
  cbn [app]. rewrite app_nil_r.
  split; [reflexivity|]. split; [reflexivity|].
  unfold l2. rewrite Hl1. cbn. rewrite add_key_fst. split; [exact Hlk|exact Hlv].
Qed.

Lemma add_key_value_then_build_witness :
  exists ki l1 vi l2 layer keys values,
    layer_builder_impl.add_key [x66; x6f; x6f] sample_v2_layer = (ki, l1)
    /\ layer_builder_impl.add_value (encoded_property_value.of_int 19) l1
       = returns (vi, l2)
    /\ pbf.views pbf_tile.layers (layer_builder_impl.build l2 []) = Some [layer]
    /\ pbf.views pbf_layer.keys layer = Some keys
    /\ pbf.views pbf_layer.values layer = Some values
    /\ keys !! N.to_nat ki = Some [x66; x6f; x6f]
    /\ values !! N.to_nat vi = Some (encoded_property_value.of_int 19).
Proof.
  apply (add_key_value_then_build sample_v2_layer (header_fields sample_text 2 4096)).
  - vm_compute. reflexivity.
  - vm_compute. reflexivity.
  - vm_compute. reflexivity.
  - reflexivity.
  - reflexivity.
  - reflexivity.
  - reflexivity.
  - table_ok_by_computation.
  - table_ok_by_computation.
Defined.

(** ** Tiles read and written again *)

Lemma reencode_bytes (ls : list bytes) :
  reencode ls = concat (map (pbf.add_bytes pbf_tile.layers) ls).
Proof.
  unfold reencode. rewrite add_existing_layers. cbn [app].
  unfold tile_builder.serialize. rewrite serialize_existing. reflexivity.
Qed.

(** C4, as the code has it: round trip through existing layers.  For
    every valid tile [T], one the decoder reads into its layers, adding
    each layer's bytes, in order, with [add_existing_layer] to an empty
    tile builder serializes to the canonical tile of the same layers: it
    reads back to the same layers, and it is [T] again exactly when [T] is
    canonical. *)
Theorem C4_existing_layers_round_trip (T : bytes) :
  vector_tile.valid T ->
  exists ls,
    vector_tile.layers T = Some ls
    /\ vector_tile.layers (reencode ls) = Some ls
    /\ vector_tile.canonical (reencode ls)
    /\ (reencode ls = T <-> vector_tile.canonical T).
Proof.
  intros [ls Hls]. exists ls. rewrite reencode_bytes.
  split; [exact Hls|]. split; [apply views_table_bytes|].
  split; [exists ls; reflexivity|]. split.
  - intros <-. exists ls. reflexivity.
  - intros [ls' ->]. unfold vector_tile.layers in Hls.
    change (concat (map (pbf.add_bytes pbf_tile.layers) ls'))
      with (table_bytes pbf_tile.layers ls') in Hls.
    rewrite views_table_bytes in Hls. injection Hls as ->. reflexivity.
Qed.

Lemma C4_witness :
  exists ls,
    vector_tile.layers sample_tile_long_length = Some ls
    /\ vector_tile.layers (reencode ls) = Some ls
    /\ vector_tile.canonical (reencode ls)
    /\ reencode ls = sample_tile.
Proof.
  destruct (C4_existing_layers_round_trip sample_tile_long_length)
    as (ls & Hls & Hre & Hc & _).
  - eexists. vm_compute. reflexivity.
  - exists ls. split; [exact Hls|]. split; [exact Hre|]. split; [exact Hc|].
    vm_compute in Hls. injection Hls as <-. vm_compute. reflexivity.
Defined.

(** C4 as stated fails: a tile whose layer record has its length in two
    bytes, and a tile that holds another field, are read by the decoder
    into the same layer, with the same feature, as the canonical tile, and
    it is the canonical tile that comes out, which differs from both. *)
Lemma C4_counterexample :
  vector_tile.layers sample_tile_long_length = vector_tile.layers sample_tile
  /\ vector_tile.layers sample_tile_other_field = vector_tile.layers sample_tile
  /\ vector_tile.features sample_tile_long_length
     = Some [vector_tile.mk_feature (Some 1) None (Some 1) [9; 20; 20] []]
  /\ vector_tile.features sample_tile_other_field
     = Some [vector_tile.mk_feature (Some 1) None (Some 1) [9; 20; 20] []]
  /\ match vector_tile.layers sample_tile_long_length with
     | Some ls => reencode ls
     | None => []
     end = sample_tile
  /\ match vector_tile.layers sample_tile_other_field with
     | Some ls => reencode ls
     | None => []
     end = sample_tile
  /\ sample_tile <> sample_tile_long_length
  /\ sample_tile <> sample_tile_other_field.
Proof.
  repeat split; try (vm_compute; reflexivity); vm_compute; discriminate.
Qed.

(** ** The index of an entry and the serialized table *)

Lemma numeric_eq_nan (k : numeric_table) (u v : N) :
  numeric_is_nan k v = true -> numeric_eq k u v = false.
Proof.
  destruct k; cbn [numeric_is_nan numeric_eq]; try discriminate;
    unfold double_eq, float_eq, ieee_eq; intros ->;
    cbn [negb]; rewrite andb_false_r; reflexivity.
Qed.

(** An entry that compares equal to a value that is no zero is that
    value, bit by bit. *)
Lemma numeric_eq_not_zero (k : numeric_table) (u v : N) :
  u = v \/ numeric_eq k u v = true ->
  numeric_is_zero k v = false -> u = v.
Proof.
  intros [H|H] Hz; [exact H|].
  destruct (numeric_is_nan k v) eqn:En.
  - rewrite (numeric_eq_nan k u v En) in H. discriminate.
  - symmetry. apply (numeric_eq_bits k v u En Hz). rewrite numeric_eq_sym. exact H.
Qed.

Lemma numeric_apply_frame (k : numeric_table) (c : numeric_call)
    (l l' : layer_builder_impl.t) (i : index_value.t) :
  numeric_apply k c l = returns (i, l') ->
  layer_builder_impl.m_data l' = layer_builder_impl.m_data l
  /\ layer_builder_impl.m_keys_table l' = layer_builder_impl.m_keys_table l
  /\ layer_builder_impl.m_string_values_table l'
     = layer_builder_impl.m_string_values_table l
  /\ layer_builder_impl.m_num_features l' = layer_builder_impl.m_num_features l
  /\ layer_builder_impl.m_version l' = layer_builder_impl.m_version l.
Proof.
  destruct k, c; cbn [numeric_apply];
    unfold layer_builder_impl.add_double_value, layer_builder_impl.add_float_value,
      layer_builder_impl.add_int_value,
      layer_builder_impl.add_double_value_without_dup_check,
      layer_builder_impl.add_float_value_without_dup_check,
      layer_builder_impl.add_int_value_without_dup_check;
    destruct (layer_builder_impl.m_version l =? 3); cbn [vtzero_assert bind];
    try discriminate;
    repeat match goal with
           | |- context [std_find ?e ?v ?x] => destruct (std_find e v x)
           end;
    intros [= <- <-]; repeat split.
Qed.

Lemma numeric_run_frame (k : numeric_table) (cs : list numeric_call)
    (l l' : layer_builder_impl.t) (ids : list index_value.t) :
  numeric_run k cs l = returns (ids, l') ->
  layer_builder_impl.m_data l' = layer_builder_impl.m_data l
  /\ layer_builder_impl.m_keys_table l' = layer_builder_impl.m_keys_table l
  /\ layer_builder_impl.m_string_values_table l'
     = layer_builder_impl.m_string_values_table l
  /\ layer_builder_impl.m_num_features l' = layer_builder_impl.m_num_features l
  /\ layer_builder_impl.m_version l' = layer_builder_impl.m_version l.
Proof.
  revert l ids. induction cs as [|c cs IH]; intros l ids Hrun.
  - injection Hrun as <- <-. repeat split.
  - cbn [numeric_run] in Hrun.
    destruct (numeric_apply k c l) as [[i l1]|] eqn:E1; [|discriminate].
    cbn [bind fst snd] in Hrun.
    destruct (numeric_run k cs l1) as [[ids1 l2]|] eqn:E2; [|discriminate].
    cbn [bind fst snd] in Hrun. injection Hrun as <- <-.
    destruct (numeric_apply_frame k c l l1 i E1) as (H1 & H2 & H3 & H4 & H5).
    destruct (IH l1 ids1 E2) as (H1' & H2' & H3' & H4' & H5').
    repeat split; congruence.
Qed.

Lemma numeric_apply_values (k : numeric_table) (c : numeric_call)
    (l l' : layer_builder_impl.t) (i : index_value.t) :
  numeric_apply k c l = returns (i, l') ->
  numeric_values k l' = numeric_values k l
  \/ numeric_values k l' = numeric_values k l ++ [numeric_call_value c].
Proof.
  destruct k, c; cbn [numeric_apply numeric_values numeric_call_value];
    unfold layer_builder_impl.add_double_value, layer_builder_impl.add_float_value,
      layer_builder_impl.add_int_value,
      layer_builder_impl.add_double_value_without_dup_check,
      layer_builder_impl.add_float_value_without_dup_check,
      layer_builder_impl.add_int_value_without_dup_check;
    destruct (layer_builder_impl.m_version l =? 3); cbn [vtzero_assert bind];
    try discriminate;
    repeat match goal with
           | |- context [std_find ?e ?v ?x] => destruct (std_find e v x)
           end;
    intros [= <- <-]; cbn; auto.
Qed.

Lemma numeric_run_in_range (k : numeric_table) (cs : list numeric_call)
    (l l' : layer_builder_impl.t) (ids : list index_value.t) (P : N -> Prop) :
  numeric_run k cs l = returns (ids, l') ->
  Forall P (numeric_values k l) ->
  Forall (fun c => P (numeric_call_value c)) cs ->
  Forall P (numeric_values k l').
Proof.
  revert l ids. induction cs as [|c cs IH]; intros l ids Hrun Hl Hcs.
  - injection Hrun as <- <-. exact Hl.
  - cbn [numeric_run] in Hrun.
    destruct (numeric_apply k c l) as [[i l1]|] eqn:E1; [|discriminate].
    cbn [bind fst snd] in Hrun.
    destruct (numeric_run k cs l1) as [[ids1 l2]|] eqn:E2; [|discriminate].
    cbn [bind fst snd] in Hrun. injection Hrun as <- <-.
    inversion Hcs as [|c' cs' Hc Hcs']; subst.
    apply (IH l1 ids1 E2); [|exact Hcs'].
    destruct (numeric_apply_values k c l l1 i E1) as [->| ->]; [exact Hl|].
    apply Forall_app. split; [exact Hl|]. constructor; [exact Hc|constructor].
Qed.

Lemma new_data_fields (name : bytes) (version extent : N) :
  layer_builder_impl.m_data (layer_builder_impl.new name version extent)
  = message_bytes (header_fields name version extent).
Proof.
  unfold message_bytes, header_fields. cbn [map concat field_bytes].
  rewrite app_nil_r. reflexivity.
Qed.

(** The packed field of a numeric table in the layer that is built from a
    new layer once the table is filled and a feature is counted. *)
Lemma numeric_table_built (k : numeric_table) (name : bytes) (extent : N)
    (l' : layer_builder_impl.t) :
  layer_builder_impl.m_data l'
  = layer_builder_impl.m_data (layer_builder_impl.new name 3 extent) ->
  layer_builder_impl.m_keys_table l' = string_table.new pbf_layer.keys ->
  layer_builder_impl.m_string_values_table l'
  = string_table.new pbf_layer.string_values ->
  layer_builder_impl.m_num_features l' = 0 ->
  layer_builder_impl.m_version l' = 3 ->
  Forall (fun v => v < numeric_bound k) (numeric_values k l') ->
  exists layer packed,
    pbf.views pbf_tile.layers
      (layer_builder_impl.build (layer_builder_impl.increment_feature_count l') [])
    = Some [layer]
    /\ pbf.views (numeric_tag k) layer = Some packed
    /\ vector_tile.read_all (numeric_unpack k) packed
       = Some (match numeric_values k l' with
               | [] => []
               | vs => [vs]
               end).
Proof.
  intros Hd Hk Hs Hn Hv Hall.
  set (l1 := layer_builder_impl.increment_feature_count l').
  assert (Hrec := build_v3_record l1 (header_fields name 3 extent)).
  rewrite Hrec.
  - eexists. exists (match numeric_values k l' with
                     | [] => []
                     | _ => [numeric_payload k (numeric_values k l')]
                     end).
    split; [apply views_layers_record|]. split.
    + rewrite views_message_all, !payloads_app, !payloads_table, !payloads_numeric.
      unfold l1. cbn [layer_builder_impl.increment_feature_count
                      layer_builder_impl.set_num_features
                      layer_builder_impl.m_keys_table
                      layer_builder_impl.m_string_values_table
                      layer_builder_impl.m_double_values
                      layer_builder_impl.m_float_values
                      layer_builder_impl.m_int_values].
      rewrite Hk, Hs. destruct k; cbn; rewrite ?app_nil_r; reflexivity.
    + destruct (numeric_values k l') as [|v vs] eqn:E; [reflexivity|].
      cbn [vector_tile.read_all]. rewrite numeric_unpack_written by exact Hall.
      reflexivity.
  - unfold l1. cbn. rewrite Hn. reflexivity.
  - unfold l1. cbn. rewrite Hv. discriminate.
  - unfold l1. cbn [layer_builder_impl.increment_feature_count
                    layer_builder_impl.set_num_features layer_builder_impl.m_data].
    rewrite Hd. apply new_data_fields.
  - unfold l1. cbn [layer_builder_impl.increment_feature_count
                    layer_builder_impl.set_num_features layer_builder_impl.m_keys_table].
    rewrite Hk. apply table_wf_new.
  - unfold l1. cbn [layer_builder_impl.increment_feature_count
                    layer_builder_impl.set_num_features
                    layer_builder_impl.m_string_values_table].
    rewrite Hs. apply table_wf_new.
Qed.

(** C8, as the code has it: the index of an entry.  For the string tables
    (keys, values, string values), after any sequence of [add] and
    [add_without_dup_check] calls on a new table, every returned index is
    the position of the call's text among the entries of the serialized
    table.  For the numeric tables of a new v3 layer, the entry at the
    returned position is the value itself or one that compares equal to
    it by [operator==], and it is the value, bit for bit, whenever the
    value is no zero; the table so indexed is what the built layer holds,
    as one packed field that unpacks to it.  In both, each call returns an
    index already in use or the next free one. *)
Theorem C8_index_is_position (tag : N) (cs : list table_call)
    (k : numeric_table) (name : bytes) (extent : N) (ncs : list numeric_call) :
  N.of_nat (length cs) <= index_value.invalid ->
  N.of_nat (length ncs) <= index_value.invalid ->
  Forall (fun c => numeric_call_value c < numeric_bound k) ncs ->
  (Forall2 (fun c i =>
              string_table.entries (snd (table_run cs (string_table.new tag)))
                !! N.to_nat i = Some (call_text c))
     cs (fst (table_run cs (string_table.new tag)))
   /\ consecutive 0 (fst (table_run cs (string_table.new tag))))
  /\ (exists ids l',
        numeric_run k ncs (layer_builder_impl.new name 3 extent) = returns (ids, l')
        /\ Forall2 (fun c i =>
                      exists u, numeric_values k l' !! N.to_nat i = Some u
                                /\ (u = numeric_call_value c
                                    \/ numeric_eq k u (numeric_call_value c) = true)
                                /\ (numeric_is_zero k (numeric_call_value c) = false ->
                                    u = numeric_call_value c))
             ncs ids
        /\ consecutive 0 ids
        /\ exists layer packed,
             pbf.views pbf_tile.layers
               (layer_builder_impl.build
                  (layer_builder_impl.increment_feature_count l') [])
             = Some [layer]
             /\ pbf.views (numeric_tag k) layer = Some packed
             /\ vector_tile.read_all (numeric_unpack k) packed
                = Some (match numeric_values k l' with
                        | [] => []
                        | vs => [vs]
                        end)).
Proof.
  intros Hcs Hncs Hrange. split.
  - destruct (table_run_spec cs (string_table.new tag) [] (table_inv_new tag))
      as (es' & Hinv & _ & _ & Hall & Hcons); [simpl; lia|].
    rewrite (table_inv_entries _ _ Hinv). split; assumption.
  - destruct (numeric_run_spec k ncs (layer_builder_impl.new name 3 extent) eq_refl)
      as (ids & l' & Hrun & _ & Hall & Hcons).
    { destruct k; simpl; lia. }
    exists ids, l'. split; [exact Hrun|]. split; [|split].
    + revert Hall. apply Forall2_impl.
      intros c i (u & Hu & Heq). exists u. split; [exact Hu|]. split; [exact Heq|].
      apply numeric_eq_not_zero, Heq.
    + destruct k; exact Hcons.
    + destruct (numeric_run_frame k ncs _ l' ids Hrun) as (Hd & Hk & Hs & Hn & Hv).
      apply (numeric_table_built k name extent l' Hd Hk Hs Hn Hv).
      apply (numeric_run_in_range k ncs _ l' ids _ Hrun); [|exact Hrange].
      destruct k; constructor.
Qed.

Lemma C8_witness :
  fst (table_run [call_add_without_dup_check sample_text; call_add [x61];
                  call_add sample_text; call_add [x62]]
         (string_table.new pbf_layer.keys)) = [0; 1; 0; 2]
  /\ consecutive 0 [0; 1; 0; 2]
  /\ exists l',
       numeric_run double_table
         [call_add_value double_19; call_add_value double_zero;
          call_add_value double_19; call_add_value double_minus_zero]
         (layer_builder_impl.new sample_text 3 4096) = returns ([0; 1; 0; 1], l')
       /\ numeric_values double_table l' = [double_19; double_zero].
Proof.
  destruct (C8_index_is_position pbf_layer.keys
              [call_add_without_dup_check sample_text; call_add [x61];
               call_add sample_text; call_add [x62]]
              double_table sample_text 4096
              [call_add_value double_19; call_add_value double_zero;
               call_add_value double_19; call_add_value double_minus_zero])
    as [[_ Hcons] (ids & l' & Hrun & _ & _)];
    [vm_compute; discriminate | vm_compute; discriminate
     | repeat constructor |].
  split; [vm_compute; reflexivity|]. split; [exact Hcons|].
  exists l'.
  assert (H : returns (ids, l')
              = numeric_run double_table
                  [call_add_value double_19; call_add_value double_zero;
                   call_add_value double_19; call_add_value double_minus_zero]
                  (layer_builder_impl.new sample_text 3 4096)) by (symmetry; exact Hrun).
  rewrite Hrun. vm_compute in H. injection H as -> ->. split; reflexivity.
Defined.

(** C8 as stated fails for the numeric tables: [-0.0] added after [+0.0]
    is given the index 0, and the table holds [+0.0] alone: [-0.0] is at
    no position of the table. *)
Lemma C8_counterexample :
  returned_indices
    (numeric_run double_table
       [call_add_value double_zero; call_add_value double_minus_zero]
       (layer_builder_impl.new sample_text 3 4096)) = Some [0; 0]
  /\ match numeric_run double_table
             [call_add_value double_zero; call_add_value double_minus_zero]
             (layer_builder_impl.new sample_text 3 4096) with
     | returns (_, l') => numeric_values double_table l'
     | assert_error => []
     end = [double_zero]
  /\ [double_zero] !! 0%nat <> Some double_minus_zero
  /\ double_minus_zero ∉ [double_zero].
Proof.
  split; [vm_compute; reflexivity|]. split; [vm_compute; reflexivity|].
  split; [discriminate|].
  intros H. apply list_elem_of_singleton in H. discriminate.
Qed.
